(** * Syllabus scanner server: response normalisation and multi-page merge

    A shallow embedding of the text-processing core of the server
    (extractField, extractBulletPoints, extractAssignments,
    parseAssignmentBullet, parseSyllabusData, combineAllResults) and of
    the batch persistence loop (saveMultipleAssignments), followed by the
    properties the specification states about them.  The selection and
    analysis of the pages of a converted PDF, the scan route of the two
    servers, saveCourse and processJob of the background worker are
    embedded as well, with further properties of the code.

    JavaScript strings are sequences of UTF-16 code units; they are lists
    of [N] here.  The regular expressions of the source are kept as syntax
    trees and run by a backtracking matcher that follows the order in which
    the ECMAScript matcher explores alternatives. *)

From Stdlib Require Import Ascii String.
From Stdlib Require Import List NArith ZArith Bool Lia.
Import ListNotations.

Set Implicit Arguments.

(** ** Strings *)

Module Js.

Definition jsstring := list N.

(** An ASCII literal of the source as code units. *)
Definition u16 (s : string) : jsstring :=
  map N_of_ascii (list_ascii_of_string s).
Arguments u16 s%_string.

Fixpoint str_eqb (a b : jsstring) : bool :=
  match a, b with
  | [], [] => true
  | x :: a', y :: b' => N.eqb x y && str_eqb a' b'
  | _, _ => false
  end.

(** [s.startsWith(p)] *)
Fixpoint startsWith (p s : jsstring) : bool :=
  match p, s with
  | [], _ => true
  | x :: p', y :: s' => N.eqb x y && startsWith p' s'
  | _ :: _, [] => false
  end.

(** [s.includes(t)] *)
Fixpoint includes (s t : jsstring) : bool :=
  startsWith t s ||
  match s with
  | [] => false
  | _ :: s' => includes s' t
  end.

(** Truthiness of a string: only the empty string is falsy. *)
Definition truthy (s : jsstring) : bool :=
  match s with [] => false | _ :: _ => true end.

(** [a || b] on strings. *)
Definition orElse (a b : jsstring) : jsstring :=
  if truthy a then a else b.

(** WhiteSpace and LineTerminator code units: what [\s] matches and what
    [trim] removes. *)
Definition isSpace (c : N) : bool :=
  ((9 <=? c) && (c <=? 13) || (c =? 32) || (c =? 160) || (c =? 5760) ||
   (8192 <=? c) && (c <=? 8202) || (c =? 8232) || (c =? 8233) ||
   (c =? 8239) || (c =? 8287) || (c =? 12288) || (c =? 65279))%N.

Definition isDigit (c : N) : bool := ((48 <=? c) && (c <=? 57))%N.

Definition isUpperAscii (c : N) : bool := ((65 <=? c) && (c <=? 90))%N.
Definition isLowerAscii (c : N) : bool := ((97 <=? c) && (c <=? 122))%N.

(** [\w] : letters, digits and the underscore. *)
Definition isWord (c : N) : bool :=
  isUpperAscii c || isLowerAscii c || isDigit c || (c =? 95)%N.

Fixpoint dropWhile (p : N -> bool) (s : jsstring) : jsstring :=
  match s with
  | [] => []
  | c :: s' => if p c then dropWhile p s' else s
  end.

Definition trimStart (s : jsstring) : jsstring := dropWhile isSpace s.
Definition trimEnd (s : jsstring) : jsstring := rev (dropWhile isSpace (rev s)).

(** [s.trim()] *)
Definition trim (s : jsstring) : jsstring := trimEnd (trimStart s).

(** [t] is what is left of [s] after some prefix. *)
Definition suffix (t s : jsstring) : Prop := exists p, s = p ++ t.

(** A string that does not begin with white space. *)
Definition cleanStart (s : jsstring) : Prop :=
  match s with
  | [] => True
  | c :: _ => isSpace c = false
  end.

(** [s.toLowerCase()], unit by unit.  The letters A-Z, the Kelvin sign
    (U+212A, lower case k) and the dotted capital I (U+0130, lower case i
    followed by U+0307) are the only code units whose lower case contains
    an ASCII unit.  Every other unit is mapped by the host's tables to
    units outside ASCII and is left as it is here; the ASCII units of the
    result, the only ones the keyword tests of this program look at, are
    the same. *)
Definition lowerUnit (c : N) : jsstring :=
  if isUpperAscii c then [(c + 32)%N]
  else if (c =? 8490)%N then [107%N]
  else if (c =? 304)%N then [105%N; 775%N]
  else [c].

Definition toLowerCase (s : jsstring) : jsstring := flat_map lowerUnit s.

(** [s.split(sep)[0]] for a separator of one unit. *)
Fixpoint beforeFirst (sep : N) (s : jsstring) : jsstring :=
  match s with
  | [] => []
  | c :: s' => if (c =? sep)%N then [] else c :: beforeFirst sep s'
  end.

(** [s.replace(t, '')] with a string pattern: the first occurrence of
    [t] is removed. *)
Fixpoint removeFirst (t s : jsstring) : jsstring :=
  if startsWith t s then skipn (length t) s
  else match s with
       | [] => []
       | c :: s' => c :: removeFirst t s'
       end.

(** [arr.join(sep)] *)
Fixpoint join (sep : jsstring) (l : list jsstring) : jsstring :=
  match l with
  | [] => []
  | [x] => x
  | x :: l' => x ++ sep ++ join sep l'
  end.

(** [arr.includes(x)] on an array of strings. *)
Fixpoint arrIncludes (l : list jsstring) (x : jsstring) : bool :=
  match l with
  | [] => false
  | y :: l' => str_eqb y x || arrIncludes l' x
  end.

End Js.
Import Js.

(** ** Regular expressions *)

Module Re.

(** Members of a character class. *)
Inductive citem :=
| CUnit (c : N)      (* a code unit written in the class *)
| CSpace             (* \s *)
| CNotSpace          (* \S *)
| CDigit             (* \d *)
| CWord.             (* \w *)

Inductive regex :=
| Str (l : jsstring)                      (* a run of literal units *)
| Cls (neg : bool) (items : list citem)   (* [...] and [^...] *)
| Seq (r1 r2 : regex)
| Alt (r1 r2 : regex)                     (* r1|r2 *)
| Star (greedy : bool) (r : regex)        (* r* and r*? *)
| Group (r : regex)                       (* the capture group (r) *)
| Look (r : regex)                        (* (?=r) *)
| Bol                                     (* ^ without the m flag *)
| Eol.                                    (* $ without the m flag *)

Definition Plus (r : regex) : regex := Seq r (Star true r).
Definition Opt (r : regex) : regex := Alt r (Str []).
Definition seqs (l : list regex) : regex := fold_right Seq (Str []) l.
Definition oneOf (l : jsstring) : regex := Cls false (map CUnit l).
Definition noneOf (l : jsstring) : regex := Cls true (map CUnit l).
Definition space : regex := Cls false [CSpace].
Definition digit : regex := Cls false [CDigit].
Definition word : regex := Cls false [CWord].
Definition anyUnit : regex := Cls false [CSpace; CNotSpace].

(** Canonicalize of the i flag (without the u flag): the upper case of the
    unit when that is a single unit, except that a unit outside ASCII is
    never identified with an ASCII one.  The table covers ASCII, Latin-1
    and the two Latin Extended-A pairs that occur in patterns of this
    program; any other unit that occurs in a pattern has no case variant. *)
Definition canon (c : N) : N :=
  if isLowerAscii c then (c - 32)%N
  else if ((224 <=? c) && (c <=? 254) && negb (c =? 247))%N then (c - 32)%N
  else if (c =? 255)%N then 376%N
  else if (c =? 353)%N then 352%N
  else if (c =? 382)%N then 381%N
  else c.

Definition unitMatch (ic : bool) (p x : N) : bool :=
  if ic then (canon p =? canon x)%N else (p =? x)%N.

Definition itemMatch (ic : bool) (x : N) (it : citem) : bool :=
  match it with
  | CUnit c => unitMatch ic c x
  | CSpace => isSpace x
  | CNotSpace => negb (isSpace x)
  | CDigit => isDigit x
  | CWord => isWord x
  end.

Definition clsMatch (ic neg : bool) (items : list citem) (x : N) : bool :=
  xorb neg (existsb (itemMatch ic x) items).

Fixpoint strMatch (ic : bool) (l s : jsstring) : option jsstring :=
  match l, s with
  | [], _ => Some s
  | p :: l', x :: s' => if unitMatch ic p x then strMatch ic l' s' else None
  | _ :: _, [] => None
  end.

Definition orTry {R : Type} (a b : option R) : option R :=
  match a with Some _ => a | None => b end.

Section Matcher.

(** The flag i and the length of the whole input (for ^). *)
Variable ic : bool.
Variable total : nat.

(** The continuations of the matcher and the matchers of sub-patterns. *)
Definition cont (R : Type) : Type := jsstring -> option jsstring -> option R.
Definition matcher (R : Type) : Type :=
  jsstring -> option jsstring -> cont R -> option R.

(** [atom*] and [atom*?]: an iteration that consumes nothing is rejected,
    so there are at most as many iterations as units left; [n] bounds
    them and is the length of the input where the loop starts. *)
Fixpoint star (R : Type) (greedy : bool) (atom : matcher R) (n : nat)
         (s : jsstring) (cap : option jsstring) (k : cont R) : option R :=
  match n with
  | O => k s cap
  | S n' =>
      let more :=
        atom s cap
             (fun s' cap' =>
                if Nat.ltb (length s') (length s)
                then star greedy atom n' s' cap' k
                else None) in
      if greedy then orTry more (k s cap) else orTry (k s cap) more
  end.

(** [run r s cap k]: match [r] at the front of the remaining input [s]
    and hand the rest to the continuation [k]; alternatives are tried in
    the matcher's order and the first success is returned.  [cap] is the
    text of the capture group. *)
Fixpoint run (R : Type) (r : regex) (s : jsstring) (cap : option jsstring)
         (k : cont R) {struct r} : option R :=
  match r with
  | Str l =>
      match strMatch ic l s with
      | Some s' => k s' cap
      | None => None
      end
  | Cls neg items =>
      match s with
      | x :: s' => if clsMatch ic neg items x then k s' cap else None
      | [] => None
      end
  | Seq r1 r2 => run r1 s cap (fun s' cap' => run r2 s' cap' k)
  | Alt r1 r2 => orTry (run r1 s cap k) (run r2 s cap k)
  | Star greedy r1 => star greedy (run (R := R) r1) (length s) s cap k
  | Group r1 =>
      run r1 s cap
          (fun s' _ => k s' (Some (firstn (length s - length s') s)))
  | Look r1 =>
      match run r1 s cap (fun _ cap' => Some cap') with
      | Some cap' => k s cap'
      | None => None
      end
  | Bol => if Nat.eqb (length s) total then k s cap else None
  | Eol => match s with [] => k s cap | _ :: _ => None end
  end.

End Matcher.

(** The result of a successful match. *)
Record mres := MRes {
  m_index : nat;               (* match.index *)
  m_all : jsstring;            (* match[0] *)
  m_group : option jsstring;   (* match[1] *)
  m_rest : jsstring            (* the input after the match *)
}.

Definition matchAt (ic : bool) (total : nat) (re : regex) (s : jsstring)
  : option mres :=
  run ic total re s None
      (fun s' cap =>
         Some (MRes (total - length s) (firstn (length s - length s') s) cap s')).

(** Leftmost match from the suffix [s] on. *)
Fixpoint searchFrom (ic : bool) (total : nat) (re : regex) (s : jsstring)
  : option mres :=
  match matchAt ic total re s with
  | Some m => Some m
  | None =>
      match s with
      | [] => None
      | _ :: s' => searchFrom ic total re s'
      end
  end.

(** [s.match(re)] for a pattern without the g flag. *)
Definition exec (ic : bool) (re : regex) (s : jsstring) : option mres :=
  searchFrom ic (length s) re s.

(** [s.match(re) || []] for a pattern with the g flag: every match[0],
    left to right, each search starting where the last match ended (one
    unit further after an empty match). *)
Fixpoint matchAllFrom (n : nat) (ic : bool) (total : nat) (re : regex)
         (s : jsstring) : list jsstring :=
  match n with
  | O => []
  | S n' =>
      match searchFrom ic total re s with
      | None => []
      | Some m =>
          m_all m ::
          match m_all m, m_rest m with
          | [], [] => []
          | [], _ :: rest' => matchAllFrom n' ic total re rest'
          | _ :: _, rest => matchAllFrom n' ic total re rest
          end
      end
  end.

Definition matchAll (ic : bool) (re : regex) (s : jsstring) : list jsstring :=
  matchAllFrom (S (length s)) ic (length s) re s.

(** [s.replace(re, '')] for a pattern without the g flag. *)
Definition removeMatch (ic : bool) (re : regex) (s : jsstring) : jsstring :=
  match exec ic re s with
  | Some m => firstn (m_index m) s ++ m_rest m
  | None => s
  end.

(** The texts a pattern can consume, whatever surrounds them; the
    assertions consume nothing. *)
Fixpoint lang (ic : bool) (r : regex) (w : jsstring) : Prop :=
  match r with
  | Str l => Forall2 (fun p x => unitMatch ic p x = true) l w
  | Cls neg items => exists x, w = [x] /\ clsMatch ic neg items x = true
  | Seq r1 r2 => exists w1 w2, w = w1 ++ w2 /\ lang ic r1 w1 /\ lang ic r2 w2
  | Alt r1 r2 => lang ic r1 w \/ lang ic r2 w
  | Star _ r1 => exists ws, w = concat ws /\ Forall (lang ic r1) ws
  | Group r1 => lang ic r1 w
  | Look _ | Bol | Eol => w = []
  end.

(** The capture is a piece of the input. *)
Definition capIn (inp : jsstring) (cap : option jsstring) : Prop :=
  match cap with
  | Some g => includes inp g = true
  | None => True
  end.

End Re.
Import Re.

(** ** Glyph literals

    The two server variants of the repository have the same program text
    and differ in how the bullet and section glyphs of their literals are
    encoded: one holds the glyphs themselves, the other holds each glyph's
    UTF-8 bytes read as Windows-1252 characters.  The program is modelled
    once, over the glyph literals of the variant. *)

Record Glyphs := {
  bullet : jsstring;      (* the bullet marker *)
  cap : jsstring;         (* graduation cap: COURSE INFORMATION *)
  memo : jsstring;        (* memo: TEST DATES / EXAM DATES *)
  clipboard : jsstring;   (* clipboard: ASSIGNMENT DEADLINES *)
  books : jsstring;       (* books: WEEKLY READINGS / SYLLABUS SUMMARY *)
  target : jsstring;      (* dart: MAJOR DELIVERABLES *)
  calendar : jsstring;    (* calendar: IMPORTANT DATES *)
  ruleUnit : jsstring     (* one heavy horizontal bar of the ruler lines *)
}.

(** The variant with intact literals: U+2022, the six emoji as surrogate
    pairs, U+2501. *)
Definition glyphs : Glyphs := {|
  bullet := [8226%N];
  cap := [55356%N; 57235%N];
  memo := [55357%N; 56541%N];
  clipboard := [55357%N; 56523%N];
  books := [55357%N; 56538%N];
  target := [55356%N; 57263%N];
  calendar := [55357%N; 56517%N];
  ruleUnit := [9473%N]
|}.

(** The variant of server.js, whose literals are mis-encoded. *)
Definition glyphs1252 : Glyphs := {|
  bullet := [226%N; 8364%N; 162%N];
  cap := [240%N; 376%N; 381%N; 8220%N];
  memo := [240%N; 376%N; 8220%N];
  clipboard := [240%N; 376%N; 8220%N; 8249%N];
  books := [240%N; 376%N; 8220%N; 353%N];
  target := [240%N; 376%N; 381%N; 175%N];
  calendar := [240%N; 376%N; 8220%N; 8230%N];
  ruleUnit := [226%N; 8221%N]
|}.

(** ** Host objects

    [Date] belongs to the host.  Its reading of a date string that is not
    in the ISO format is implementation-defined, so it is a parameter:
    [dateParse s] is the time value (milliseconds since the epoch, UTC) of
    [new Date(s)], or [None] for an invalid date. *)

Record Host := { dateParse : jsstring -> option Z }.

(** What is thrown: the two built-in errors the program can raise and
    the errors of the database drivers. *)
Inductive error := TypeError | RangeError | DriverError.

Inductive result (A : Type) :=
| Ok (a : A)
| Throw (e : error).
Arguments Ok {A} a.
Arguments Throw {A} e.

Definition bind {A B : Type} (r : result A) (f : A -> result B) : result B :=
  match r with
  | Ok a => f a
  | Throw e => Throw e
  end.

Notation "x <- r ;; k" := (bind r (fun x => k))
  (at level 61, r at next level, right associativity).

Module DateTime.

Local Open Scope Z_scope.

Definition msPerDay : Z := 86400000.

(** Civil date of a day number (days since 1970-01-01), proleptic
    Gregorian calendar. *)
Definition civilFromDays (days : Z) : Z * Z * Z :=
  let z := days + 719468 in
  let era := z / 146097 in
  let doe := z - era * 146097 in
  let yoe := (doe - doe / 1460 + doe / 36524 - doe / 146096) / 365 in
  let doy := doe - (365 * yoe + yoe / 4 - yoe / 100) in
  let mp := (5 * doy + 2) / 153 in
  let d := doy - (153 * mp + 2) / 5 + 1 in
  let m := if mp <? 10 then mp + 3 else mp - 9 in
  let y := yoe + era * 400 in
  (if m <=? 2 then y + 1 else y, m, d).

(** Day number of a civil date. *)
Definition daysFromCivil (y m d : Z) : Z :=
  let y' := if m <=? 2 then y - 1 else y in
  let era := y' / 400 in
  let yoe := y' - era * 400 in
  let mp := if m <=? 2 then m + 9 else m - 3 in
  let doy := (153 * mp + 2) / 5 + d - 1 in
  let doe := yoe * 365 + yoe / 4 - yoe / 100 + doy in
  era * 146097 + doe - 719468.

Definition digitUnit (n : Z) : N := Z.to_N (48 + n mod 10).

(** Decimal digits of [n], padded with zeros to [w] places. *)
Fixpoint pad (w : nat) (n : Z) : jsstring :=
  match w with
  | O => []
  | S w' => pad w' (n / 10) ++ [digitUnit n]
  end.

(** [date.toISOString()] for a time value [tv]:
    YYYY-MM-DDTHH:mm:ss.sssZ, the year with a sign and six digits outside
    0..9999; a RangeError for an invalid date. *)
Definition toISOString (tv : option Z) : result jsstring :=
  match tv with
  | None => Throw RangeError
  | Some t =>
      if (Z.abs t <=? 8640000000000000) then
        let days := t / msPerDay in
        let ms := t mod msPerDay in
        let '(y, m, d) := civilFromDays days in
        let year :=
          if (0 <=? y) && (y <=? 9999) then pad 4 y
          else (if y <? 0 then u16 "-" else u16 "+") ++ pad 6 (Z.abs y) in
        Ok (year ++ u16 "-" ++ pad 2 m ++ u16 "-" ++ pad 2 d ++ u16 "T" ++
            pad 2 (ms / 3600000) ++ u16 ":" ++ pad 2 (ms / 60000 mod 60) ++
            u16 ":" ++ pad 2 (ms / 1000 mod 60) ++ u16 "." ++
            pad 3 (ms mod 1000) ++ u16 "Z")
      else Throw RangeError
  end.

(** The [n] day numbers from [start] on. *)
Fixpoint daysFrom (n : nat) (start : Z) : list Z :=
  match n with
  | O => []
  | S n' => start :: daysFrom n' (start + 1)
  end.

(** Time value of midnight, local time, of a civil date in a zone
    [offset] minutes east of Greenwich. *)
Definition localMidnight (offset : Z) (y m d : Z) : Z :=
  daysFromCivil y m d * msPerDay - offset * 60000.

End DateTime.
Import DateTime.

(** ** The program *)

Definition NL : N := 10%N.

(** The sentinel the model is asked to write for an absent value. *)
Definition placeholder : jsstring := u16 "Not specified in document".

(** The shorter phrase the merger tests field values for and renders for an
    empty field. *)
Definition notSpecified : jsstring := u16 "Not specified".

Inductive atype := Exam | Assignment | Reading | Project | Quiz | Other.

Definition typeName (t : atype) : jsstring :=
  match t with
  | Exam => u16 "exam"
  | Assignment => u16 "assignment"
  | Reading => u16 "reading"
  | Project => u16 "project"
  | Quiz => u16 "quiz"
  | Other => u16 "other"
  end.

(** The object parseAssignmentBullet returns; due_time is always null. *)
Record assignment := {
  title : jsstring;
  due_date : option jsstring;
  due_time : option jsstring;
  type : atype;
  description : jsstring
}.

Record courseData := {
  course_name : jsstring;
  professor_name : jsstring;
  professor_email : jsstring;
  meeting_days : jsstring;
  office_hours : jsstring;
  syllabus_text : jsstring
}.

(** The accumulators of combineAllResults. *)
Record courseInfo := {
  name : jsstring;
  professor : jsstring;
  email : jsstring;
  meetingDays : jsstring;
  officeHours : jsstring
}.

Record merged := {
  info : courseInfo;
  testDates : list jsstring;
  assignmentDeadlines : list jsstring;
  weeklyReadings : list jsstring;
  majorDeliverables : list jsstring;
  importantDates : list jsstring
}.

(** One element of allPageData: [{ pageNumber, data: { plain_text } }]. *)
Record pageData := { plain_text : jsstring }.
Record page := { pageNumber : Z; data : pageData }.

Section Program.

Variable G : Glyphs.

(** The units of the class after the look-ahead's newline, as written. *)
Definition sectionGlyphs : jsstring :=
  cap G ++ memo G ++ clipboard G ++ books G ++ target G ++ calendar G.

(** [(?=\n\s*[glyphs]|$)] *)
Definition sectionEnd : regex :=
  Look (Alt (seqs [Str [NL]; Star true space; oneOf sectionGlyphs]) Eol).

(** [/<bullet>\s*([^\n]+)/g] *)
Definition bulletRe : regex :=
  seqs [Str (bullet G); Star true space; Group (Plus (noneOf [NL]))].

(** [/^<bullet>\s*/] *)
Definition leadingBulletRe : regex :=
  seqs [Bol; Str (bullet G); Star true space].

(** [bullet.replace(/^<bullet>\s*/, '').trim()] *)
Definition cleanBullet (b : jsstring) : jsstring :=
  trim (removeMatch false leadingBulletRe b).

(** *** combineAllResults *)

(** [new RegExp(`${sectionTitle}\\s*\\n([\\s\\S]*?)(?=\\n\\s*[...]|$)`, 'i')];
    the titles at the call sites are letters and blanks, so the
    interpolated title is a literal run. *)
Definition sectionRegex (sectionTitle : jsstring) : regex :=
  seqs [Str sectionTitle; Star true space; Str [NL];
        Group (Star false anyUnit); sectionEnd].

(** The text under the header: match[1] of the section pattern. *)
Definition sectionBlock (content sectionTitle : jsstring) : option jsstring :=
  match exec true (sectionRegex sectionTitle) content with
  | Some m => Some (match m_group m with Some g => g | None => [] end)
  | None => None
  end.

Definition keepBullet (b : jsstring) : bool :=
  truthy b &&
  negb (includes b placeholder) &&
  negb (includes b (u16 "TEST DATES")) &&
  negb (includes b (u16 "ASSIGNMENT DEADLINE")) &&
  Nat.ltb 5 (length b).

Definition extractBulletPoints (content sectionTitle : jsstring)
  : list jsstring :=
  match sectionBlock content sectionTitle with
  | Some sectionContent =>
      filter keepBullet (map cleanBullet (matchAll false bulletRe sectionContent))
  | None => []
  end.

(** [/<label>: ([^\n<bullet>]+)/] *)
Definition infoRegex (label : jsstring) : regex :=
  seqs [Str (label ++ u16 ": "); Group (Plus (noneOf (NL :: bullet G)))].

(** One of the five blocks
    [if (content.includes('<label>:') && !courseInfo.f) {
       const match = content.match(/<label>: ([^\n<bullet>]+)/);
       if (match && !match[1].includes('Not specified')) courseInfo.f = match[1].trim(); }]
    as the new value of the field. *)
Definition pickInfo (label current content : jsstring) : jsstring :=
  if includes content (label ++ u16 ":") && negb (truthy current) then
    match exec false (infoRegex label) content with
    | Some m =>
        match m_group m with
        | Some g => if negb (includes g notSpecified) then trim g else current
        | None => current
        end
    | None => current
    end
  else current.

(** [new.forEach(item => { if (!acc.includes(item)) acc.push(item); })] *)
Definition pushUnique (acc new : list jsstring) : list jsstring :=
  fold_left (fun acc item => if arrIncludes acc item then acc else acc ++ [item])
            new acc.

(** The body of [allPageData.forEach(({ pageNumber, data }) => ...)]. *)
Definition mergePage (acc : merged) (p : page) : merged :=
  let content := plain_text (data p) in
  let ci := info acc in
  {| info := {|
       name := pickInfo (u16 "Course Name") (name ci) content;
       professor := pickInfo (u16 "Professor") (professor ci) content;
       email := pickInfo (u16 "Email") (email ci) content;
       meetingDays := pickInfo (u16 "Meeting Days") (meetingDays ci) content;
       officeHours := pickInfo (u16 "Office Hours") (officeHours ci) content |};
     testDates :=
       pushUnique (testDates acc) (extractBulletPoints content (u16 "TEST DATES"));
     assignmentDeadlines :=
       pushUnique (assignmentDeadlines acc)
                  (extractBulletPoints content (u16 "ASSIGNMENT DEADLINES"));
     weeklyReadings :=
       pushUnique (weeklyReadings acc)
                  (extractBulletPoints content (u16 "WEEKLY READINGS"));
     majorDeliverables :=
       pushUnique (majorDeliverables acc)
                  (extractBulletPoints content (u16 "MAJOR DELIVERABLES"));
     importantDates :=
       pushUnique (importantDates acc)
                  (extractBulletPoints content (u16 "IMPORTANT DATES")) |}.

Definition emptyMerged : merged :=
  {| info := {| name := []; professor := []; email := [];
                meetingDays := []; officeHours := [] |};
     testDates := []; assignmentDeadlines := []; weeklyReadings := [];
     majorDeliverables := []; importantDates := [] |}.

(** The accumulators after the loop over the pages. *)
Definition mergePages (allPageData : list page) : merged :=
  fold_left mergePage allPageData emptyMerged.

(** [items.map(x => `<bullet> ${x}`).join('\n')] *)
Definition bulletLines (items : list jsstring) : jsstring :=
  join [NL] (map (fun x => bullet G ++ u16 " " ++ x) items).

(** [items.length > 0 ? shown.map(...).join('\n')
                      : '<bullet> Not specified in document'] *)
Definition bulletList (items shown : list jsstring) : jsstring :=
  if Nat.ltb 0 (length items) then bulletLines shown
  else bullet G ++ u16 " " ++ placeholder.

(** [[...new Set(items)]] *)
Definition uniq (items : list jsstring) : list jsstring := pushUnique [] items.

Definition ruler : jsstring := concat (repeat (ruleUnit G) 90).

(** The template literal [combinedText]. *)
Definition render (m : merged) : jsstring :=
  let ci := info m in
  [NL] ++ ruler ++ [NL; NL] ++
  books G ++ u16 " SYLLABUS SUMMARY" ++ [NL; NL] ++
  cap G ++ u16 " COURSE INFORMATION" ++ [NL] ++
  bullet G ++ u16 " Course: " ++ orElse (name ci) notSpecified ++ [NL] ++
  bullet G ++ u16 " Professor: " ++ orElse (professor ci) notSpecified ++ [NL] ++
  bullet G ++ u16 " Email: " ++ orElse (email ci) notSpecified ++ [NL] ++
  bullet G ++ u16 " Meeting Days: " ++ orElse (meetingDays ci) notSpecified ++ [NL] ++
  bullet G ++ u16 " Office Hours: " ++ orElse (officeHours ci) notSpecified ++ [NL; NL] ++
  memo G ++ u16 " EXAM DATES" ++ [NL] ++
  bulletList (testDates m) (testDates m) ++ [NL; NL] ++
  clipboard G ++ u16 " ASSIGNMENT DEADLINES" ++ [NL] ++
  bulletList (assignmentDeadlines m) (assignmentDeadlines m) ++ [NL; NL] ++
  calendar G ++ u16 " IMPORTANT DATES" ++ [NL] ++
  bulletList (importantDates m) (uniq (importantDates m)) ++ [NL; NL] ++
  ruler ++ [NL].

Definition combineAllResults (allPageData : list page) : pageData :=
  {| plain_text := render (mergePages allPageData) |}.

(** The legacy two-page entry point. *)
Definition combineResults (page1Data page3Data : pageData) : pageData :=
  combineAllResults [ {| pageNumber := 1; data := page1Data |};
                      {| pageNumber := 3; data := page3Data |} ].

(** *** extractField *)

(** The tail every pattern of extractField shares.  The patterns are
    built from template literals, in which [\s] is the letter s and [\n]
    a newline: [<fieldName>[:s]*([^\n<bullet>]+)]. *)
Definition fieldTail (fieldName : jsstring) : list regex :=
  [Str fieldName; Star true (oneOf (u16 ":s"));
   Group (Plus (noneOf (NL :: bullet G)))].

Definition fieldPatterns (fieldName : jsstring) : list regex :=
  [ seqs (fieldTail fieldName);
    seqs (Str (books G) :: Star true space :: fieldTail fieldName);
    seqs (Str (cap G) :: Star true space :: fieldTail fieldName) ].

Fixpoint firstField (patterns : list regex) (text : jsstring)
  : option jsstring :=
  match patterns with
  | [] => None
  | pattern :: rest =>
      match exec true pattern text with
      | Some m =>
          match m_group m with
          | Some g =>
              if truthy g
              then Some (removeMatch false leadingBulletRe (trim g))
              else firstField rest text
          | None => firstField rest text
          end
      | None => firstField rest text
      end
  end.

(** extractField on a string; [None] is null. *)
Definition extractField (text fieldName : jsstring) : option jsstring :=
  firstField (fieldPatterns fieldName) text.

(** *** parseAssignmentBullet *)

Variable H : Host.

(** [/(\w+\s+\d{1,2},?\s+\d{4})/i], "March 15, 2024" *)
Definition monthDayYear : regex :=
  Group (seqs [Plus word; Plus space; digit; Opt digit; Opt (Str (u16 ","));
               Plus space; digit; digit; digit; digit]).

(** [/(\d{1,2}\/\d{1,2}\/\d{4})/], "3/15/2024" *)
Definition slashed : regex :=
  Group (seqs [digit; Opt digit; Str (u16 "/"); digit; Opt digit;
               Str (u16 "/"); digit; digit; digit; digit]).

(** [/(\d{1,2}-\d{1,2}-\d{4})/], "3-15-2024" *)
Definition dashed : regex :=
  Group (seqs [digit; Opt digit; Str (u16 "-"); digit; Opt digit;
               Str (u16 "-"); digit; digit; digit; digit]).

(** [/(\w+\s+\d{1,2})/i], "March 15" *)
Definition monthDay : regex :=
  Group (seqs [Plus word; Plus space; digit; Opt digit]).

(** The date patterns with their flags, in the order of the array. *)
Definition datePatterns : list (bool * regex) :=
  [(true, monthDayYear); (false, slashed); (false, dashed); (true, monthDay)].

(** [s.replace(/[:-]/g, '')] *)
Definition dropColonsHyphens (s : jsstring) : jsstring :=
  filter (fun c => negb ((c =? 58) || (c =? 45))%N) s.

(** The loop over the patterns: the state (dueDate, title) it leaves.
    A pattern whose match the host cannot read as a date makes
    toISOString throw; the catch block goes on to the next pattern. *)
Fixpoint scanDates (patterns : list (bool * regex)) (bullet : jsstring)
  : option jsstring * jsstring :=
  match patterns with
  | [] => (None, bullet)
  | (ic, pattern) :: rest =>
      match exec ic pattern bullet with
      | Some m =>
          let m1 := match m_group m with Some g => g | None => [] end in
          match toISOString (dateParse H m1) with
          | Ok iso =>
              (Some (beforeFirst 84%N iso),
               trim (dropColonsHyphens (removeFirst m1 bullet)))
          | Throw _ => scanDates rest bullet
          end
      | None => scanDates rest bullet
      end
  end.

Definition has (s : jsstring) (keyword : string) : bool :=
  includes (toLowerCase s) (u16 keyword).

Definition classify (bullet section : jsstring) : atype :=
  if has section "test" || has section "exam" ||
     has bullet "exam" || has bullet "test" then Exam
  else if has bullet "assignment" || has bullet "homework" then Assignment
  else if has bullet "reading" then Reading
  else if has bullet "project" then Project
  else if has bullet "quiz" then Quiz
  else Other.

Definition parseAssignmentBullet (bullet section : jsstring) : assignment :=
  let '(dueDate, title) := scanDates datePatterns bullet in
  {| title := orElse title bullet;
     due_date := dueDate;
     due_time := None;
     type := classify bullet section;
     description := bullet |}.

(** *** extractAssignments *)

Definition sections : list jsstring :=
  [u16 "TEST DATES"; u16 "ASSIGNMENT DEADLINE"; u16 "Important Dates";
   u16 "EXAMS"; u16 "ASSIGNMENTS"].

(** [new RegExp(`${section}[\\s\\S]*?(?=\\n\\s*[...]|$)`, 'i')] *)
Definition assignmentSectionRegex (section : jsstring) : regex :=
  seqs [Str section; Star false anyUnit; sectionEnd].

Definition sectionAssignments (text section : jsstring) : list assignment :=
  match exec true (assignmentSectionRegex section) text with
  | Some m =>
      map (fun b => parseAssignmentBullet b section)
          (filter (fun b => truthy b && negb (includes b placeholder))
                  (map cleanBullet (matchAll false bulletRe (m_all m))))
  | None => []
  end.

Definition extractAssignments (text : jsstring) : list assignment :=
  flat_map (sectionAssignments text) sections.

(** *** parseSyllabusData (the text version of the servers) *)

(** [extractField(...) || fallback] *)
Definition fieldOr (v : option jsstring) (fallback : jsstring) : jsstring :=
  match v with
  | Some s => orElse s fallback
  | None => fallback
  end.

Definition parseSyllabusData (aiResponse : jsstring)
  : courseData * list assignment :=
  ({| course_name := fieldOr (extractField aiResponse (u16 "Course Name"))
                             (u16 "Unknown Course");
      professor_name := fieldOr (extractField aiResponse (u16 "Professor Name"))
                                (u16 "Unknown Professor");
      professor_email := fieldOr (extractField aiResponse (u16 "Professor Email")) [];
      meeting_days := fieldOr (extractField aiResponse (u16 "Meeting Days")) [];
      office_hours := fieldOr (extractField aiResponse (u16 "Office Hours")) [];
      syllabus_text := aiResponse |},
   extractAssignments aiResponse).

End Program.

(** ** Dynamic receivers

    The functions above are written for strings, but the route handlers
    pass them whatever the analysis returned.  Values are those a JSON
    text or an object literal of the source can denote. *)

Module Dyn.

#[local] Unset Elimination Schemes.
Inductive value :=
| VUndefined
| VNull
| VBool (b : bool)
| VNum (z : Z)
| VStr (s : jsstring)
| VArr (items : list value)
| VObj (fields : list (jsstring * value)).
#[local] Set Elimination Schemes.

Fixpoint lookup (key : jsstring) (fields : list (jsstring * value)) : value :=
  match fields with
  | [] => VUndefined
  | (k, v) :: rest => if str_eqb k key then v else lookup key rest
  end.

(** [v.key] for a key that is no built-in property of strings, numbers,
    booleans or arrays. *)
Definition getProp (v : value) (key : string) : result value :=
  match v with
  | VUndefined | VNull => Throw TypeError
  | VObj fields => Ok (lookup (u16 key) fields)
  | _ => Ok VUndefined
  end.

Definition truthyV (v : value) : bool :=
  match v with
  | VUndefined | VNull => false
  | VBool b => b
  | VNum z => negb (Z.eqb z 0)
  | VStr s => truthy s
  | VArr _ | VObj _ => true
  end.

(** [a || b] *)
Definition orV (a b : value) : value := if truthyV a then a else b.

(** [text.match(pattern)]: only a string has a match method; a data
    property named match is not callable either. *)
Definition matchMethod (text : value) (ic : bool) (pattern : regex)
  : result (option mres) :=
  match text with
  | VStr s => Ok (exec ic pattern s)
  | _ => Throw TypeError
  end.

Record courseDataV := {
  course_nameV : jsstring;
  professor_nameV : jsstring;
  professor_emailV : jsstring;
  meeting_daysV : jsstring;
  office_hoursV : jsstring;
  syllabus_textV : value
}.

Section Receivers.

Variable G : Glyphs.
Variable H : Host.

Fixpoint firstFieldV (patterns : list regex) (text : value)
  : result (option jsstring) :=
  match patterns with
  | [] => Ok None
  | pattern :: rest =>
      m <- matchMethod text true pattern ;;
      match m with
      | Some m' =>
          match m_group m' with
          | Some g =>
              if truthy g
              then Ok (Some (removeMatch false (leadingBulletRe G) (trim g)))
              else firstFieldV rest text
          | None => firstFieldV rest text
          end
      | None => firstFieldV rest text
      end
  end.

(** extractField applied to any value. *)
Definition extractFieldV (text : value) (fieldName : jsstring)
  : result (option jsstring) :=
  firstFieldV (fieldPatterns G fieldName) text.

Fixpoint sectionsV (secs : list jsstring) (text : value)
  : result (list assignment) :=
  match secs with
  | [] => Ok []
  | section :: rest =>
      m <- matchMethod text true (assignmentSectionRegex G section) ;;
      let found :=
        match m with
        | Some m' =>
            map (fun b => parseAssignmentBullet H b section)
                (filter (fun b => truthy b && negb (includes b placeholder))
                        (map (cleanBullet G)
                             (matchAll false (bulletRe G) (m_all m'))))
        | None => []
        end in
      more <- sectionsV rest text ;;
      Ok (found ++ more)
  end.

(** extractAssignments applied to any value. *)
Definition extractAssignmentsV (text : value) : result (list assignment) :=
  sectionsV sections text.

(** parseSyllabusData (text version) applied to any value; the
    properties of the object literal are evaluated in order. *)
Definition parseSyllabusDataV (aiResponse : value)
  : result (courseDataV * list assignment) :=
  cn <- extractFieldV aiResponse (u16 "Course Name") ;;
  pn <- extractFieldV aiResponse (u16 "Professor Name") ;;
  pe <- extractFieldV aiResponse (u16 "Professor Email") ;;
  md <- extractFieldV aiResponse (u16 "Meeting Days") ;;
  oh <- extractFieldV aiResponse (u16 "Office Hours") ;;
  assignments <- extractAssignmentsV aiResponse ;;
  Ok ({| course_nameV := fieldOr cn (u16 "Unknown Course");
         professor_nameV := fieldOr pn (u16 "Unknown Professor");
         professor_emailV := fieldOr pe [];
         meeting_daysV := fieldOr md [];
         office_hoursV := fieldOr oh [];
         syllabus_textV := aiResponse |},
      assignments).

(** What analyzePageWithOpenAI returns: [{ plain_text: content }]. *)
Definition pageObject (content : jsstring) : value :=
  VObj [(u16 "plain_text", VStr content)].

(** The object returned when the response is not valid JSON:
    [{ plain_text: content, error: '...', raw_response: content }]. *)
Definition fallbackObject (content : jsstring) : value :=
  VObj [(u16 "plain_text", VStr content);
        (u16 "error", VStr (u16 "Failed to parse structured data"));
        (u16 "raw_response", VStr content)].

(** The route of server.js: [parseSyllabusData(aiResponse)]. *)
Definition scanRoute (aiResponse : value)
  : result (courseDataV * list assignment) :=
  parseSyllabusDataV aiResponse.

(** The route of the other server variant:
    [parseSyllabusData(aiResponse.plain_text || aiResponse)]. *)
Definition scanRouteText (aiResponse : value)
  : result (courseDataV * list assignment) :=
  text <- getProp aiResponse "plain_text" ;;
  parseSyllabusDataV (orV text aiResponse).

End Receivers.

(** The worker's variant, whose analysis parses the model's response as
    JSON: parseSyllabusData reads the properties of the parsed value.
    JSON.stringify belongs to the host and is a parameter. *)
Module Worker.

Record courseData := {
  course_name : value;
  professor_name : value;
  professor_email : value;
  meeting_days : value;
  office_hours : value;
  syllabus_text : value
}.

Definition parseSyllabusData (stringify : value -> value) (aiResponse : value)
  : result (courseData * list value) :=
  cn <- getProp aiResponse "course_name" ;;
  pn <- getProp aiResponse "professor_name" ;;
  pe <- getProp aiResponse "professor_email" ;;
  md <- getProp aiResponse "meeting_days" ;;
  oh <- getProp aiResponse "office_hours" ;;
  pt <- getProp aiResponse "plain_text" ;;
  assignments <- getProp aiResponse "assignments" ;;
  Ok ({| course_name := orV cn (VStr (u16 "Unknown Course"));
         professor_name := orV pn (VStr (u16 "Unknown Professor"));
         professor_email := orV pe VNull;
         meeting_days := orV md VNull;
         office_hours := orV oh VNull;
         syllabus_text := orV pt (stringify aiResponse) |},
      match assignments with
      | VArr items => items
      | _ => []
      end).

End Worker.

End Dyn.
Import Dyn.

(** ** Batch persistence *)

Module Store.

Section Batch.

(** The connection state, the row ids and the elements of the batch. *)
Variables (DB Id A : Type).

(** Whether the properties of an element can be read: true of every
    object, false of null and undefined. *)
Variable readable : A -> bool.

(** The INSERT statement of saveAssignment run on the connection
    ([connection.execute] for MySQL, [db.run] for SQLite): the new state
    and either the id of the new row or the driver's error. *)
Variable insert : DB -> Z -> A -> DB * result Id.

(** saveAssignment.  The parameters of the statement are read from
    [assignmentData] first: for null or undefined that throws a TypeError
    and no statement is run.  Otherwise the id, or the driver's error
    logged and thrown again. *)
Definition saveAssignment (db : DB) (courseId : Z) (assignmentData : A)
  : DB * result Id :=
  if readable assignmentData then
    match insert db courseId assignmentData with
    | (db', Ok insertId) => (db', Ok insertId)
    | (db', Throw error) => (db', Throw error)
    end
  else (db, Throw TypeError).

(** The loop [for (const assignment of assignments) { try { ... push }
    catch { log } }] from the state [db] with [savedAssignments] so far.
    The catch block reads [assignment.title] for its log line; for an
    element null or undefined that throws in its turn, outside any try,
    and the batch ends with the TypeError. *)
Fixpoint saveLoop (db : DB) (courseId : Z) (assignments : list A)
         (savedAssignments : list Id) : DB * result (list Id) :=
  match assignments with
  | [] => (db, Ok savedAssignments)
  | assignment :: rest =>
      match saveAssignment db courseId assignment with
      | (db', Ok assignmentId) =>
          saveLoop db' courseId rest (savedAssignments ++ [assignmentId])
      | (db', Throw _) =>
          if readable assignment
          then saveLoop db' courseId rest savedAssignments
          else (db', Throw TypeError)
      end
  end.

Definition saveMultipleAssignments (db : DB) (courseId : Z)
           (assignments : list A) : DB * result (list Id) :=
  saveLoop db courseId assignments [].

(** The outcome of each INSERT when the statements of the assignments are
    run one after the other, each on the state the previous one left. *)
Fixpoint outcomes (db : DB) (courseId : Z) (assignments : list A)
  : list (result Id) :=
  match assignments with
  | [] => []
  | a :: rest =>
      let '(db', r) := insert db courseId a in
      r :: outcomes db' courseId rest
  end.

Definition okIds (rs : list (result Id)) : list Id :=
  flat_map (fun r => match r with Ok i => [i] | Throw _ => [] end) rs.

(** The state after every INSERT of the batch has been run. *)
Definition afterAll (db : DB) (courseId : Z) (assignments : list A) : DB :=
  fold_left (fun d a => fst (insert d courseId a)) assignments db.

End Batch.

(** The records parseAssignmentBullet builds are objects. *)
Definition isRecord (a : assignment) : bool := true.

(** A store for the examples: ids count up from the number of rows, and,
    as MySQL in strict mode does for its VARCHAR(500) column, a title of
    more than 500 units is refused. *)
Definition table := list (Z * Z * assignment).

Definition strictInsert (db : table) (courseId : Z) (a : assignment)
  : table * result Z :=
  if Nat.ltb 500 (length (title a)) then (db, Throw DriverError)
  else
    let id := Z.of_nat (S (length db)) in
    (db ++ [(id, courseId, a)], Ok id).

End Store.

(** ** A host for the examples

    A [Date] constructor that reads the two date forms of the
    specification's examples, "Month D, YYYY" and "M/D/YYYY", and, as every
    engine does for a string that is not in the ISO format, takes them as
    midnight local time.  The month is recognised by its first three
    letters.  [offset] is the local zone in minutes east of Greenwich. *)

Module SampleHost.

Local Open Scope Z_scope.

Fixpoint takeWhile (p : N -> bool) (s : jsstring) : jsstring :=
  match s with
  | [] => []
  | c :: s' => if p c then c :: takeWhile p s' else []
  end.

Definition isLetter (c : N) : bool := isUpperAscii c || isLowerAscii c.

Definition months : list (jsstring * Z) :=
  [(u16 "jan", 1); (u16 "feb", 2); (u16 "mar", 3); (u16 "apr", 4);
   (u16 "may", 5); (u16 "jun", 6); (u16 "jul", 7); (u16 "aug", 8);
   (u16 "sep", 9); (u16 "oct", 10); (u16 "nov", 11); (u16 "dec", 12)].

Definition monthOf (w : jsstring) : option Z :=
  match find (fun e => str_eqb (fst e) (firstn 3 (toLowerCase w))) months with
  | Some e => Some (snd e)
  | None => None
  end.

Definition number (s : jsstring) : Z :=
  fold_left (fun acc c => acc * 10 + (Z.of_N c - 48)) s 0.

Definition inDay (d : Z) : bool := (1 <=? d) && (d <=? 31).

(** "Month D, YYYY" *)
Definition readNamed (s : jsstring) : option (Z * Z * Z) :=
  let w := takeWhile isLetter s in
  let s1 := dropWhile isSpace (dropWhile isLetter s) in
  let d := takeWhile isDigit s1 in
  let s2 := dropWhile (fun c => isSpace c || (c =? 44)%N) (dropWhile isDigit s1) in
  let y := takeWhile isDigit s2 in
  match monthOf w, d, dropWhile isDigit s2 with
  | Some m, _ :: _, [] =>
      if Nat.eqb (length y) 4 && inDay (number d)
      then Some (number y, m, number d) else None
  | _, _, _ => None
  end.

(** "M/D/YYYY" *)
Definition readSlashed (s : jsstring) : option (Z * Z * Z) :=
  let m := takeWhile isDigit s in
  match dropWhile isDigit s with
  | 47%N :: s1 =>
      let d := takeWhile isDigit s1 in
      match dropWhile isDigit s1 with
      | 47%N :: s2 =>
          let y := takeWhile isDigit s2 in
          match m, d, dropWhile isDigit s2 with
          | _ :: _, _ :: _, [] =>
              if Nat.eqb (length y) 4 && inDay (number d) &&
                 (1 <=? number m) && (number m <=? 12)
              then Some (number y, number m, number d) else None
          | _, _, _ => None
          end
      | _ => None
      end
  | _ => None
  end.

Definition readLocal (s : jsstring) : option (Z * Z * Z) :=
  match readNamed s with
  | Some c => Some c
  | None => readSlashed s
  end.

Definition hostAt (offset : Z) : Host :=
  {| dateParse := fun s =>
       match readLocal s with
       | Some (y, m, d) => Some (localMidnight offset y m d)
       | None => None
       end |}.

End SampleHost.
Import SampleHost.

(** ** The vocabulary of the specification *)

(** The five scalar fields of the course information, with the label the
    merger looks for and the label the summary template prints. *)
Inductive field := FName | FProfessor | FEmail | FMeetingDays | FOfficeHours.

Definition getField (f : field) (ci : courseInfo) : jsstring :=
  match f with
  | FName => name ci
  | FProfessor => professor ci
  | FEmail => email ci
  | FMeetingDays => meetingDays ci
  | FOfficeHours => officeHours ci
  end.

Definition mergeLabel (f : field) : jsstring :=
  match f with
  | FName => u16 "Course Name"
  | FProfessor => u16 "Professor"
  | FEmail => u16 "Email"
  | FMeetingDays => u16 "Meeting Days"
  | FOfficeHours => u16 "Office Hours"
  end.

Definition templateLabel (f : field) : jsstring :=
  match f with
  | FName => u16 "Course"
  | FProfessor => u16 "Professor"
  | FEmail => u16 "Email"
  | FMeetingDays => u16 "Meeting Days"
  | FOfficeHours => u16 "Office Hours"
  end.

(** The label parseSyllabusData hands to extractField for the field. *)
Definition parseLabel (f : field) : jsstring :=
  match f with
  | FName => u16 "Course Name"
  | FProfessor => u16 "Professor Name"
  | FEmail => u16 "Professor Email"
  | FMeetingDays => u16 "Meeting Days"
  | FOfficeHours => u16 "Office Hours"
  end.

(** The five list categories, with the section title the merger extracts
    them from. *)
Inductive category :=
| CTestDates | CAssignmentDeadlines | CWeeklyReadings | CMajorDeliverables
| CImportantDates.

Definition getList (c : category) (m : merged) : list jsstring :=
  match c with
  | CTestDates => testDates m
  | CAssignmentDeadlines => assignmentDeadlines m
  | CWeeklyReadings => weeklyReadings m
  | CMajorDeliverables => majorDeliverables m
  | CImportantDates => importantDates m
  end.

Definition sectionTitle (c : category) : jsstring :=
  match c with
  | CTestDates => u16 "TEST DATES"
  | CAssignmentDeadlines => u16 "ASSIGNMENT DEADLINES"
  | CWeeklyReadings => u16 "WEEKLY READINGS"
  | CMajorDeliverables => u16 "MAJOR DELIVERABLES"
  | CImportantDates => u16 "IMPORTANT DATES"
  end.

(** The heading line of the three categories the template prints. *)
Definition heading (G : Glyphs) (c : category) : option jsstring :=
  match c with
  | CTestDates => Some (memo G ++ u16 " EXAM DATES")
  | CAssignmentDeadlines => Some (clipboard G ++ u16 " ASSIGNMENT DEADLINES")
  | CImportantDates => Some (calendar G ++ u16 " IMPORTANT DATES")
  | CWeeklyReadings | CMajorDeliverables => None
  end.

Definition texts (pages : list page) : list jsstring :=
  map (fun p => plain_text (data p)) pages.

(** The value a page offers for a field: the trimmed capture of the
    field's pattern, and nothing when the capture contains [marker]. *)
Definition offered (G : Glyphs) (marker label content : jsstring) : jsstring :=
  match exec false (infoRegex G label) content with
  | Some m =>
      match m_group m with
      | Some g => if includes g marker then [] else trim g
      | None => []
      end
  | None => []
  end.

(** First-wins: the first non-empty offer, in the order of the list. *)
Definition firstOffer (G : Glyphs) (marker label : jsstring)
           (contents : list jsstring) : jsstring :=
  match find truthy (map (offered G marker label) contents) with
  | Some v => v
  | None => []
  end.

(** The statement "each field is set from the first page that yields a
    non-empty value not containing [marker]". *)
Definition firstWins (G : Glyphs) (marker : jsstring) (pages : list page) : Prop :=
  forall f, getField f (info (mergePages G pages)) =
            firstOffer G marker (mergeLabel f) (texts pages).

(** Union without duplicates in the order of first appearance. *)
Fixpoint firstOccurrences (l : list jsstring) : list jsstring :=
  match l with
  | [] => []
  | x :: l' => x :: filter (fun y => negb (str_eqb x y)) (firstOccurrences l')
  end.

(** The classification rules in the order of the specification: the
    keywords, whether the section name is searched as well, the type. *)
Definition rules : list (list string * bool * atype) :=
  [ (["test"; "exam"]%string, true, Exam);
    (["assignment"; "homework"]%string, false, Assignment);
    (["reading"]%string, false, Reading);
    (["project"]%string, false, Project);
    (["quiz"]%string, false, Quiz) ].

Definition ruleApplies (bullet section : jsstring)
           (r : list string * bool * atype) : bool :=
  let '(keywords, sectionToo, _) := r in
  existsb (fun k => has bullet k || (sectionToo && has section k)) keywords.

(** First match wins; "other" when no rule applies. *)
Definition classifyByRules (bullet section : jsstring) : atype :=
  match find (ruleApplies bullet section) rules with
  | Some (_, _, t) => t
  | None => Other
  end.

(** The bullet lines of a block, cleaned: marker stripped, trimmed. *)
Definition bulletEntries (G : Glyphs) (block : jsstring) : list jsstring :=
  map (cleanBullet G) (matchAll false (bulletRe G) block).

(** What the filter lets through, in the words of the specification with
    the header texts the filter names: at least six units, no placeholder
    sentinel, neither "TEST DATES" nor "ASSIGNMENT DEADLINE". *)
Definition survives (e : jsstring) : bool :=
  Nat.leb 6 (length e) &&
  negb (includes e placeholder) &&
  negb (includes e (u16 "TEST DATES")) &&
  negb (includes e (u16 "ASSIGNMENT DEADLINE")).

(** The calendar day YYYY-MM-DD of a civil date with a year in 0..9999. *)
Definition isoDay (c : Z * Z * Z) : jsstring :=
  let '(y, m, d) := c in
  pad 4 y ++ u16 "-" ++ pad 2 m ++ u16 "-" ++ pad 2 d.

(** [m] with other weekly readings and major deliverables. *)
Definition withUnprinted (m : merged) (readings deliverables : list jsstring)
  : merged :=
  {| info := info m;
     testDates := testDates m;
     assignmentDeadlines := assignmentDeadlines m;
     weeklyReadings := readings;
     majorDeliverables := deliverables;
     importantDates := importantDates m |}.

(** [m] with the field [f] set to [v]. *)
Definition setField (f : field) (v : jsstring) (m : merged) : merged :=
  let ci := info m in
  {| info := {| name := match f with FName => v | _ => name ci end;
                professor := match f with FProfessor => v | _ => professor ci end;
                email := match f with FEmail => v | _ => email ci end;
                meetingDays := match f with FMeetingDays => v | _ => meetingDays ci end;
                officeHours := match f with FOfficeHours => v | _ => officeHours ci end |};
     testDates := testDates m;
     assignmentDeadlines := assignmentDeadlines m;
     weeklyReadings := weeklyReadings m;
     majorDeliverables := majorDeliverables m;
     importantDates := importantDates m |}.

(** [m] with the list of the category [c] set to [l]. *)
Definition setList (c : category) (l : list jsstring) (m : merged) : merged :=
  {| info := info m;
     testDates := match c with CTestDates => l | _ => testDates m end;
     assignmentDeadlines :=
       match c with CAssignmentDeadlines => l | _ => assignmentDeadlines m end;
     weeklyReadings := match c with CWeeklyReadings => l | _ => weeklyReadings m end;
     majorDeliverables :=
       match c with CMajorDeliverables => l | _ => majorDeliverables m end;
     importantDates := match c with CImportantDates => l | _ => importantDates m end |}.

(** The line the template prints for an empty field. *)
Definition emptyFieldLine (G : Glyphs) (f : field) : jsstring :=
  bullet G ++ u16 " " ++ templateLabel f ++ u16 ": " ++ notSpecified ++ [NL].

(** The line an empty field would have if it were filled with the
    placeholder sentinel. *)
Definition sentinelFieldLine (G : Glyphs) (f : field) : jsstring :=
  bullet G ++ u16 " " ++ templateLabel f ++ u16 ": " ++ placeholder.

(** The heading and the single bullet the template prints for an empty
    list. *)
Definition emptyListLines (G : Glyphs) (h : jsstring) : jsstring :=
  h ++ [NL] ++ bullet G ++ u16 " " ++ placeholder ++ [NL].

(** ** Inputs of the examples *)

Definition mkPage (n : Z) (text : jsstring) : page :=
  {| pageNumber := n; data := {| plain_text := text |} |}.

(** A line [<bullet> text]. *)
Definition item (G : Glyphs) (text : string) : jsstring :=
  bullet G ++ u16 " " ++ u16 text.

Definition lines (l : list jsstring) : jsstring := join [NL] l.

(** Two pages that name different professors. *)
Definition pagesAB (G : Glyphs) : list page :=
  [ mkPage 1 (lines [cap G ++ u16 " COURSE INFORMATION"; item G "Professor: Dr. A"]);
    mkPage 2 (lines [cap G ++ u16 " COURSE INFORMATION"; item G "Professor: Dr. B"]) ].

(** A first page whose professor line holds the short phrase only. *)
Definition pagesUnspecified (G : Glyphs) : list page :=
  [ mkPage 1 (lines [cap G ++ u16 " COURSE INFORMATION";
                     item G "Professor: Not specified"]);
    mkPage 2 (lines [cap G ++ u16 " COURSE INFORMATION"; item G "Professor: Dr. B"]) ].

(** Pages whose TEST DATES sections list "Oct 1", then "Oct 1" and "Oct 15". *)
Definition pagesOct (G : Glyphs) : list page :=
  [ mkPage 1 (lines [memo G ++ u16 " TEST DATES"; item G "Oct 1"]);
    mkPage 2 (lines [memo G ++ u16 " TEST DATES"; item G "Oct 1"; item G "Oct 15"]) ].

(** The same with entries of six units and more. *)
Definition pagesOctober (G : Glyphs) : list page :=
  [ mkPage 1 (lines [memo G ++ u16 " TEST DATES"; item G "Oct 01"]);
    mkPage 2 (lines [memo G ++ u16 " TEST DATES"; item G "Oct 01"; item G "Oct 15"]) ].

(** A section whose only bullet repeats its header. *)
Definition echoedHeader (G : Glyphs) : jsstring :=
  lines [calendar G ++ u16 " IMPORTANT DATES"; item G "IMPORTANT DATES"].

(** One page with a course name and an exam date. *)
Definition pageCS101 (G : Glyphs) : list page :=
  [ mkPage 1 (lines [cap G ++ u16 " COURSE INFORMATION";
                     item G "Course Name: CS101";
                     item G "Professor: Dr. A";
                     item G "Email: a@example.edu";
                     [];
                     memo G ++ u16 " TEST DATES";
                     item G "Midterm Oct 15"]) ].

(** What the round trip gives for the page [pageCS101]: the merged
    summary holds the course name, the professor, the e-mail address and
    the exam date, and the extractors find none of them in the rendered
    text. *)
Definition summaryNotReadBack (G : Glyphs) : Prop :=
  let m := mergePages G (pageCS101 G) in
  let text := render G m in
  name (info m) = u16 "CS101" /\
  professor (info m) = u16 "Dr. A" /\
  email (info m) = u16 "a@example.edu" /\
  testDates m = [u16 "Midterm Oct 15"] /\
  extractField G text (parseLabel FName) = None /\
  extractField G text (parseLabel FProfessor) = None /\
  extractField G text (parseLabel FEmail) = None /\
  extractBulletPoints G text (sectionTitle CTestDates) = [] /\
  course_name (fst (parseSyllabusData G (hostAt 0) text)) = u16 "Unknown Course" /\
  snd (parseSyllabusData G (hostAt 0) text) = [].

Definition midtermLine : jsstring :=
  u16 "Midterm March 15, 2024 (reschedule 3/20/2024)".

(** Three assignments, the second with a title of 501 units. *)
Definition hw (t : jsstring) : assignment :=
  {| title := t; due_date := None; due_time := None; type := Assignment;
     description := t |}.

Definition batch : list assignment :=
  [hw (u16 "HW1"); hw (repeat 120%N 501); hw (u16 "HW3")].

(** A TEST DATES section with an entry of six units and one of five. *)
Definition sixAndFive (G : Glyphs) : jsstring :=
  lines [memo G ++ u16 " TEST DATES"; item G "Oct 15"; item G "Oct 1"].

(** What the value pattern [([^\n<bullet>]+)] of extractField and of the
    course-information blocks can capture: a non-empty run without a
    newline and without any unit of the bullet marker. *)
Definition fieldValue (G : Glyphs) (g : jsstring) : Prop :=
  g <> [] /\ forall c, In c g -> c <> NL /\ ~ In c (bullet G).

(** The units of a date as toISOString writes it: digits, the hyphen
    and the plus sign. *)
Definition dateUnit (c : N) : bool :=
  isDigit c || (c =? 45)%N || (c =? 43)%N.

(** The value parseSyllabusData of the servers gives for a field, and the
    value it falls back to: a default name for the course and the
    professor, the empty string ([|| '']) for the e-mail address, the
    meeting days and the office hours. *)
Definition parsedField (f : field) (c : courseData) : jsstring :=
  match f with
  | FName => course_name c
  | FProfessor => professor_name c
  | FEmail => professor_email c
  | FMeetingDays => meeting_days c
  | FOfficeHours => office_hours c
  end.

Definition unknown (f : field) : jsstring :=
  match f with
  | FName => u16 "Unknown Course"
  | FProfessor => u16 "Unknown Professor"
  | FEmail | FMeetingDays | FOfficeHours => []
  end.

(** A summary with an exam section and an assignment section. *)
Definition sampleSummary (G : Glyphs) : jsstring :=
  lines [memo G ++ u16 " TEST DATES";
         item G "Midterm March 15, 2024";
         item G "Final Exam";
         [];
         clipboard G ++ u16 " ASSIGNMENT DEADLINES";
         item G "Homework 1 due 9/12/2024";
         item G "Not specified in document"].

(** ** Analysis of a converted PDF

    The server variant that converts a PDF into one image per page sends
    only some of the pages to the model and merges what comes back. *)

(** [for (let i = from; i < n; i++) {
       if (!keyPages.includes(i)) keyPages.push(i); }] *)
Definition pushFrom (keyPages : list nat) (from n : nat) : list nat :=
  fold_left (fun kp i => if existsb (Nat.eqb i) kp then kp else kp ++ [i])
            (seq from (n - from)) keyPages.

(** The indices of the page images that are analysed, for [n] images:
    [keyPages.push(0); if (n > 1) keyPages.push(1);
     if (n > 2) for (let i = Math.max(2, n - 2); i < n; i++) ...]. *)
Definition keyPages (n : nat) : list nat :=
  let keyPages := [0] in
  let keyPages := if Nat.ltb 1 n then keyPages ++ [1] else keyPages in
  if Nat.ltb 2 n then pushFrom keyPages (Nat.max 2 (n - 2)) n else keyPages.

(** [Promise.all]: the values in the order of the promises, or a
    rejection when one of them rejects. *)
Fixpoint promiseAll (A : Type) (l : list (option A)) : option (list A) :=
  match l with
  | [] => Some []
  | None :: _ => None
  | Some a :: l' =>
      match promiseAll l' with
      | Some r => Some (a :: r)
      | None => None
      end
  end.

Section Analysis.

Variable G : Glyphs.

(** The page images and analyzePageWithOpenAI on an image: the object
    [{ plain_text }] made of the model's answer, or [None] when the call
    throws. *)
Variable File : Type.
Variable analyzePageWithOpenAI : File -> option pageData.

(** The callback of [keyPages.map]: [{ pageNumber: i + 1, data }] for the
    image [files[i]]. *)
Definition analyzeKeyPage (files : list File) (i : nat) : option page :=
  match nth_error files i with
  | Some file =>
      match analyzePageWithOpenAI file with
      | Some pageData => Some {| pageNumber := Z.of_nat i + 1; data := pageData |}
      | None => None
      end
  | None => None
  end.

(** analyzeSyllabusWithOpenAI from the point where the PDF has been
    converted into the images [files]: several images are analysed page
    by page and combined, a single one is analysed as it is.  Whatever is
    thrown on the way is replaced by the error of the outer handler;
    [None] stands for it. *)
Definition analyzePages (files : list File) : option pageData :=
  if Nat.ltb 1 (length files) then
    match promiseAll (map (analyzeKeyPage files) (keyPages (length files))) with
    | Some allPageData => Some (combineAllResults G allPageData)
    | None => None
    end
  else
    match files with
    | file :: _ => analyzePageWithOpenAI file
    | [] => None
    end.

End Analysis.

(** ** Saving a course *)

Definition anonymous : jsstring := u16 "anonymous".

Section Course.

Variables (DB C : Type).

(** The INSERT statement of saveCourse run on the connection with the
    user id and the six columns read from [courseData]. *)
Variable insertCourse : DB -> jsstring -> C -> DB * result Z.

(** saveCourse; [user_id] is the property of that name of [courseData],
    [None] when it has none.  The row gets
    [courseData.user_id || 'anonymous']; an error of the driver is logged
    and thrown again. *)
Definition saveCourse (db : DB) (user_id : option jsstring) (courseData : C)
  : DB * result Z :=
  let user := match user_id with
              | Some u => orElse u anonymous
              | None => anonymous
              end in
  match insertCourse db user courseData with
  | (db', Ok insertId) => (db', Ok insertId)
  | (db', Throw error) => (db', Throw error)
  end.

End Course.

(** saveCourse of the class with a connection pool, the class that has
    the methods of the jobs table.  Its constructor and connect assign
    [this.pool] and nothing else, and saveCourse calls
    [this.connection.execute]: reading [execute] of undefined throws a
    TypeError inside the method's try block, which logs it and throws it
    again.  No statement is run. *)
Definition poolInsertCourse {DB C : Type} (db : DB) (user : jsstring)
           (courseData : C) : DB * result Z :=
  (db, Throw TypeError).

(** ** The scan route *)

Module Route.

(** Why a request is answered with status 500. *)
Inductive cause :=
| NoDatabase             (* 'Database connection unavailable' *)
| AnalysisFailed         (* analyzeSyllabusWithOpenAI threw *)
| Thrown (e : error).    (* a TypeError of the parser or an error of the driver *)

Inductive response :=
| NoFile                 (* 400, 'No file uploaded' *)
| Failed (c : cause)     (* 500 *)
| Analysed (data : value) (course_id : option Z) (assignments_saved : nat)
    (* 200 of the page-image server:
       { success: true, data: aiResponse, course_id, assignments_saved, message } *)
| Processed (id : Z) (name professor email : jsstring)
            (assignments assignments_saved : nat).
    (* 200 of server.js:
       { success: true, message, course: { id, name, professor, email },
         assignments: assignments.length, assignments_saved } *)

Section Handlers.

Variable G : Glyphs.
Variable H : Host.

(** The uploaded file, the state of the database, and the three calls
    that leave the process: the analysis ([None] when it throws) and the
    two INSERT statements. *)
Variables (File DB : Type).
Variable analyzeSyllabusWithOpenAI : File -> option value.
Variable insertCourse : DB -> jsstring -> courseDataV -> DB * result Z.
Variable insert : DB -> Z -> assignment -> DB * result Z.

(** [if (assignments.length > 0)
       savedAssignments = await activeDatabase.saveMultipleAssignments(...)] *)
Definition saveAssignments (db : DB) (courseId : Z) (assignments : list assignment)
  : DB * result (list Z) :=
  if Nat.ltb 0 (length assignments)
  then Store.saveMultipleAssignments Store.isRecord insert db courseId assignments
  else (db, Ok []).

(** POST /api/scan-syllabus of server.js.  [file] is [req.file],
    [userIdHeader] is [req.headers['user-id']], [activeDatabase] tells
    whether a database was connected at start-up.  Every step is inside
    the handler's try blocks; whatever is thrown ends the request with
    status 500. *)
Definition scanSyllabus (file : option File) (userIdHeader : option jsstring)
           (activeDatabase : bool) (db : DB) : response * DB :=
  match file with
  | None => (NoFile, db)
  | Some f =>
      let userId := match userIdHeader with
                    | Some u => orElse u anonymous
                    | None => anonymous
                    end in
      if negb activeDatabase then (Failed NoDatabase, db)
      else
        match analyzeSyllabusWithOpenAI f with
        | None => (Failed AnalysisFailed, db)
        | Some aiResponse =>
            match scanRoute G H aiResponse with
            | Throw e => (Failed (Thrown e), db)
            | Ok (courseData, assignments) =>
                match saveCourse insertCourse db (Some userId) courseData with
                | (db1, Throw e) => (Failed (Thrown e), db1)
                | (db1, Ok courseId) =>
                    match saveAssignments db1 courseId assignments with
                    | (db2, Throw e) => (Failed (Thrown e), db2)
                    | (db2, Ok savedAssignments) =>
                        (Processed courseId (course_nameV courseData)
                                   (professor_nameV courseData)
                                   (professor_emailV courseData)
                                   (length assignments) (length savedAssignments),
                         db2)
                    end
                end
            end
        end
  end.

(** The block [try { if (activeDatabase) { ... } } catch (dbError) { }]
    of the page-image server: the state of the database, [courseId] and
    [savedAssignments] after it. *)
Definition trySave (activeDatabase : bool) (db : DB) (courseData : courseDataV)
           (assignments : list assignment) : DB * option Z * list Z :=
  if activeDatabase then
    match saveCourse insertCourse db None courseData with
    | (db1, Ok courseId) =>
        match saveAssignments db1 courseId assignments with
        | (db2, Ok savedAssignments) => (db2, Some courseId, savedAssignments)
        | (db2, Throw _) => (db2, Some courseId, [])
        end
    | (db1, Throw _) => (db1, None, [])
    end
  else (db, None, []).

(** POST /api/scan-syllabus of the page-image server: the database is
    optional and an error of the database is logged and passed over. *)
Definition scanSyllabusPages (file : option File) (activeDatabase : bool)
           (db : DB) : response * DB :=
  match file with
  | None => (NoFile, db)
  | Some f =>
      match analyzeSyllabusWithOpenAI f with
      | None => (Failed AnalysisFailed, db)
      | Some aiResponse =>
          match scanRouteText G H aiResponse with
          | Throw e => (Failed (Thrown e), db)
          | Ok (courseData, assignments) =>
              let '(db', courseId, savedAssignments) :=
                trySave activeDatabase db courseData assignments in
              (Analysed aiResponse courseId (length savedAssignments), db')
          end
      end
  end.

End Handlers.

End Route.

(** ** The background worker *)

Module Job.

(** The values of the status column. *)
Inductive state := Pending | Processing | Completed | Failed.

(** A row of the jobs table, without its three time stamps.  [id] is the
    primary key. *)
Record row := {
  id : jsstring;
  user_id : jsstring;
  status : state;
  file_name : jsstring;
  file_path : jsstring;
  result_data : option value;
  error_message : option jsstring;
  course_id : option Z
}.

(** The three UPDATE statements of the worker on the jobs table. *)
Inductive statement :=
| SetStatus (s : state)
| SetResult (resultText : value) (courseId : option Z)
| SetError (errorMessage : jsstring).

(** What a statement writes into the row it selects. *)
Definition written (st : statement) (j : row) : row :=
  match st with
  | SetStatus s =>
      {| id := id j; user_id := user_id j; status := s;
         file_name := file_name j; file_path := file_path j;
         result_data := result_data j; error_message := error_message j;
         course_id := course_id j |}
  | SetResult resultText courseId =>
      {| id := id j; user_id := user_id j; status := Completed;
         file_name := file_name j; file_path := file_path j;
         result_data := Some resultText; error_message := error_message j;
         course_id := courseId |}
  | SetError errorMessage =>
      {| id := id j; user_id := user_id j; status := Failed;
         file_name := file_name j; file_path := file_path j;
         result_data := result_data j; error_message := Some errorMessage;
         course_id := course_id j |}
  end.

(** [UPDATE jobs SET ... WHERE id = ?]: the row of the id is changed by
    [set], the others are left as they are. *)
Definition update (set : row -> row) (jobId : jsstring) (jobs : list row)
  : list row :=
  map (fun j => if str_eqb (id j) jobId then set j else j) jobs.

Section Pool.

(** The pool: the error [pool.execute] rejects with for a statement, a
    job id and a state of the table, if it does (the connection is lost,
    the server refuses the statement). *)
Variable raised : statement -> jsstring -> list row -> option error.

(** [await this.pool.execute(...)] inside [try { } catch (error) { log;
    throw error }]: the table after the statement, and the error thrown
    again when the pool rejects; a rejected statement writes nothing. *)
Definition execute (st : statement) (jobId : jsstring) (jobs : list row)
  : list row * result unit :=
  match raised st jobId jobs with
  | Some error => (jobs, Throw error)
  | None => (update (written st) jobId jobs, Ok tt)
  end.

(** [UPDATE jobs SET status = ? WHERE id = ?] *)
Definition updateJobStatus (jobs : list row) (jobId : jsstring) (s : state)
  : list row * result unit :=
  execute (SetStatus s) jobId jobs.

(** [UPDATE jobs SET status = 'completed', result_data = ?, course_id = ?
     WHERE id = ?] with [JSON.stringify(resultData)] and [courseId]. *)
Definition updateJobResult (jobs : list row) (jobId : jsstring)
           (resultText : value) (courseId : option Z) : list row * result unit :=
  execute (SetResult resultText courseId) jobId jobs.

(** [UPDATE jobs SET status = 'failed', error_message = ? WHERE id = ?] *)
Definition updateJobError (jobs : list row) (jobId : jsstring)
           (errorMessage : jsstring) : list row * result unit :=
  execute (SetError errorMessage) jobId jobs.

End Pool.

(** The decimal numeral of an array index. *)
Fixpoint digits (fuel n : nat) (acc : jsstring) : jsstring :=
  match fuel with
  | O => acc
  | S fuel' =>
      let acc' := (48 + N.of_nat (Nat.modulo n 10))%N :: acc in
      if Nat.eqb (Nat.div n 10) 0 then acc' else digits fuel' (Nat.div n 10) acc'
  end.

Definition decimal (i : nat) : jsstring := digits (S i) i [].

Fixpoint indexed (i : nat) (l : list value) : list (jsstring * value) :=
  match l with
  | [] => []
  | v :: l' => (decimal i, v) :: indexed (S i) l'
  end.

(** The own enumerable properties [{ ...v }] copies: those of an object,
    the elements of an array and the units of a string under their
    indices, none of a number or a boolean. *)
Definition ownProps (v : value) : list (jsstring * value) :=
  match v with
  | VObj fields => fields
  | VArr items => indexed 0 items
  | VStr s => indexed 0 (map (fun c => VStr [c]) s)
  | _ => []
  end.

(** [obj.key = v] on the properties of an object literal under
    construction: the property is replaced where it stands or added at
    the end. *)
Fixpoint setProp (key : jsstring) (v : value) (fields : list (jsstring * value))
  : list (jsstring * value) :=
  match fields with
  | [] => [(key, v)]
  | (k, x) :: rest =>
      if str_eqb k key then (k, v) :: rest else (k, x) :: setProp key v rest
  end.

(** [{ ...aiResponse, course_id: courseId,
       assignments_saved: savedAssignments.length }] *)
Definition resultData (aiResponse : value) (courseId : option Z)
           (assignments_saved : nat) : value :=
  VObj (setProp (u16 "assignments_saved") (VNum (Z.of_nat assignments_saved))
          (setProp (u16 "course_id")
                   (match courseId with Some i => VNum i | None => VNull end)
                   (ownProps aiResponse))).

(** The values whose properties can be read: all but null and
    undefined. *)
Definition readable (v : value) : bool :=
  match v with
  | VNull | VUndefined => false
  | _ => true
  end.

(** A pending job for the examples. *)
Definition sample (jobId : string) : row :=
  {| id := u16 jobId; user_id := u16 "u1"; status := Pending;
     file_name := u16 "syllabus.pdf"; file_path := u16 "uploads/syllabus.pdf";
     result_data := None; error_message := None; course_id := None |}.

Section Process.

(** The state of the courses and assignments tables, the pool of the
    jobs table, JSON.stringify, the analysis of the file at a path (the
    parsed answer of the model, or the message of what it throws), the
    message of a built-in or driver error, and the two INSERT
    statements. *)
Variable DB : Type.
Variable raised : statement -> jsstring -> list row -> option error.
Variable stringify : value -> value.
Variable analyzeSyllabusWithOpenAI : jsstring -> value + jsstring.
Variable messageOf : error -> jsstring.
Variable insertCourse : DB -> jsstring -> Worker.courseData -> DB * result Z.
Variable insert : DB -> Z -> value -> DB * result Z.

(** The block [try { courseId = await database.saveCourse(courseData);
    if (assignments.length > 0) savedAssignments = await ...; }
    catch (dbError) { }]: the state, [courseId] and [savedAssignments]
    after it.  The assignments are the elements of the model's array,
    whatever they are. *)
Definition trySave (db : DB) (courseData : Worker.courseData)
           (assignments : list value) : DB * option Z * list Z :=
  match saveCourse insertCourse db None courseData with
  | (db1, Ok courseId) =>
      if Nat.ltb 0 (length assignments) then
        match Store.saveMultipleAssignments readable insert db1 courseId
                                            assignments with
        | (db2, Ok savedAssignments) => (db2, Some courseId, savedAssignments)
        | (db2, Throw _) => (db2, Some courseId, [])
        end
      else (db1, Some courseId, [])
  | (db1, Throw _) => (db1, None, [])
  end.

(** The catch block of processJob: [await database.updateJobError(job.id,
    error.message)] stands outside any try, so what it throws is what
    processJob rejects with. *)
Definition recordFailure (db : DB) (jobs : list row) (job : row)
           (message : jsstring) : DB * list row * result unit :=
  let '(jobs', r) := updateJobError raised jobs (id job) message in
  (db, jobs', r).

(** processJob on the row [job] read from the table: the tables after
    it, and whether it resolves or rejects.  Whatever is thrown inside
    the try block, by a statement on the jobs table too, goes to the catch
    block. *)
Definition processJob (job : row) (db : DB) (jobs : list row)
  : DB * list row * result unit :=
  match updateJobStatus raised jobs (id job) Processing with
  | (jobs1, Throw e) => recordFailure db jobs1 job (messageOf e)
  | (jobs1, Ok _) =>
      match analyzeSyllabusWithOpenAI (file_path job) with
      | inr message => recordFailure db jobs1 job message
      | inl aiResponse =>
          match Worker.parseSyllabusData stringify aiResponse with
          | Throw e => recordFailure db jobs1 job (messageOf e)
          | Ok (courseData, assignments) =>
              let '(db', courseId, savedAssignments) :=
                trySave db courseData assignments in
              match updateJobResult raised jobs1 (id job)
                      (stringify (resultData aiResponse courseId
                                             (length savedAssignments)))
                      courseId with
              | (jobs2, Ok _) => (db', jobs2, Ok tt)
              | (jobs2, Throw e) => recordFailure db' jobs2 job (messageOf e)
              end
          end
      end
  end.

End Process.

End Job.

(** ** The section pattern and the bullet pattern in words

    What the two patterns of extractBulletPoints select, written as
    scans of the text. *)

(** [s] begins with [title] written in any letter case: what follows
    it. *)
Fixpoint afterTitle (title s : jsstring) : option jsstring :=
  match title, s with
  | [], _ => Some s
  | p :: title', x :: s' =>
      if (canon p =? canon x)%N then afterTitle title' s' else None
  | _ :: _, [] => None
  end.

(** [s] begins with white space that holds a newline: what follows the
    last newline of that white space. *)
Fixpoint afterLastNewline (s : jsstring) : option jsstring :=
  match s with
  | [] => None
  | x :: s' =>
      if isSpace x then
        match afterLastNewline s' with
        | Some r => Some r
        | None => if (x =? NL)%N then Some s' else None
        end
      else None
  end.

(** A unit of one of the six section glyphs, up to letter case. *)
Definition glyphUnit (G : Glyphs) (x : N) : bool :=
  existsb (fun c => (canon c =? canon x)%N) (sectionGlyphs G).

(** [s] is white space, or none, followed by a glyph unit. *)
Fixpoint glyphAfterSpaces (G : Glyphs) (s : jsstring) : bool :=
  match s with
  | [] => false
  | x :: s' => glyphUnit G x || (isSpace x && glyphAfterSpaces G s')
  end.

(** Where a block ends: at the end of the text, and before a newline
    that is followed, after white space or none, by a glyph unit. *)
Definition atSectionEnd (G : Glyphs) (s : jsstring) : bool :=
  match s with
  | [] => true
  | x :: s' => (x =? NL)%N && glyphAfterSpaces G s'
  end.

(** The text up to the first place where a block ends. *)
Fixpoint untilSectionEnd (G : Glyphs) (s : jsstring) : jsstring :=
  match s with
  | [] => []
  | x :: s' => if atSectionEnd G s then [] else x :: untilSectionEnd G s'
  end.

(** The block of a title that stands at the front of [s]: the title in
    any letter case, white space with a newline in it, and then the
    block, from after the last newline of that white space. *)
Definition blockAt (G : Glyphs) (title s : jsstring) : option jsstring :=
  match afterTitle title s with
  | Some s1 =>
      match afterLastNewline s1 with
      | Some r => Some (untilSectionEnd G r)
      | None => None
      end
  | None => None
  end.

(** The block of the first place of the text that has one. *)
Fixpoint findBlock (G : Glyphs) (title content : jsstring) : option jsstring :=
  match blockAt G title content with
  | Some block => Some block
  | None =>
      match content with
      | [] => None
      | _ :: rest => findBlock G title rest
      end
  end.

(** After a marker: where its line is read from.  The white space after
    the marker is passed over, line ends too, as far as a unit other than
    a newline follows. *)
Fixpoint lineStart (s : jsstring) : option jsstring :=
  match s with
  | [] => None
  | x :: s' =>
      if isSpace x then
        match lineStart s' with
        | Some r => Some r
        | None => if (x =? NL)%N then None else Some s
        end
      else Some s
  end.

(** The text from the first newline on. *)
Fixpoint fromNewline (s : jsstring) : jsstring :=
  match s with
  | [] => []
  | x :: s' => if (x =? NL)%N then s else fromNewline s'
  end.

(** A marker at the front of [s] with a line after it: the line, up to
    its newline, and the text from that newline on. *)
Definition markedLine (G : Glyphs) (s : jsstring) : option (jsstring * jsstring) :=
  if startsWith (bullet G) s then
    match lineStart (skipn (length (bullet G)) s) with
    | Some r => Some (beforeFirst NL r, fromNewline r)
    | None => None
    end
  else None.

(** The first marker of the text with a line after it. *)
Fixpoint nextMarkedLine (G : Glyphs) (s : jsstring)
  : option (jsstring * jsstring) :=
  match markedLine G s with
  | Some found => Some found
  | None =>
      match s with
      | [] => None
      | _ :: s' => nextMarkedLine G s'
      end
  end.

(** The lines after the markers of a text, trimmed, in their order; the
    scan goes on where the last line ended.  [n] bounds their number. *)
Fixpoint markedLinesFrom (n : nat) (G : Glyphs) (s : jsstring) : list jsstring :=
  match n with
  | O => []
  | S n' =>
      match nextMarkedLine G s with
      | Some (line, rest) => trim line :: markedLinesFrom n' G rest
      | None => []
      end
  end.

Definition markedLines (G : Glyphs) (block : jsstring) : list jsstring :=
  markedLinesFrom (length block) G block.

(** A text that names TEST DATES at the end of a line above the section
    of that title. *)
Definition strayTitle (G : Glyphs) : jsstring :=
  lines [item G "see TEST DATES"; item G "Something long";
         memo G ++ u16 " TEST DATES"; item G "Real exam"].

(** A section whose header is not in upper case, with a bullet that
    repeats it. *)
Definition mixedCaseHeader (G : Glyphs) : jsstring :=
  lines [memo G ++ u16 " Test Dates"; item G "Test Dates"].

(** A section with a marker alone on its line. *)
Definition loneMarker (G : Glyphs) : jsstring :=
  lines [memo G ++ u16 " TEST DATES"; bullet G; item G "Final exam"].

(** ** A batch with an element that is no object *)

(** A store that takes every row, with ids counting up from the number of
    rows. *)
Definition valueInsert (db : list (Z * value)) (courseId : Z) (a : value)
  : list (Z * value) * result Z :=
  (db ++ [(courseId, a)], Ok (Z.of_nat (S (length db)))).

Definition titled (t : string) : value := VObj [(u16 "title", VStr (u16 t))].

Definition batchWithNull : list value := [titled "HW1"; VNull; titled "HW3"].

(** * Properties *)

Unset Implicit Arguments.

(** ** Strings *)

Lemma str_eqb_eq (a b : jsstring) : str_eqb a b = true <-> a = b.
Proof.
  revert b; induction a as [|x a IH]; intros [|y b]; simpl; split;
    try congruence; try reflexivity.
  - intros E. apply andb_true_iff in E as [E1 E2].
    apply N.eqb_eq in E1. apply IH in E2. congruence.
  - intros E. injection E as -> ->. rewrite N.eqb_refl. simpl. now apply IH.
Qed.

Lemma str_eqb_refl (a : jsstring) : str_eqb a a = true.
Proof. now apply str_eqb_eq. Qed.

Lemma str_eqb_sym (a b : jsstring) : str_eqb a b = str_eqb b a.
Proof.
  destruct (str_eqb a b) eqn:E.
  - apply str_eqb_eq in E. subst. symmetry. apply str_eqb_refl.
  - destruct (str_eqb b a) eqn:E'; [|reflexivity].
    apply str_eqb_eq in E'. subst. now rewrite str_eqb_refl in E.
Qed.

Lemma startsWith_spec (p s : jsstring) :
  startsWith p s = true <-> exists r, s = p ++ r.
Proof.
  revert s; induction p as [|x p IH]; intros s; simpl.
  - split; [intros _; now exists s | reflexivity].
  - destruct s as [|y s].
    + split; [discriminate | intros [r E]; discriminate].
    + rewrite andb_true_iff, N.eqb_eq, IH. split.
      * intros [-> [r ->]]. now exists r.
      * intros [r E]. injection E as -> ->. split; [reflexivity | now exists r].
Qed.

Lemma includes_spec (s t : jsstring) :
  includes s t = true <-> exists pre post, s = pre ++ t ++ post.
Proof.
  induction s as [|c s IH]; simpl.
  - rewrite orb_false_r, startsWith_spec. split.
    + intros [r E]. now exists [], r.
    + intros [pre [post E]]. destruct pre; simpl in E; [now exists post|discriminate].
  - rewrite orb_true_iff, startsWith_spec, IH. split.
    + intros [[r E] | [pre [post E]]].
      * now exists [], r.
      * exists (c :: pre), post. simpl. now rewrite E.
    + intros [[|d pre] [post E]]; simpl in E.
      * left. now exists post.
      * right. injection E as -> E. now exists pre, post.
Qed.

Lemma includes_middle (a t b : jsstring) : includes (a ++ t ++ b) t = true.
Proof. apply includes_spec. now exists a, b. Qed.

Lemma includes_after (a s t : jsstring) :
  includes s t = true -> includes (a ++ s) t = true.
Proof.
  rewrite !includes_spec. intros [pre [post ->]].
  exists (a ++ pre), post. now rewrite <- app_assoc.
Qed.

Lemma includes_longer (s t u : jsstring) :
  includes s (t ++ u) = true -> includes s t = true.
Proof.
  rewrite !includes_spec. intros [pre [post ->]].
  exists pre, (u ++ post). now rewrite <- app_assoc.
Qed.

Lemma includes_length (s t : jsstring) :
  includes s t = true -> length t <= length s.
Proof.
  rewrite includes_spec. intros [pre [post ->]].
  rewrite !length_app. lia.
Qed.

Lemma truthy_false (s : jsstring) : truthy s = false <-> s = [].
Proof. destruct s; simpl; split; congruence. Qed.

Lemma dropWhile_idem (p : N -> bool) (s : jsstring) :
  dropWhile p (dropWhile p s) = dropWhile p s.
Proof.
  induction s as [|c s IH]; simpl; [reflexivity|].
  destruct (p c) eqn:E; [exact IH|]. simpl. now rewrite E.
Qed.

Lemma dropWhile_snoc (p : N -> bool) (s : jsstring) (c : N) :
  p c = false -> dropWhile p (s ++ [c]) = dropWhile p s ++ [c].
Proof.
  intros E. induction s as [|d s IH]; simpl.
  - now rewrite E.
  - destruct (p d); [exact IH | reflexivity].
Qed.

Lemma dropWhile_cleanStart (s : jsstring) : cleanStart (dropWhile isSpace s).
Proof.
  induction s as [|c s IH]; simpl; [exact I|].
  destruct (isSpace c) eqn:E; [exact IH | exact E].
Qed.

Lemma cleanStart_dropWhile (s : jsstring) :
  cleanStart s -> dropWhile isSpace s = s.
Proof. destruct s as [|c s]; simpl; [reflexivity|]. now intros ->. Qed.

Lemma trimEnd_cleanStart (s : jsstring) : cleanStart s -> cleanStart (trimEnd s).
Proof.
  destruct s as [|c s]; [intros _; exact I|]. simpl. intros E.
  unfold trimEnd. simpl. rewrite (dropWhile_snoc _ _ _ E), rev_app_distr.
  exact E.
Qed.

(** The result of trim is trimmed. *)
Lemma trim_idem (s : jsstring) : trim (trim s) = trim s.
Proof.
  unfold trim at 1. unfold trimStart.
  rewrite cleanStart_dropWhile.
  - unfold trim, trimEnd. now rewrite rev_involutive, dropWhile_idem.
  - apply trimEnd_cleanStart, dropWhile_cleanStart.
Qed.

(** ** The duplicate-free union *)

Lemma arrIncludes_In (l : list jsstring) (x : jsstring) :
  arrIncludes l x = true <-> In x l.
Proof.
  induction l as [|y l IH]; simpl; [split; [discriminate | tauto]|].
  rewrite orb_true_iff, str_eqb_eq, IH. tauto.
Qed.

Lemma arrIncludes_app (l l' : list jsstring) (x : jsstring) :
  arrIncludes (l ++ l') x = arrIncludes l x || arrIncludes l' x.
Proof.
  induction l as [|y l IH]; simpl; [reflexivity|].
  now rewrite IH, orb_assoc.
Qed.

Lemma filter_filter_comm {A : Type} (p q : A -> bool) (l : list A) :
  filter p (filter q l) = filter q (filter p l).
Proof.
  induction l as [|x l IH]; simpl; [reflexivity|].
  destruct (p x) eqn:P, (q x) eqn:Q; simpl; rewrite ?P, ?Q, IH; reflexivity.
Qed.

Lemma filter_both {A : Type} (p q : A -> bool) (l : list A) :
  filter p (filter q l) = filter (fun x => p x && q x) l.
Proof.
  induction l as [|x l IH]; simpl; [reflexivity|].
  destruct (q x); simpl; [destruct (p x)|]; rewrite ?andb_false_r, IH; reflexivity.
Qed.

Lemma filter_absorb {A : Type} (p q : A -> bool) (l : list A) :
  (forall x, p x = true -> q x = true) ->
  filter p (filter q l) = filter p l.
Proof.
  intros Hpq. induction l as [|x l IH]; simpl; [reflexivity|].
  destruct (q x) eqn:Q; simpl.
  - now rewrite IH.
  - destruct (p x) eqn:P; [|exact IH].
    apply Hpq in P. congruence.
Qed.

Lemma firstOccurrences_filter (p : jsstring -> bool) (l : list jsstring) :
  firstOccurrences (filter p l) = filter p (firstOccurrences l).
Proof.
  induction l as [|x l IH]; simpl; [reflexivity|].
  destruct (p x) eqn:P; simpl.
  - rewrite IH. f_equal. apply filter_filter_comm.
  - rewrite IH. symmetry. apply filter_absorb.
    intros y Py. destruct (str_eqb x y) eqn:E; [|reflexivity].
    apply str_eqb_eq in E. subst. congruence.
Qed.

(** The forEach/includes/push loop appends the first occurrences of the
    new items that the accumulator does not hold yet. *)
Lemma pushUnique_spec (new acc : list jsstring) :
  pushUnique acc new =
  acc ++ firstOccurrences (filter (fun x => negb (arrIncludes acc x)) new).
Proof.
  unfold pushUnique. revert acc.
  induction new as [|x new IH]; intros acc; simpl.
  - now rewrite app_nil_r.
  - destruct (arrIncludes acc x) eqn:E; simpl.
    + apply IH.
    + rewrite IH, <- app_assoc. simpl. do 2 f_equal.
      rewrite <- firstOccurrences_filter, filter_both.
      f_equal. apply filter_ext. intros y.
      rewrite arrIncludes_app. simpl. rewrite orb_false_r, negb_orb.
      apply andb_comm.
Qed.

Lemma pushUnique_app (acc a b : list jsstring) :
  pushUnique (pushUnique acc a) b = pushUnique acc (a ++ b).
Proof. unfold pushUnique. now rewrite fold_left_app. Qed.

Lemma uniq_spec (l : list jsstring) : uniq l = firstOccurrences l.
Proof.
  unfold uniq. rewrite pushUnique_spec. simpl. f_equal.
  induction l as [|x l IH]; simpl; congruence.
Qed.

Lemma firstOccurrences_In (l : list jsstring) (x : jsstring) :
  In x (firstOccurrences l) <-> In x l.
Proof.
  induction l as [|y l IH]; simpl; [tauto|].
  rewrite filter_In, IH, negb_true_iff.
  destruct (str_eqb y x) eqn:E.
  - apply str_eqb_eq in E. subst. split; [tauto | intros _; now left].
  - split; [tauto|]. intros [->|Hin].
    + now rewrite str_eqb_refl in E.
    + right. now split.
Qed.

Lemma firstOccurrences_NoDup (l : list jsstring) : NoDup (firstOccurrences l).
Proof.
  induction l as [|x l IH]; simpl; constructor.
  - rewrite filter_In, negb_true_iff, str_eqb_refl. intros [_ E]. discriminate.
  - now apply NoDup_filter.
Qed.

(** ** The matcher *)

Lemma orTry_Some {R : Type} (a b : option R) (x : R) :
  orTry a b = Some x -> a = Some x \/ b = Some x.
Proof. destruct a; simpl; intros E; [left | right]; exact E. Qed.

Lemma run_ext (ic : bool) (total : nat) (r : regex) :
  forall (R : Type) (s : jsstring) (cap : option jsstring) (k1 k2 : cont R),
    (forall s' c', k1 s' c' = k2 s' c') ->
    run ic total r s cap k1 = run ic total r s cap k2.
Proof.
  induction r as [l|neg items|r1 IH1 r2 IH2|r1 IH1 r2 IH2|g r1 IH1|r1 IH1
                  |r1 IH1| |]; intros R s cap k1 k2 E; simpl.
  - destruct (strMatch ic l s); [apply E | reflexivity].
  - destruct s as [|x s]; [reflexivity|].
    destruct (clsMatch ic neg items x); [apply E | reflexivity].
  - apply IH1. intros s' c'. now apply IH2.
  - now rewrite (IH1 R s cap k1 k2 E), (IH2 R s cap k1 k2 E).
  - generalize (length s). intros n. revert s cap.
    induction n as [|n IHn]; intros s cap; simpl; [apply E|].
    rewrite (E s cap).
    rewrite (IH1 R s cap _
                 (fun s' cap' =>
                    if Nat.ltb (length s') (length s)
                    then star g (run ic total r1) n s' cap' k2 else None)).
    + reflexivity.
    + intros s' c'. destruct (Nat.ltb (length s') (length s)); [apply IHn | reflexivity].
  - apply IH1. intros s' c'. apply E.
  - destruct (run ic total r1 s cap (fun _ cap' => Some cap')); [apply E | reflexivity].
  - destruct (Nat.eqb (length s) total); [apply E | reflexivity].
  - destruct s; [apply E | reflexivity].
Qed.

(** A matcher succeeds only through its continuation. *)
Lemma run_fail (ic : bool) (total : nat) (r : regex) :
  forall (R : Type) (s : jsstring) (cap : option jsstring),
    run ic total r s cap (fun _ _ => @None R) = None.
Proof.
  induction r as [l|neg items|r1 IH1 r2 IH2|r1 IH1 r2 IH2|g r1 IH1|r1 IH1
                  |r1 IH1| |]; intros R s cap; simpl.
  - now destruct (strMatch ic l s).
  - destruct s as [|x s]; [reflexivity|]. now destruct (clsMatch ic neg items x).
  - rewrite (run_ext ic total r1 R s cap _ (fun _ _ => None)); [apply IH1|].
    intros s' c'. apply IH2.
  - now rewrite IH1, IH2.
  - generalize (length s) at 1. intros n. revert s cap.
    induction n as [|n IHn]; intros s cap; simpl; [reflexivity|].
    rewrite (run_ext ic total r1 R s cap _ (fun _ _ => None)).
    + rewrite IH1. now destruct g.
    + intros s' c'. destruct (Nat.ltb (length s') (length s)); [apply IHn | reflexivity].
  - apply IH1.
  - now destruct (run ic total r1 s cap (fun _ cap' => Some cap')).
  - now destruct (Nat.eqb (length s) total).
  - now destruct s.
Qed.

(** The bound of the star loop never cuts a match short: from the length
    of the input on, more iterations change nothing. *)
Lemma star_bound (ic : bool) (total : nat) (r : regex) (R : Type) (g : bool)
      (k : cont R) :
  forall (n m : nat) (s : jsstring) (cap : option jsstring),
    length s <= n -> length s <= m ->
    star g (run ic total r) n s cap k = star g (run ic total r) m s cap k.
Proof.
  assert (Z0 : forall m cap, star g (run ic total r) m [] cap k = k [] cap).
  { intros [|m] cap; simpl; [reflexivity|].
    rewrite run_fail. now destruct g; simpl; [|destruct (k [] cap)]. }
  induction n as [|n IH]; intros m s cap Hn Hm.
  - destruct s; [|simpl in Hn; lia]. now rewrite !Z0.
  - destruct m as [|m].
    + destruct s; [|simpl in Hm; lia]. now rewrite !Z0.
    + simpl.
      rewrite (run_ext ic total r R s cap _
                 (fun s' cap' =>
                    if Nat.ltb (length s') (length s)
                    then star g (run ic total r) m s' cap' k else None)).
      * reflexivity.
      * intros s' c'. destruct (Nat.ltb_spec (length s') (length s));
          [apply IH; lia | reflexivity].
Qed.

Lemma suffix_refl (s : jsstring) : suffix s s.
Proof. now exists []. Qed.

Lemma suffix_trans (a b c : jsstring) : suffix a b -> suffix b c -> suffix a c.
Proof.
  intros [p ->] [q ->]. exists (q ++ p). now rewrite app_assoc.
Qed.

Lemma suffix_length (a b : jsstring) : suffix a b -> length a <= length b.
Proof. intros [p ->]. rewrite length_app. lia. Qed.

Lemma suffix_firstn (a b : jsstring) :
  suffix a b -> b = firstn (length b - length a) b ++ a.
Proof.
  intros [p ->]. rewrite length_app.
  replace (length p + length a - length a) with (length p) by lia.
  now rewrite firstn_app, firstn_all, Nat.sub_diag, firstn_O, app_nil_r.
Qed.

Lemma suffix_includes (a b t : jsstring) :
  suffix a b -> includes a t = true -> includes b t = true.
Proof. intros [p ->]. apply includes_after. Qed.

Lemma strMatch_suffix (ic : bool) (l s s' : jsstring) :
  strMatch ic l s = Some s' -> suffix s' s.
Proof.
  revert s; induction l as [|p l IH]; intros s; simpl.
  - intros E. injection E as ->. apply suffix_refl.
  - destruct s as [|x s]; [discriminate|].
    destruct (unitMatch ic p x); [|discriminate].
    intros E. apply IH in E. destruct E as [q ->]. now exists (x :: q).
Qed.

(** A successful run calls its continuation on a suffix of the remaining
    input, with a capture taken from the input. *)
Lemma run_sound (ic : bool) (total : nat) (inp : jsstring) (r : regex) :
  forall (R : Type) (s : jsstring) (cap : option jsstring) (k : cont R) (x : R),
    suffix s inp -> capIn inp cap ->
    run ic total r s cap k = Some x ->
    exists s' cap', suffix s' s /\ capIn inp cap' /\ k s' cap' = Some x.
Proof.
  induction r as [l|neg items|r1 IH1 r2 IH2|r1 IH1 r2 IH2|g r1 IH1|r1 IH1
                  |r1 IH1| |]; intros R s cap k x Hs Hc; simpl.
  - destruct (strMatch ic l s) as [s'|] eqn:E; [|discriminate].
    intros K. exists s', cap. split; [now apply (strMatch_suffix ic l)|now split].
  - destruct s as [|c s]; [discriminate|].
    destruct (clsMatch ic neg items c); [|discriminate].
    intros K. exists s, cap. split; [now exists [c] | now split].
  - intros K. apply IH1 in K; [|assumption..].
    destruct K as (s1 & c1 & S1 & C1 & K).
    apply IH2 in K; [|now apply (suffix_trans _ s)|assumption].
    destruct K as (s2 & c2 & S2 & C2 & K).
    exists s2, c2. split; [now apply (suffix_trans _ s1)|now split].
  - intros K. apply orTry_Some in K as [K|K];
      [apply (IH1 R s cap k x) | apply (IH2 R s cap k x)]; assumption.
  - generalize (length s) at 1. intros n. revert s cap Hs Hc.
    induction n as [|n IHn]; intros s cap Hs Hc; simpl.
    + intros K. exists s, cap. split; [apply suffix_refl | now split].
    + assert (More :
                run ic total r1 s cap
                    (fun s' cap' =>
                       if Nat.ltb (length s') (length s)
                       then star g (run ic total r1) n s' cap' k else None)
                = Some x ->
                exists s' cap', suffix s' s /\ capIn inp cap' /\ k s' cap' = Some x).
      { intros K. apply IH1 in K; [|assumption..].
        destruct K as (s1 & c1 & S1 & C1 & K).
        destruct (Nat.ltb (length s1) (length s)); [|discriminate].
        apply IHn in K; [|now apply (suffix_trans _ s)|assumption].
        destruct K as (s2 & c2 & S2 & C2 & K).
        exists s2, c2. split; [now apply (suffix_trans _ s1)|now split]. }
      assert (Stop : k s cap = Some x ->
                     exists s' cap', suffix s' s /\ capIn inp cap' /\ k s' cap' = Some x).
      { intros K. exists s, cap. split; [apply suffix_refl | now split]. }
      destruct g; intros K; apply orTry_Some in K as [K|K]; auto.
  - intros K. apply IH1 in K; [|assumption..].
    destruct K as (s1 & c1 & S1 & C1 & K).
    exists s1, (Some (firstn (length s - length s1) s)).
    split; [assumption|]. split; [|assumption].
    simpl. destruct Hs as [p ->].
    rewrite (suffix_firstn s1 s S1) at 1.
    rewrite app_assoc. apply includes_spec.
    exists p, s1. rewrite <- !app_assoc. reflexivity.
  - destruct (run ic total r1 s cap (fun _ cap' => Some cap')) as [c1|] eqn:E;
      [|discriminate].
    intros K. apply IH1 in E; [|assumption..].
    destruct E as (s1 & c2 & _ & C2 & E). injection E as ->.
    exists s, c1. split; [apply suffix_refl | now split].
  - destruct (Nat.eqb (length s) total); [|discriminate].
    intros K. exists s, cap. split; [apply suffix_refl | now split].
  - destruct s; [|discriminate].
    intros K. exists [], cap. split; [apply suffix_refl | now split].
Qed.

(** A match found in [s]: [s] is what precedes the match, the match and
    the rest; the capture is a piece of the whole input. *)
Lemma matchAt_sound (ic : bool) (total : nat) (inp : jsstring) (re : regex)
      (s : jsstring) (m : mres) :
  suffix s inp ->
  matchAt ic total re s = Some m ->
  s = m_all m ++ m_rest m /\ m_index m = total - length s /\
  capIn inp (m_group m).
Proof.
  intros Hs E. unfold matchAt in E.
  apply (run_sound ic total inp) in E; [|assumption|exact I].
  destruct E as (s' & cap' & S & C & E). injection E as <-. simpl.
  split; [now apply suffix_firstn | now split].
Qed.

Lemma searchFrom_sound (ic : bool) (total : nat) (inp : jsstring) (re : regex)
      (s : jsstring) (m : mres) :
  suffix s inp ->
  searchFrom ic total re s = Some m ->
  suffix (m_all m ++ m_rest m) s /\
  m_index m = total - length (m_all m ++ m_rest m) /\
  capIn inp (m_group m).
Proof.
  induction s as [|c s IH]; intros Hs; simpl.
  - destruct (matchAt ic total re []) eqn:E; [|discriminate].
    intros K. injection K as <-.
    apply (matchAt_sound ic total inp) in E; [|assumption].
    destruct E as (E1 & E2 & E3). rewrite <- E1.
    split; [apply suffix_refl | now split].
  - destruct (matchAt ic total re (c :: s)) eqn:E.
    + intros K. injection K as <-.
      apply (matchAt_sound ic total inp) in E; [|assumption].
      destruct E as (E1 & E2 & E3). rewrite <- E1.
      split; [apply suffix_refl | now split].
    + intros K. apply IH in K.
      * destruct K as (K1 & K2 & K3).
        split; [|now split]. apply (suffix_trans _ s); [assumption|now exists [c]].
      * apply (suffix_trans _ (c :: s)); [now exists [c] | assumption].
Qed.

(** [s.match(re)]: the input is the text before the match, the match and
    the text after it; match[1] is a piece of the input. *)
Lemma exec_sound (ic : bool) (re : regex) (s : jsstring) (m : mres) :
  exec ic re s = Some m ->
  s = firstn (m_index m) s ++ m_all m ++ m_rest m /\
  capIn s (m_group m).
Proof.
  intros E. unfold exec in E.
  apply (searchFrom_sound ic (length s) s) in E; [|apply suffix_refl].
  destruct E as (S & I & C). split; [|assumption].
  rewrite I. now apply suffix_firstn.
Qed.

Lemma matchAllFrom_sound (ic : bool) (total : nat) (re : regex) (n : nat) :
  forall (inp s b : jsstring),
    suffix s inp ->
    In b (matchAllFrom n ic total re s) -> includes s b = true.
Proof.
  induction n as [|n IH]; intros inp s b Hs; simpl; [tauto|].
  destruct (searchFrom ic total re s) as [m|] eqn:E; [|simpl; tauto].
  apply (searchFrom_sound ic total inp) in E; [|assumption].
  destruct E as ([p E] & _ & _).
  intros [<-|Hin].
  - rewrite E. apply includes_middle.
  - assert (Rest : forall rest, suffix rest (m_rest m) ->
                     In b (matchAllFrom n ic total re rest) ->
                     includes s b = true).
    { intros rest Hr Hb.
      assert (Sr : suffix rest s).
      { apply (suffix_trans _ (m_rest m)); [assumption|].
        exists (p ++ m_all m). now rewrite <- app_assoc. }
      apply (suffix_includes rest s b Sr).
      apply (IH inp rest b); [|assumption].
      now apply (suffix_trans _ s). }
    destruct (m_all m) as [|a al], (m_rest m) as [|c rest] eqn:Er;
      try (now destruct Hin).
    + apply (Rest rest); [now exists [c] | assumption].
    + apply (Rest [] (suffix_refl [])); assumption.
    + apply (Rest (c :: rest) (suffix_refl _)); assumption.
Qed.

(** Every element of [s.match(re)] with the g flag is a piece of [s]. *)
Lemma matchAll_sound (ic : bool) (re : regex) (s b : jsstring) :
  In b (matchAll ic re s) -> includes s b = true.
Proof. apply (matchAllFrom_sound ic (length s) re _ s s), suffix_refl. Qed.

(** ** What a match consumes *)

Lemma strMatch_lang (ic : bool) (l s s' : jsstring) :
  strMatch ic l s = Some s' ->
  exists w, s = w ++ s' /\ Forall2 (fun p x => unitMatch ic p x = true) l w.
Proof.
  revert s; induction l as [|p l IH]; intros s; simpl.
  - intros E. injection E as ->. exists []. split; [reflexivity | constructor].
  - destruct s as [|x s]; [discriminate|].
    destruct (unitMatch ic p x) eqn:U; [|discriminate].
    intros E. apply IH in E. destruct E as (w & -> & F).
    exists (x :: w). split; [reflexivity | now constructor].
Qed.

(** A successful run has consumed a text of the pattern's language. *)
Lemma run_lang (ic : bool) (total : nat) (r : regex) :
  forall (R : Type) (s : jsstring) (cap : option jsstring) (k : cont R) (x : R),
    run ic total r s cap k = Some x ->
    exists w s' cap', s = w ++ s' /\ lang ic r w /\ k s' cap' = Some x.
Proof.
  induction r as [l|neg items|r1 IH1 r2 IH2|r1 IH1 r2 IH2|g r1 IH1|r1 IH1
                  |r1 IH1| |]; intros R s cap k x; simpl.
  - destruct (strMatch ic l s) as [s'|] eqn:E; [|discriminate].
    intros K. apply strMatch_lang in E. destruct E as (w & -> & F).
    now exists w, s', cap.
  - destruct s as [|c s]; [discriminate|].
    destruct (clsMatch ic neg items c) eqn:C; [|discriminate].
    intros K. exists [c], s, cap. split; [reflexivity|].
    split; [now exists c | assumption].
  - intros K. apply IH1 in K. destruct K as (w1 & s1 & c1 & -> & L1 & K).
    apply IH2 in K. destruct K as (w2 & s2 & c2 & -> & L2 & K).
    exists (w1 ++ w2), s2, c2. split; [now rewrite app_assoc|].
    split; [now exists w1, w2 | assumption].
  - intros K. apply orTry_Some in K as [K|K].
    + apply IH1 in K. destruct K as (w & s' & c' & -> & L & K).
      exists w, s', c'. split; [reflexivity|]. split; [now left | assumption].
    + apply IH2 in K. destruct K as (w & s' & c' & -> & L & K).
      exists w, s', c'. split; [reflexivity|]. split; [now right | assumption].
  - generalize (length s) at 1. intros n. revert s cap.
    induction n as [|n IHn]; intros s cap; simpl.
    + intros K. exists [], s, cap. split; [reflexivity|].
      split; [exists []; split; [reflexivity | constructor] | assumption].
    + assert (Stop : k s cap = Some x ->
                     exists w s' cap',
                       s = w ++ s' /\
                       (exists ws, w = concat ws /\ Forall (lang ic r1) ws) /\
                       k s' cap' = Some x).
      { intros K. exists [], s, cap. split; [reflexivity|].
        split; [exists []; split; [reflexivity | constructor] | assumption]. }
      assert (More :
                run ic total r1 s cap
                    (fun s' cap' =>
                       if Nat.ltb (length s') (length s)
                       then star g (run ic total r1) n s' cap' k else None)
                = Some x ->
                exists w s' cap',
                  s = w ++ s' /\
                  (exists ws, w = concat ws /\ Forall (lang ic r1) ws) /\
                  k s' cap' = Some x).
      { intros K. apply IH1 in K. destruct K as (w1 & s1 & c1 & -> & L1 & K).
        destruct (Nat.ltb (length s1) (length (w1 ++ s1))); [|discriminate].
        apply IHn in K.
        destruct K as (w2 & s2 & c2 & -> & (ws & -> & F) & K).
        exists (w1 ++ concat ws), s2, c2. split; [now rewrite app_assoc|].
        split; [|assumption].
        exists (w1 :: ws). split; [reflexivity | now constructor]. }
      destruct g; intros K; apply orTry_Some in K as [K|K]; auto.
  - intros K. apply IH1 in K. destruct K as (w & s' & c' & -> & L & K).
    now exists w, s', (Some (firstn (length (w ++ s') - length s') (w ++ s'))).
  - destruct (run ic total r1 s cap (fun _ cap' => Some cap')) as [c1|];
      [|discriminate].
    intros K. now exists [], s, c1.
  - destruct (Nat.eqb (length s) total); [|discriminate].
    intros K. now exists [], s, cap.
  - destruct s; [|discriminate]. intros K. now exists [], [], cap.
Qed.

Lemma matchAt_lang (ic : bool) (total : nat) (re : regex) (s : jsstring)
      (m : mres) :
  matchAt ic total re s = Some m -> lang ic re (m_all m).
Proof.
  intros E. unfold matchAt in E. apply run_lang in E.
  destruct E as (w & s' & c' & -> & L & E). injection E as <-. simpl.
  rewrite length_app.
  replace (length w + length s' - length s') with (length w) by lia.
  now rewrite firstn_app, firstn_all, Nat.sub_diag, firstn_O, app_nil_r.
Qed.

Lemma searchFrom_lang (ic : bool) (total : nat) (re : regex) (s : jsstring)
      (m : mres) :
  searchFrom ic total re s = Some m -> lang ic re (m_all m).
Proof.
  induction s as [|c s IH]; simpl.
  - destruct (matchAt ic total re []) eqn:E; [|discriminate].
    intros K. injection K as <-. now apply matchAt_lang in E.
  - destruct (matchAt ic total re (c :: s)) eqn:E.
    + intros K. injection K as <-. now apply matchAt_lang in E.
    + exact IH.
Qed.

Lemma matchAllFrom_lang (ic : bool) (total : nat) (re : regex) (n : nat) :
  forall (s b : jsstring),
    In b (matchAllFrom n ic total re s) -> lang ic re b.
Proof.
  induction n as [|n IH]; intros s b; simpl; [tauto|].
  destruct (searchFrom ic total re s) as [m|] eqn:E; [|simpl; tauto].
  apply searchFrom_lang in E.
  intros [<-|Hin]; [assumption|].
  destruct (m_all m) as [|a al], (m_rest m) as [|c rest];
    try (now destruct Hin); now apply IH in Hin.
Qed.

(** Every element of [s.match(re)] with the g flag is in the language of
    the pattern. *)
Lemma matchAll_lang (ic : bool) (re : regex) (s b : jsstring) :
  In b (matchAll ic re s) -> lang ic re b.
Proof. apply matchAllFrom_lang. Qed.

(** ** The matcher on a pattern that begins with a literal *)

Lemma strMatch_exact (l s s' : jsstring) :
  strMatch false l s = Some s' -> s = l ++ s'.
Proof.
  revert s; induction l as [|p l IH]; intros s; simpl.
  - congruence.
  - destruct s as [|x s]; [discriminate|].
    unfold unitMatch. destruct (N.eqb_spec p x); [|discriminate].
    intros E. apply IH in E. congruence.
Qed.

Lemma matchAt_literal (total : nat) (l : jsstring) (r : regex)
      (s : jsstring) (m : mres) :
  matchAt false total (Seq (Str l) r) s = Some m -> startsWith l s = true.
Proof.
  unfold matchAt. simpl.
  destruct (strMatch false l s) as [s'|] eqn:E; [|discriminate].
  intros _. apply startsWith_spec. exists s'. now apply strMatch_exact.
Qed.

Lemma searchFrom_literal (total : nat) (l : jsstring) (r : regex)
      (s : jsstring) (m : mres) :
  searchFrom false total (Seq (Str l) r) s = Some m -> includes s l = true.
Proof.
  induction s as [|c s IH]; simpl.
  - destruct (matchAt false total (Seq (Str l) r) []) eqn:E; [|discriminate].
    intros _. apply matchAt_literal in E. now rewrite E.
  - destruct (matchAt false total (Seq (Str l) r) (c :: s)) eqn:E.
    + intros _. apply matchAt_literal in E. now rewrite E.
    + intros E'. rewrite (IH E'). apply orb_true_r.
Qed.

(** ** First-wins merge of the course fields *)

(** The test [content.includes('<label>:')] never decides: a page that has
    no such text has no match of the field pattern either. *)
Lemma pickInfo_spec (G : Glyphs) (label current content : jsstring) :
  pickInfo G label current content =
  if truthy current then current
  else offered G notSpecified label content.
Proof.
  unfold pickInfo, offered.
  destruct (truthy current) eqn:T; simpl.
  - now rewrite andb_false_r.
  - apply truthy_false in T. subst current. rewrite andb_true_r.
    destruct (includes content (label ++ u16 ":")) eqn:I.
    + destruct (exec false (infoRegex G label) content) as [m|]; [|reflexivity].
      destruct (m_group m) as [g|]; [|reflexivity].
      now destruct (includes g notSpecified).
    + destruct (exec false (infoRegex G label) content) as [m|] eqn:E;
        [|reflexivity].
      exfalso. unfold exec, infoRegex in E. simpl in E.
      apply searchFrom_literal in E.
      assert (L : label ++ u16 ": " = (label ++ u16 ":") ++ u16 " ")
        by now rewrite <- app_assoc.
      rewrite L in E. apply includes_longer in E. congruence.
Qed.

Lemma mergePage_field (G : Glyphs) (f : field) (acc : merged) (p : page) :
  getField f (info (mergePage G acc p)) =
  pickInfo G (mergeLabel f) (getField f (info acc)) (plain_text (data p)).
Proof. destruct f; reflexivity. Qed.

Lemma fold_field (G : Glyphs) (f : field) (pages : list page) (acc : merged) :
  getField f (info (fold_left (mergePage G) pages acc)) =
  if truthy (getField f (info acc)) then getField f (info acc)
  else firstOffer G notSpecified (mergeLabel f) (texts pages).
Proof.
  revert acc. induction pages as [|p pages IH]; intros acc; simpl.
  - destruct (truthy _) eqn:T; [reflexivity|]. now apply truthy_false in T.
  - rewrite IH, mergePage_field, pickInfo_spec.
    destruct (truthy (getField f (info acc))) eqn:T.
    + now rewrite T.
    + unfold firstOffer. simpl.
      now destruct (truthy (offered G notSpecified (mergeLabel f) _)).
Qed.

Lemma pagesAB_professor :
  professor (info (mergePages glyphs (pagesAB glyphs))) = u16 "Dr. A" /\
  professor (info (mergePages glyphs1252 (pagesAB glyphs1252))) = u16 "Dr. A".
Proof. split; vm_compute; reflexivity. Qed.

(** C1, as stated with the placeholder sentinel, fails: a first page whose
    professor line reads "Not specified" offers a non-empty value that
    does not contain "Not specified in document", and yet the second
    page's "Dr. B" is the merged professor. *)
Lemma C1_placeholder_counterexample :
  ~ firstWins glyphs placeholder (pagesUnspecified glyphs) /\
  ~ firstWins glyphs1252 placeholder (pagesUnspecified glyphs1252) /\
  professor (info (mergePages glyphs (pagesUnspecified glyphs))) = u16 "Dr. B" /\
  firstOffer glyphs placeholder (mergeLabel FProfessor)
             (texts (pagesUnspecified glyphs)) = u16 "Not specified".
Proof.
  split; [|split; [|split; vm_compute; reflexivity]];
    intros W; specialize (W FProfessor); vm_compute in W; discriminate.
Qed.

(** C1 (amended): for every list of pages, each of the five course fields
    is the first non-empty value offered by a page, in list order, among
    the values that do not contain the phrase "Not specified"; a field
    that is set is never changed by later pages; pages naming "Dr. A" and
    then "Dr. B" merge to "Dr. A". *)
Theorem C1_first_wins :
  forall (G : Glyphs) (pages : list page),
    firstWins G notSpecified pages /\
    (forall (more : list page) (f : field),
        truthy (getField f (info (mergePages G pages))) = true ->
        getField f (info (mergePages G (pages ++ more))) =
        getField f (info (mergePages G pages))) /\
    professor (info (mergePages glyphs (pagesAB glyphs))) = u16 "Dr. A" /\
    professor (info (mergePages glyphs1252 (pagesAB glyphs1252))) = u16 "Dr. A".
Proof.
  intros G pages. split; [|split; [|exact pagesAB_professor]].
  - intros f. unfold mergePages. rewrite fold_field. now destruct f.
  - intros more f T. unfold mergePages in *.
    now rewrite fold_left_app, fold_field, T.
Qed.

Lemma C1_witness :
  truthy (getField FProfessor (info (mergePages glyphs (pagesAB glyphs)))) = true /\
  getField FProfessor
           (info (mergePages glyphs (pagesAB glyphs ++ pagesUnspecified glyphs))) =
  getField FProfessor (info (mergePages glyphs (pagesAB glyphs))).
Proof.
  split; [reflexivity|].
  apply (proj1 (proj2 (C1_first_wins glyphs (pagesAB glyphs)))).
  reflexivity.
Defined.

(** ** Independence of the page numbers *)

Lemma mergePage_text (G : Glyphs) (acc : merged) (p q : page) :
  plain_text (data p) = plain_text (data q) ->
  mergePage G acc p = mergePage G acc q.
Proof. intros E. unfold mergePage. now rewrite E. Qed.

Lemma fold_texts (G : Glyphs) (pages pages' : list page) (acc : merged) :
  texts pages = texts pages' ->
  fold_left (mergePage G) pages acc = fold_left (mergePage G) pages' acc.
Proof.
  revert pages' acc.
  induction pages as [|p pages IH]; intros [|q pages'] acc E;
    try discriminate; [reflexivity|].
  simpl in *. injection E as E1 E2.
  rewrite (mergePage_text G acc p q E1). now apply IH.
Qed.

(** C10: two lists of pages whose texts agree position by position give
    the same accumulators and the same combined result, whatever their
    page numbers. *)
Theorem C10_page_numbers_ignored :
  forall (G : Glyphs) (pages pages' : list page),
    texts pages = texts pages' ->
    mergePages G pages = mergePages G pages' /\
    combineAllResults G pages = combineAllResults G pages'.
Proof.
  intros G pages pages' E.
  assert (M : mergePages G pages = mergePages G pages')
    by (unfold mergePages; now apply fold_texts).
  split; [exact M|]. unfold combineAllResults. now rewrite M.
Qed.

Lemma C10_witness :
  texts (pagesAB glyphs) =
  texts [mkPage 9 (plain_text (data (nth 0 (pagesAB glyphs) (mkPage 0 []))));
         mkPage 4 (plain_text (data (nth 1 (pagesAB glyphs) (mkPage 0 []))))] /\
  combineAllResults glyphs (pagesAB glyphs) =
  combineAllResults glyphs
    [mkPage 9 (plain_text (data (nth 0 (pagesAB glyphs) (mkPage 0 []))));
     mkPage 4 (plain_text (data (nth 1 (pagesAB glyphs) (mkPage 0 []))))].
Proof.
  split; [reflexivity|].
  apply (C10_page_numbers_ignored glyphs (pagesAB glyphs)). reflexivity.
Defined.

(** ** Union without duplicates of the list categories *)

Lemma mergePage_list (G : Glyphs) (c : category) (acc : merged) (p : page) :
  getList c (mergePage G acc p) =
  pushUnique (getList c acc)
             (extractBulletPoints G (plain_text (data p)) (sectionTitle c)).
Proof. destruct c; reflexivity. Qed.

Lemma fold_list (G : Glyphs) (c : category) (pages : list page) (acc : merged) :
  getList c (fold_left (mergePage G) pages acc) =
  pushUnique (getList c acc)
             (flat_map (fun t => extractBulletPoints G t (sectionTitle c))
                       (texts pages)).
Proof.
  revert acc. induction pages as [|p pages IH]; intros acc; simpl.
  - reflexivity.
  - now rewrite IH, mergePage_list, pushUnique_app.
Qed.

Lemma pagesOctober_dates :
  testDates (mergePages glyphs (pagesOctober glyphs)) =
    [u16 "Oct 01"; u16 "Oct 15"] /\
  testDates (mergePages glyphs1252 (pagesOctober glyphs1252)) =
    [u16 "Oct 01"; u16 "Oct 15"].
Proof. split; vm_compute; reflexivity. Qed.

(** C5, as stated, fails on its example: "Oct 1" has five units, so the
    extractor drops it on both pages and the merged exam dates are
    ["Oct 15"] alone. *)
Lemma C5_oct_1_counterexample :
  testDates (mergePages glyphs (pagesOct glyphs)) = [u16 "Oct 15"] /\
  testDates (mergePages glyphs (pagesOct glyphs)) <> [u16 "Oct 1"; u16 "Oct 15"] /\
  testDates (mergePages glyphs1252 (pagesOct glyphs1252)) = [u16 "Oct 15"].
Proof. repeat split; vm_compute; try reflexivity; discriminate. Qed.

(** C5 (amended): for every list of pages and each of the five list
    categories, the merged list is the list of first occurrences, in page
    order and in the order within each page, of the entries the extractor
    returns for the pages; it holds no entry twice; further pages only
    append entries that are not in it yet; the loop itself merges the
    lists "Oct 1" and "Oct 1", "Oct 15" to "Oct 1", "Oct 15", and pages
    listing "Oct 01" and then "Oct 01", "Oct 15" merge to "Oct 01",
    "Oct 15". *)
Theorem C5_union_without_duplicates :
  forall (G : Glyphs) (pages : list page) (c : category),
    getList c (mergePages G pages) =
      firstOccurrences
        (flat_map (fun t => extractBulletPoints G t (sectionTitle c))
                  (texts pages)) /\
    NoDup (getList c (mergePages G pages)) /\
    (forall more : list page,
        exists added,
          getList c (mergePages G (pages ++ more)) =
            getList c (mergePages G pages) ++ added /\
          forall x, In x added -> ~ In x (getList c (mergePages G pages))) /\
    pushUnique (pushUnique [] [u16 "Oct 1"]) [u16 "Oct 1"; u16 "Oct 15"] =
      [u16 "Oct 1"; u16 "Oct 15"] /\
    testDates (mergePages glyphs (pagesOctober glyphs)) =
      [u16 "Oct 01"; u16 "Oct 15"] /\
    testDates (mergePages glyphs1252 (pagesOctober glyphs1252)) =
      [u16 "Oct 01"; u16 "Oct 15"].
Proof.
  intros G pages c.
  assert (E : getList c (mergePages G pages) =
              firstOccurrences
                (flat_map (fun t => extractBulletPoints G t (sectionTitle c))
                          (texts pages))).
  { unfold mergePages. rewrite fold_list.
    destruct c; simpl; apply uniq_spec. }
  split; [exact E|]. split; [rewrite E; apply firstOccurrences_NoDup|].
  split; [|split; [reflexivity | exact pagesOctober_dates]].
  intros more. unfold mergePages in *.
  rewrite fold_left_app, fold_list, pushUnique_spec.
  eexists. split; [reflexivity|].
  intros x Hin. apply firstOccurrences_In, filter_In in Hin.
  destruct Hin as [_ Hn]. apply negb_true_iff in Hn.
  intros Hx. apply arrIncludes_In in Hx. congruence.
Qed.

Lemma C5_witness :
  getList CTestDates (mergePages glyphs (pagesOctober glyphs ++ pagesOct glyphs)) =
  getList CTestDates (mergePages glyphs (pagesOctober glyphs)) ++ [] /\
  NoDup (getList CTestDates (mergePages glyphs (pagesOctober glyphs))).
Proof.
  split; [vm_compute; reflexivity|].
  exact (proj1 (proj2 (C5_union_without_duplicates
                         glyphs (pagesOctober glyphs) CTestDates))).
Defined.

(** ** What a bullet entry is *)

Lemma includes_trans (a b c : jsstring) :
  includes a b = true -> includes b c = true -> includes a c = true.
Proof.
  rewrite !includes_spec. intros (p & q & ->) (p' & q' & ->).
  exists (p ++ p'), (q' ++ q). now rewrite <- !app_assoc.
Qed.

Lemma includes_forallb (p : N -> bool) (s e : jsstring) :
  includes s e = true -> forallb p s = true -> forallb p e = true.
Proof.
  rewrite includes_spec. intros (a & b & ->).
  rewrite !forallb_app, !andb_true_iff. tauto.
Qed.

Lemma forallb_pointwise {A : Type} (p q : A -> bool) :
  (forall x, p x = q x) -> forall l, forallb p l = forallb q l.
Proof.
  intros E l. induction l as [|x l IH]; simpl; [reflexivity|].
  now rewrite E, IH.
Qed.

Lemma dropWhile_suffix (p : N -> bool) (s : jsstring) : suffix (dropWhile p s) s.
Proof.
  induction s as [|c s IH]; simpl; [apply suffix_refl|].
  destruct (p c); [|apply suffix_refl].
  apply (suffix_trans _ s); [assumption | now exists [c]].
Qed.

Lemma dropWhile_all (p : N -> bool) (a b : jsstring) :
  forallb p a = true -> dropWhile p (a ++ b) = dropWhile p b.
Proof.
  induction a as [|c a IH]; simpl; [reflexivity|].
  intros E. apply andb_true_iff in E as [E1 E2]. rewrite E1. now apply IH.
Qed.

(** trim returns a piece of its argument. *)
Lemma trim_includes (s : jsstring) : includes s (trim s) = true.
Proof.
  unfold trim, trimStart, trimEnd.
  destruct (dropWhile_suffix isSpace s) as [a Ea].
  destruct (dropWhile_suffix isSpace (rev (dropWhile isSpace s))) as [b Eb].
  apply includes_spec. exists a, (rev b).
  rewrite Ea at 1. f_equal.
  rewrite <- (rev_involutive (dropWhile isSpace s)) at 1.
  rewrite Eb at 1. now rewrite rev_app_distr.
Qed.

Lemma trim_leading (ws t : jsstring) :
  forallb isSpace ws = true -> trim (ws ++ t) = trim t.
Proof. intros E. unfold trim, trimStart. now rewrite dropWhile_all. Qed.

Lemma trim_dropWhile (t : jsstring) : trim (dropWhile isSpace t) = trim t.
Proof. unfold trim, trimStart. now rewrite dropWhile_idem. Qed.

Lemma literal_lang (l w : jsstring) :
  Forall2 (fun p x => unitMatch false p x = true) l w -> w = l.
Proof.
  induction 1 as [|p x l w U F IH]; [reflexivity|].
  unfold unitMatch in U. apply N.eqb_eq in U. congruence.
Qed.

Lemma class_star_lang (ic neg : bool) (items : list citem) (ws : list jsstring) :
  Forall (lang ic (Cls neg items)) ws ->
  forallb (clsMatch ic neg items) (concat ws) = true.
Proof.
  induction 1 as [|w ws (x & -> & C) F IH]; simpl; [reflexivity|].
  now rewrite C, IH.
Qed.

(** A match of the bullet pattern is the marker, a run of white space and
    a non-empty text without a newline. *)
Lemma bulletRe_lang (G : Glyphs) (b : jsstring) :
  lang false (bulletRe G) b ->
  exists ws body,
    b = bullet G ++ ws ++ body /\
    forallb isSpace ws = true /\
    body <> [] /\
    forallb (fun c => negb (c =? NL)%N) body = true.
Proof.
  unfold bulletRe, seqs, Plus, noneOf, space. cbn [fold_right lang map].
  intros (w1 & w2 & -> & L1 & w3 & w4 & -> & (ws & -> & Fs) & w5 & w6 & -> &
          (w7 & w8 & -> & (x & -> & Cx) & (ns & -> & Fn)) & L6).
  apply literal_lang in L1. subst w1. inversion L6. subst w6.
  apply class_star_lang in Fs, Fn.
  exists (concat ws), ([x] ++ concat ns). rewrite app_nil_r.
  split; [reflexivity|]. split.
  - rewrite <- Fs. apply forallb_pointwise. intros c.
    unfold clsMatch. simpl. now rewrite orb_false_r.
  - split; [discriminate|].
    assert (Q : forall c, clsMatch false true [CUnit NL] c = negb (c =? NL)%N).
    { intros c. unfold clsMatch, unitMatch. simpl.
      now rewrite orb_false_r, N.eqb_sym. }
    simpl. rewrite <- Q, Cx. simpl. rewrite <- Fn.
    apply forallb_pointwise. intros c. now rewrite Q.
Qed.

Lemma strMatch_self (l t : jsstring) : strMatch false l (l ++ t) = Some t.
Proof.
  induction l as [|p l IH]; simpl; [reflexivity|].
  unfold unitMatch. now rewrite N.eqb_refl.
Qed.

Lemma star_greedy_step (R : Type) (atom : matcher R) (n : nat) (s : jsstring)
      (cap : option jsstring) (k : cont R) :
  star true atom (S n) s cap k =
  orTry (atom s cap
              (fun s' cap' =>
                 if Nat.ltb (length s') (length s)
                 then star true atom n s' cap' k else None))
        (k s cap).
Proof. reflexivity. Qed.

Lemma run_space (ic : bool) (total : nat) (R : Type) (s : jsstring)
      (cap : option jsstring) (k : cont R) :
  run ic total space s cap k =
  match s with
  | c :: s' => if isSpace c then k s' cap else None
  | [] => None
  end.
Proof.
  destruct s as [|c s]; [reflexivity|]. simpl. unfold clsMatch. simpl.
  now rewrite orb_false_r.
Qed.

(** Greedy [\s*] followed by nothing that can fail takes the whole run of
    white space. *)
Lemma star_space (ic : bool) (total : nat) (R : Type) (k : cont R) (x : R)
      (cap : option jsstring) :
  forall (n : nat) (s : jsstring),
    length s <= n ->
    k (dropWhile isSpace s) cap = Some x ->
    star true (run ic total space) n s cap k = Some x.
Proof.
  induction n as [|n IH]; intros s Hn K.
  - destruct s; [exact K | simpl in Hn; lia].
  - rewrite star_greedy_step, run_space.
    destruct s as [|c s]; [exact K|].
    simpl in K, Hn. destruct (isSpace c); [|exact K].
    replace (Nat.ltb (length s) (length (c :: s))) with true
      by (symmetry; apply Nat.ltb_lt; simpl; lia).
    rewrite (IH s); [reflexivity | lia | exact K].
Qed.

Lemma searchFrom_here (ic : bool) (total : nat) (re : regex) (s : jsstring)
      (m : mres) :
  matchAt ic total re s = Some m -> searchFrom ic total re s = Some m.
Proof. intros E. destruct s; simpl; now rewrite E. Qed.

(** Stripping the marker and trimming: what follows the marker, trimmed. *)
Lemma cleanBullet_spec (G : Glyphs) (t : jsstring) :
  cleanBullet G (bullet G ++ t) = trim t.
Proof.
  unfold cleanBullet, removeMatch, exec.
  assert (E : matchAt false (length (bullet G ++ t)) (leadingBulletRe G)
                      (bullet G ++ t) =
              Some (MRes 0
                         (firstn (length (bullet G ++ t) -
                                  length (dropWhile isSpace t)) (bullet G ++ t))
                         None (dropWhile isSpace t))).
  { unfold matchAt, leadingBulletRe, seqs. cbn [fold_right run].
    rewrite Nat.eqb_refl, strMatch_self.
    apply star_space; [apply le_n|]. simpl. now rewrite Nat.sub_diag. }
  rewrite (searchFrom_here _ _ _ _ _ E). simpl. apply trim_dropWhile.
Qed.

(** Every cleaned bullet line of a block is the trimmed text of a line of
    the block: a piece of the block, trimmed, without a newline. *)
Lemma bulletEntries_line (G : Glyphs) (block e : jsstring) :
  In e (bulletEntries G block) ->
  includes block e = true /\
  trim e = e /\
  forallb (fun c => negb (c =? NL)%N) e = true.
Proof.
  unfold bulletEntries. rewrite in_map_iff. intros (b & <- & Hb).
  pose proof (matchAll_sound false (bulletRe G) block b Hb) as Ib.
  apply matchAll_lang, bulletRe_lang in Hb.
  destruct Hb as (ws & body & -> & Ws & _ & Nb).
  rewrite cleanBullet_spec, (trim_leading ws body Ws).
  split; [|split; [apply trim_idem|]].
  - apply (includes_trans _ _ _ Ib).
    apply includes_after, includes_after, trim_includes.
  - apply (includes_forallb _ body); [apply trim_includes | exact Nb].
Qed.

(** The block of a section is a piece of the text. *)
Lemma sectionBlock_includes (G : Glyphs) (content title block : jsstring) :
  sectionBlock G content title = Some block -> includes content block = true.
Proof.
  unfold sectionBlock.
  destruct (exec true (sectionRegex G title) content) as [m|] eqn:E;
    [|discriminate].
  apply exec_sound in E. destruct E as [_ C].
  destruct (m_group m) as [g|]; intros K; injection K as <-.
  - exact C.
  - now destruct content.
Qed.

(** ** The section block without the matcher *)

Lemma canon_newline (x : N) : (canon NL =? canon x)%N = (x =? NL)%N.
Proof.
  change (canon NL) with 10%N. unfold NL.
  destruct (N.eqb_spec x 10) as [-> | N0]; [reflexivity|].
  apply N.eqb_neq. intros E. unfold canon, isLowerAscii in E.
  destruct ((97 <=? x) && (x <=? 122))%N eqn:A.
  { apply andb_true_iff in A. destruct A as (A1 & A2).
    apply N.leb_le in A1, A2. lia. }
  destruct ((224 <=? x) && (x <=? 254) && negb (x =? 247))%N eqn:B.
  { rewrite !andb_true_iff in B. destruct B as ((B1 & B2) & B3).
    apply N.leb_le in B1. lia. }
  destruct (x =? 255)%N; [lia|]. destruct (x =? 353)%N; [lia|].
  destruct (x =? 382)%N; [lia|]. now elim N0.
Qed.

Lemma afterTitle_strMatch (title s : jsstring) :
  strMatch true title s = afterTitle title s.
Proof.
  revert s. induction title as [|p l IH]; intros s; [reflexivity|].
  destruct s as [|x s]; [reflexivity|]. simpl. unfold unitMatch.
  destruct (canon p =? canon x)%N; [apply IH | reflexivity].
Qed.

Lemma star_space_nil (ic : bool) (total : nat) (R : Type) (n : nat)
      (cap : option jsstring) (k : cont R) :
  star true (run ic total space) n [] cap k = k [] cap.
Proof. destruct n; reflexivity. Qed.

Lemma star_space_cons (ic : bool) (total : nat) (R : Type) (n : nat)
      (x : N) (s : jsstring) (cap : option jsstring) (k : cont R) :
  star true (run ic total space) (S n) (x :: s) cap k =
  if isSpace x
  then orTry (star true (run ic total space) n s cap k) (k (x :: s) cap)
  else k (x :: s) cap.
Proof.
  rewrite star_greedy_step, run_space.
  destruct (isSpace x); [|reflexivity].
  replace (Nat.ltb (length s) (length (x :: s))) with true
    by (symmetry; apply Nat.ltb_lt; simpl; lia).
  reflexivity.
Qed.

Lemma existsb_map {A B : Type} (f : B -> bool) (g : A -> B) (l : list A) :
  existsb f (map g l) = existsb (fun a => f (g a)) l.
Proof. induction l as [|a l IH]; simpl; [reflexivity | now rewrite IH]. Qed.

Lemma oneOf_glyphUnit (G : Glyphs) (x : N) :
  clsMatch true false (map CUnit (sectionGlyphs G)) x = glyphUnit G x.
Proof. unfold clsMatch, glyphUnit. simpl. now rewrite existsb_map. Qed.

(** The white space and the glyph of the look-ahead. *)
Lemma glyph_star (G : Glyphs) (total : nat) (cap : option jsstring) :
  forall (n : nat) (s : jsstring),
    length s <= n ->
    star true (run true total space) n s cap
         (fun s1 cap1 =>
            run true total (oneOf (sectionGlyphs G)) s1 cap1
                (fun s2 cap2 =>
                   run true total (Str []) s2 cap2 (fun _ c => Some c))) =
    if glyphAfterSpaces G s then Some cap else None.
Proof.
  induction n as [|n IH]; intros s L.
  - destruct s; [reflexivity | simpl in L; lia].
  - destruct s as [|x s]; [reflexivity|].
    rewrite star_space_cons, IH by (simpl in L; lia).
    cbn [glyphAfterSpaces]. unfold oneOf. cbn [run strMatch].
    rewrite oneOf_glyphUnit.
    destruct (isSpace x), (glyphAfterSpaces G s), (glyphUnit G x); reflexivity.
Qed.

(** The look-ahead of the section pattern. *)
Lemma sectionEnd_run (G : Glyphs) (total : nat) (R : Type) (s : jsstring)
      (cap : option jsstring) (k : cont R) :
  run true total (sectionEnd G) s cap k =
  if atSectionEnd G s then k s cap else None.
Proof.
  unfold sectionEnd, seqs. cbn [fold_right run].
  destruct s as [|x s]; [reflexivity|].
  cbn [strMatch atSectionEnd]. unfold unitMatch. rewrite canon_newline.
  destruct (x =? NL)%N; [|reflexivity].
  rewrite glyph_star by apply le_n. cbn [andb].
  now destruct (glyphAfterSpaces G s).
Qed.

Lemma anyUnit_run (ic : bool) (total : nat) (R : Type) (x : N) (s : jsstring)
      (cap : option jsstring) (k : cont R) :
  run ic total anyUnit (x :: s) cap k = k s cap.
Proof.
  unfold anyUnit. cbn [run]. unfold clsMatch. simpl.
  now destruct (isSpace x).
Qed.

(** The lazy run of the block stops at the first place where the block
    can end. *)
Lemma lazy_until (G : Glyphs) (ic : bool) (total : nat) (R : Type)
      (cap : option jsstring) (k : cont R) :
  (forall s, atSectionEnd G s = false -> k s cap = None) ->
  (forall s, atSectionEnd G s = true -> k s cap <> None) ->
  forall (n : nat) (s : jsstring),
    length s <= n ->
    star false (run ic total anyUnit) n s cap k =
    k (skipn (length (untilSectionEnd G s)) s) cap.
Proof.
  intros K0 K1. induction n as [|n IH]; intros s L.
  - destruct s; [reflexivity | simpl in L; lia].
  - destruct s as [|x s].
    + simpl. destruct (k [] cap) eqn:E; [reflexivity|].
      now elim (K1 [] eq_refl).
    + cbn [star]. cbn [untilSectionEnd].
      destruct (atSectionEnd G (x :: s)) eqn:A.
      * cbn [length skipn]. destruct (k (x :: s) cap) eqn:E; [reflexivity|].
        now elim (K1 _ A).
      * rewrite (K0 _ A). cbn [orTry length skipn].
        rewrite anyUnit_run. cbn [length].
        rewrite (proj2 (Nat.ltb_lt (length s) (S (length s)))
                       (Nat.lt_succ_diag_r _)).
        apply IH. simpl in L. lia.
Qed.

Lemma untilSectionEnd_split (G : Glyphs) (s : jsstring) :
  s = untilSectionEnd G s ++ skipn (length (untilSectionEnd G s)) s.
Proof.
  induction s as [|x s IH]; [reflexivity|].
  cbn [untilSectionEnd]. destruct (atSectionEnd G (x :: s)); [reflexivity|].
  cbn [length skipn app]. now rewrite <- IH.
Qed.

Lemma firstn_front {A : Type} (a b : list A) :
  firstn (length (a ++ b) - length b) (a ++ b) = a.
Proof.
  rewrite length_app, Nat.add_sub, firstn_app, Nat.sub_diag, firstn_all.
  simpl. apply app_nil_r.
Qed.


Lemma untilSectionEnd_stop (G : Glyphs) (s : jsstring) :
  atSectionEnd G (skipn (length (untilSectionEnd G s)) s) = true.
Proof.
  induction s as [|x s IH]; [reflexivity|]. cbn [untilSectionEnd].
  destruct (atSectionEnd G (x :: s)) eqn:A; [exact A | exact IH].
Qed.

Lemma until_capture (G : Glyphs) (t : jsstring) :
  firstn (length t - length (skipn (length (untilSectionEnd G t)) t)) t =
  untilSectionEnd G t.
Proof.
  pose proof (untilSectionEnd_split G t) as E.
  set (u := untilSectionEnd G t) in *.
  set (r := skipn (length u) t) in *.
  clearbody u r. subst t. apply firstn_front.
Qed.

(** The greedy white space before the newline of the section pattern
    ends at the last newline it holds. *)
Lemma greedy_newline (total : nat) (R : Type) (K : cont R)
      (P : jsstring -> R -> Prop) :
  K [] None = None ->
  (forall x t, x <> NL -> K (x :: t) None = None) ->
  (forall t, exists m, K (NL :: t) None = Some m /\ P t m) ->
  forall (n : nat) (s : jsstring),
    length s <= n ->
    match afterLastNewline s with
    | Some r =>
        exists m, star true (run true total space) n s None K = Some m /\ P r m
    | None => star true (run true total space) n s None K = None
    end.
Proof.
  intros K0 K1 K2. induction n as [|n IH]; intros s L.
  - destruct s; [exact K0 | simpl in L; lia].
  - destruct s as [|x s]; [exact K0|].
    rewrite star_space_cons. cbn [afterLastNewline].
    destruct (isSpace x) eqn:Sx.
    + specialize (IH s ltac:(simpl in L; lia)).
      destruct (afterLastNewline s) as [r|].
      * destruct IH as (m & -> & Pm). now exists m.
      * rewrite IH. cbn [orTry].
        destruct (N.eqb_spec x NL) as [-> | N0]; [apply K2 | now apply K1].
    + apply K1. intros ->. discriminate Sx.
Qed.

(** The section pattern at the front of [s]. *)
Lemma sectionRegex_at (G : Glyphs) (total : nat) (title s : jsstring) :
  match blockAt G title s with
  | Some block =>
      exists m, matchAt true total (sectionRegex G title) s = Some m /\
                m_group m = Some block
  | None => matchAt true total (sectionRegex G title) s = None
  end.
Proof.
  unfold blockAt, matchAt, sectionRegex, seqs. cbn [fold_right run].
  rewrite afterTitle_strMatch.
  destruct (afterTitle title s) as [s1|]; [|reflexivity].
  pose proof (greedy_newline
                total mres
                (fun s' cap' =>
                   match strMatch true [NL] s' with
                   | Some s'0 =>
                       star false (run true total anyUnit) (length s'0) s'0 cap'
                            (fun s'1 _ =>
                               run true total (sectionEnd G) s'1
                                   (Some (firstn (length s'0 - length s'1) s'0))
                                   (fun s'2 cap'0 =>
                                      match strMatch true [] s'2 with
                                      | Some s'3 =>
                                          Some (MRes (total - length s)
                                                     (firstn (length s - length s'3) s)
                                                     cap'0 s'3)
                                      | None => None
                                      end))
                   | None => None
                   end)
                (fun r m => m_group m = Some (untilSectionEnd G r))) as Q.
  cbn beta in Q.
  specialize (Q eq_refl).
  assert (Q1 : forall x t, x <> NL ->
                 match strMatch true [NL] (x :: t) with
                 | Some s'0 =>
                     star false (run true total anyUnit) (length s'0) s'0 None
                          (fun s'1 _ =>
                             run true total (sectionEnd G) s'1
                                 (Some (firstn (length s'0 - length s'1) s'0))
                                 (fun s'2 cap'0 =>
                                    match strMatch true [] s'2 with
                                    | Some s'3 =>
                                        Some (MRes (total - length s)
                                                   (firstn (length s - length s'3) s)
                                                   cap'0 s'3)
                                    | None => None
                                    end))
                 | None => None
                 end = None).
  { intros x t N0. cbn [strMatch]. unfold unitMatch. rewrite canon_newline.
    apply N.eqb_neq in N0. now rewrite N0. }
  specialize (Q Q1). clear Q1.
  assert (Q2 : forall t, exists m,
                 match strMatch true [NL] (NL :: t) with
                 | Some s'0 =>
                     star false (run true total anyUnit) (length s'0) s'0 None
                          (fun s'1 _ =>
                             run true total (sectionEnd G) s'1
                                 (Some (firstn (length s'0 - length s'1) s'0))
                                 (fun s'2 cap'0 =>
                                    match strMatch true [] s'2 with
                                    | Some s'3 =>
                                        Some (MRes (total - length s)
                                                   (firstn (length s - length s'3) s)
                                                   cap'0 s'3)
                                    | None => None
                                    end))
                 | None => None
                 end = Some m /\ m_group m = Some (untilSectionEnd G t)).
  { intros t. cbn [strMatch]. unfold unitMatch. rewrite canon_newline.
    rewrite N.eqb_refl.
    rewrite (lazy_until G true total); [| | |apply le_n].
    - rewrite sectionEnd_run, untilSectionEnd_stop. cbn [strMatch].
      eexists. split; [reflexivity|]. cbn [m_group]. now rewrite until_capture.
    - intros s0 A. now rewrite sectionEnd_run, A.
    - intros s0 A. rewrite sectionEnd_run, A. discriminate. }
  specialize (Q Q2 (length s1) s1 (le_n _)).
  destruct (afterLastNewline s1) as [r|]; exact Q.
Qed.

(** The section pattern finds the block of the scan. *)
Lemma sectionRegex_search (G : Glyphs) (total : nat) (title s : jsstring) :
  match findBlock G title s with
  | Some block =>
      exists m, searchFrom true total (sectionRegex G title) s = Some m /\
                m_group m = Some block
  | None => searchFrom true total (sectionRegex G title) s = None
  end.
Proof.
  induction s as [|x s IH].
  - cbn [findBlock searchFrom].
    pose proof (sectionRegex_at G total title []) as A.
    destruct (blockAt G title []) as [b|].
    + destruct A as (m & -> & Gm). now exists m.
    + now rewrite A.
  - cbn [findBlock searchFrom].
    pose proof (sectionRegex_at G total title (x :: s)) as A.
    destruct (blockAt G title (x :: s)) as [b|].
    + destruct A as (m & -> & Gm). now exists m.
    + rewrite A. exact IH.
Qed.

Lemma sectionBlock_findBlock (G : Glyphs) (content title : jsstring) :
  sectionBlock G content title = findBlock G title content.
Proof.
  unfold sectionBlock, exec.
  pose proof (sectionRegex_search G (length content) title content) as S.
  destruct (findBlock G title content) as [b|].
  - destruct S as (m & -> & ->). reflexivity.
  - now rewrite S.
Qed.


(** ** The bullet lines without the matcher *)

Lemma strMatch_startsWith (l s : jsstring) :
  strMatch false l s =
  if startsWith l s then Some (skipn (length l) s) else None.
Proof.
  revert s. induction l as [|p l IH]; intros s; [reflexivity|].
  destruct s as [|x s]; [reflexivity|]. cbn [strMatch startsWith length skipn].
  unfold unitMatch. destruct (p =? x)%N; [apply IH | reflexivity].
Qed.

Lemma noneOf_newline_run (total : nat) (R : Type) (s : jsstring)
      (cap : option jsstring) (k : cont R) :
  run false total (noneOf [NL]) s cap k =
  match s with
  | x :: s' => if (x =? NL)%N then None else k s' cap
  | [] => None
  end.
Proof.
  destruct s as [|x s]; [reflexivity|]. unfold noneOf. cbn [run map].
  unfold clsMatch. cbn [existsb itemMatch]. unfold unitMatch.
  rewrite orb_false_r, N.eqb_sym. now destruct (x =? NL)%N.
Qed.

(** Greedy [[^\n]*] followed by nothing that can fail runs to the end of
    the line. *)
Lemma star_line (total : nat) (R : Type) (k : cont R) (y : R)
      (cap : option jsstring) :
  forall (n : nat) (s : jsstring),
    length s <= n ->
    k (fromNewline s) cap = Some y ->
    star true (run false total (noneOf [NL])) n s cap k = Some y.
Proof.
  induction n as [|n IH]; intros s L K.
  - destruct s; [exact K | simpl in L; lia].
  - rewrite star_greedy_step, noneOf_newline_run.
    destruct s as [|x s]; [exact K|].
    cbn [fromNewline] in K. destruct (x =? NL)%N; [exact K|].
    cbn [length].
    rewrite (proj2 (Nat.ltb_lt (length s) (S (length s)))
                   (Nat.lt_succ_diag_r _)).
    rewrite (IH s); [reflexivity | simpl in L; lia | exact K].
Qed.

(** The greedy white space after the marker ends as late as a unit other
    than a newline follows. *)
Lemma greedy_line (total : nat) (R : Type) (K : cont R)
      (P : jsstring -> R -> Prop) :
  K [] None = None ->
  (forall t, K (NL :: t) None = None) ->
  (forall x t, x <> NL -> exists m, K (x :: t) None = Some m /\ P (x :: t) m) ->
  forall (n : nat) (s : jsstring),
    length s <= n ->
    match lineStart s with
    | Some r =>
        exists m, star true (run false total space) n s None K = Some m /\ P r m
    | None => star true (run false total space) n s None K = None
    end.
Proof.
  intros K0 K1 K2. induction n as [|n IH]; intros s L.
  - destruct s; [exact K0 | simpl in L; lia].
  - destruct s as [|x s]; [exact K0|].
    rewrite star_space_cons. cbn [lineStart].
    destruct (isSpace x) eqn:Sx.
    + specialize (IH s ltac:(simpl in L; lia)).
      destruct (lineStart s) as [r|].
      * destruct IH as (m & -> & Pm). now exists m.
      * rewrite IH. cbn [orTry].
        destruct (N.eqb_spec x NL) as [-> | N0]; [apply K1 | now apply K2].
    + apply K2. intros ->. discriminate Sx.
Qed.

Lemma lineStart_split (s r : jsstring) :
  lineStart s = Some r ->
  exists pre x t,
    s = pre ++ r /\ forallb isSpace pre = true /\ r = x :: t /\ x <> NL.
Proof.
  revert r. induction s as [|x s IH]; intros r; [discriminate|].
  cbn [lineStart]. destruct (isSpace x) eqn:Sx.
  - destruct (lineStart s) as [r0|].
    + intros [= <-]. destruct (IH r0 eq_refl) as (pre & y & t & -> & F & E & N0).
      exists (x :: pre), y, t. simpl. now rewrite Sx.
    + destruct (N.eqb_spec x NL) as [-> | N0]; [discriminate|].
      intros [= <-]. now exists [], x, s.
  - intros [= <-]. exists [], x, s. repeat split.
    intros ->. discriminate Sx.
Qed.

Lemma line_split (r : jsstring) : r = beforeFirst NL r ++ fromNewline r.
Proof.
  induction r as [|x r IH]; [reflexivity|]. cbn [beforeFirst fromNewline].
  destruct (x =? NL)%N; [reflexivity|]. simpl. now rewrite <- IH.
Qed.

(** The bullet pattern at the front of [s]. *)
Lemma bulletRe_at (G : Glyphs) (total : nat) (s : jsstring) :
  match markedLine G s with
  | Some (line, rest) =>
      exists m, matchAt false total (bulletRe G) s = Some m /\
                cleanBullet G (m_all m) = trim line /\
                m_all m <> [] /\
                m_rest m = rest /\
                length rest < length s
  | None => matchAt false total (bulletRe G) s = None
  end.
Proof.
  unfold markedLine, matchAt, bulletRe, seqs, Plus. cbn [fold_right run].
  rewrite strMatch_startsWith.
  destruct (startsWith (bullet G) s) eqn:B; [|reflexivity].
  apply startsWith_spec in B. destruct B as (s1 & ->).
  rewrite skipn_app, Nat.sub_diag, skipn_all. cbn [skipn app].
  match goal with
  | |- context [star true _ _ _ None ?K] =>
      pose proof (greedy_line
                    total mres K
                    (fun r m =>
                       m_rest m = fromNewline r /\
                       m_all m = firstn (length (bullet G ++ s1) -
                                         length (fromNewline r))
                                        (bullet G ++ s1))) as Q
  end.
  cbn beta in Q. specialize (Q eq_refl).
  match type of Q with
  | ?A -> _ => assert (Q1 : A)
  end.
  { intros t. rewrite noneOf_newline_run. now rewrite N.eqb_refl. }
  specialize (Q Q1). clear Q1.
  match type of Q with
  | ?A -> _ => assert (Q2 : A)
  end.
  { intros x t N0. rewrite noneOf_newline_run.
    apply N.eqb_neq in N0. rewrite N0.
    eexists. split.
    - apply star_line; [apply le_n|]. cbn [strMatch]. reflexivity.
    - cbn [m_rest m_all fromNewline]. rewrite N0. split; reflexivity. }
  specialize (Q Q2 (length s1) s1 (le_n _)). clear Q2.
  destruct (lineStart s1) as [r|] eqn:LS; [|exact Q].
  destruct Q as (m & -> & Mr & Ma). exists m. split; [reflexivity|].
  destruct (lineStart_split s1 r LS) as (pre & x & t & -> & Sp & Er & N0).
  assert (Nl : beforeFirst NL r <> []).
  { rewrite Er. cbn [beforeFirst]. apply N.eqb_neq in N0. rewrite N0.
    discriminate. }
  assert (Ea : m_all m = bullet G ++ pre ++ beforeFirst NL r).
  { rewrite Ma. rewrite (line_split r) at 1 3.
    replace (bullet G ++ pre ++ beforeFirst NL r ++ fromNewline r)
      with ((bullet G ++ pre ++ beforeFirst NL r) ++ fromNewline r)
      by now rewrite <- !app_assoc.
    apply firstn_front. }
  split; [|split; [|split]].
  - rewrite Ea, cleanBullet_spec. now apply trim_leading.
  - rewrite Ea. intros E. apply app_eq_nil in E. destruct E as (_ & E).
    apply app_eq_nil in E. destruct E as (_ & E). now elim Nl.
  - exact Mr.
  - rewrite (line_split r) at 2. rewrite !length_app.
    destruct (beforeFirst NL r); [now elim Nl | simpl; lia].
Qed.

(** The bullet pattern finds the next marked line of the scan. *)
Lemma bulletRe_search (G : Glyphs) (total : nat) (s : jsstring) :
  match nextMarkedLine G s with
  | Some (line, rest) =>
      exists m, searchFrom false total (bulletRe G) s = Some m /\
                cleanBullet G (m_all m) = trim line /\
                m_all m <> [] /\
                m_rest m = rest /\
                length rest < length s
  | None => searchFrom false total (bulletRe G) s = None
  end.
Proof.
  induction s as [|x s IH].
  - cbn [nextMarkedLine searchFrom].
    pose proof (bulletRe_at G total []) as A.
    destruct (markedLine G []) as [[line rest]|].
    + destruct A as (m & -> & A). now exists m.
    + now rewrite A.
  - cbn [nextMarkedLine searchFrom].
    pose proof (bulletRe_at G total (x :: s)) as A.
    destruct (markedLine G (x :: s)) as [[line rest]|].
    + destruct A as (m & -> & A). now exists m.
    + rewrite A. destruct (nextMarkedLine G s) as [[line rest]|]; [|exact IH].
      destruct IH as (m & E & C & N0 & Er & L). exists m.
      repeat split; try assumption. simpl. lia.
Qed.

Lemma bulletEntries_from (G : Glyphs) (total : nat) :
  forall (n : nat) (s : jsstring),
    length s <= n ->
    map (cleanBullet G) (matchAllFrom (S n) false total (bulletRe G) s) =
    markedLinesFrom n G s.
Proof.
  induction n as [|n IH]; intros s L.
  - destruct s; [|simpl in L; lia].
    pose proof (bulletRe_search G total []) as S.
    destruct (nextMarkedLine G []) as [[line rest]|].
    + destruct S as (m & _ & _ & _ & _ & Lr). simpl in Lr. lia.
    + cbn [matchAllFrom]. now rewrite S.
  - cbn [markedLinesFrom].
    change (matchAllFrom (S (S n)) false total (bulletRe G) s)
      with (match searchFrom false total (bulletRe G) s with
            | None => []
            | Some m =>
                m_all m ::
                match m_all m, m_rest m with
                | [], [] => []
                | [], _ :: rest' =>
                    matchAllFrom (S n) false total (bulletRe G) rest'
                | _ :: _, rest =>
                    matchAllFrom (S n) false total (bulletRe G) rest
                end
            end).
    pose proof (bulletRe_search G total s) as S.
    destruct (nextMarkedLine G s) as [[line rest]|].
    + destruct S as (m & -> & C & N0 & <- & Lr).
      destruct (m_all m) as [|c a] eqn:Ea; [now elim N0|].
      cbn [map]. rewrite C. f_equal. apply IH. lia.
    + now rewrite S.
Qed.

(** The cleaned bullet lines of a block are the marked lines of the
    scan. *)
Lemma bulletEntries_markedLines (G : Glyphs) (block : jsstring) :
  bulletEntries G block = markedLines G block.
Proof.
  unfold bulletEntries, matchAll, markedLines.
  apply bulletEntries_from. apply le_n.
Qed.


(** ** The filter of the bullet-section extractor *)

Lemma keepBullet_survives (e : jsstring) : keepBullet e = survives e.
Proof.
  unfold keepBullet, survives, Nat.ltb.
  destruct (Nat.leb 6 (length e)) eqn:L.
  - rewrite andb_true_r. destruct e; [discriminate | reflexivity].
  - now rewrite andb_false_r.
Qed.

Lemma sixAndFive_entries :
  extractBulletPoints glyphs (sixAndFive glyphs) (u16 "TEST DATES") = [u16 "Oct 15"] /\
  extractBulletPoints glyphs1252 (sixAndFive glyphs1252) (u16 "TEST DATES") =
    [u16 "Oct 15"].
Proof. split; vm_compute; reflexivity. Qed.

(** C4, as stated, fails in three ways.  The filter names two fixed
    header texts in upper case and not the section's own: under IMPORTANT
    DATES a bullet that repeats the header is returned, and so is, under a
    header written "Test Dates", the bullet "Test Dates".  The block is
    looked for at the first place where the title text ends a line, which
    need not be the header of the section: a bullet of the text above the
    section that ends in "TEST DATES" makes the lines under that bullet
    the block, and the entry returned is from outside the section.  And a
    marker alone on its line takes the next line as its text, marker
    included. *)
Lemma C4_header_counterexample :
  extractBulletPoints glyphs (echoedHeader glyphs) (u16 "IMPORTANT DATES") =
    [u16 "IMPORTANT DATES"] /\
  extractBulletPoints glyphs1252 (echoedHeader glyphs1252) (u16 "IMPORTANT DATES") =
    [u16 "IMPORTANT DATES"] /\
  extractBulletPoints glyphs (mixedCaseHeader glyphs) (u16 "TEST DATES") =
    [u16 "Test Dates"] /\
  extractBulletPoints glyphs1252 (mixedCaseHeader glyphs1252) (u16 "TEST DATES") =
    [u16 "Test Dates"] /\
  extractBulletPoints glyphs (strayTitle glyphs) (u16 "TEST DATES") =
    [u16 "Something long"] /\
  extractBulletPoints glyphs1252 (strayTitle glyphs1252) (u16 "TEST DATES") =
    [u16 "Something long"] /\
  extractBulletPoints glyphs (loneMarker glyphs) (u16 "TEST DATES") =
    [item glyphs "Final exam"] /\
  extractBulletPoints glyphs1252 (loneMarker glyphs1252) (u16 "TEST DATES") =
    [item glyphs1252 "Final exam"].
Proof. repeat split; vm_compute; reflexivity. Qed.

Lemma short_has_no_phrase (e phrase : jsstring) :
  length e < length phrase -> includes e phrase = false.
Proof.
  intros L. destruct (includes e phrase) eqn:I; [|reflexivity].
  apply includes_length in I. lia.
Qed.

Lemma six_units_survive (e : jsstring) : length e = 6 -> survives e = true.
Proof.
  intros L. unfold survives.
  rewrite !short_has_no_phrase by (rewrite L; vm_compute; lia).
  now rewrite L.
Qed.

(** C4 (amended): for every text and section title, the block is looked
    for at the first place of the text where the title stands, in any
    letter case, followed by white space that holds a newline; it begins
    after the last newline of that white space and ends before the first
    newline that is followed, after white space or none, by a unit of one
    of the six section glyphs, or at the end of the text.  Without such a
    place nothing is returned.  The entries are read from the block left
    to right: after a bullet marker and the white space that follows it,
    line ends included, the text up to the end of the line, trimmed.  The
    extractor returns, in their order, exactly the entries that have at
    least six units and contain neither the placeholder sentinel nor, as
    written, "TEST DATES" nor "ASSIGNMENT DEADLINE" (whatever the
    section).  The block is a piece of the text and every entry is a piece
    of the block, trimmed and without a newline; every entry of exactly
    six units is kept and none of five or fewer. *)
Theorem C4_bullet_filter :
  forall (G : Glyphs) (content title : jsstring),
    extractBulletPoints G content title =
      match findBlock G title content with
      | Some block => filter survives (markedLines G block)
      | None => []
      end /\
    (forall block,
        findBlock G title content = Some block ->
        includes content block = true /\
        (forall e,
            In e (markedLines G block) ->
            includes block e = true /\ trim e = e /\
            forallb (fun c => negb (c =? NL)%N) e = true) /\
        (forall e,
            In e (extractBulletPoints G content title) <->
            In e (markedLines G block) /\
            6 <= length e /\
            includes e placeholder = false /\
            includes e (u16 "TEST DATES") = false /\
            includes e (u16 "ASSIGNMENT DEADLINE") = false) /\
        (forall e,
            In e (markedLines G block) -> length e = 6 ->
            In e (extractBulletPoints G content title))) /\
    (forall e, In e (extractBulletPoints G content title) -> 6 <= length e) /\
    extractBulletPoints glyphs (sixAndFive glyphs) (u16 "TEST DATES") =
      [u16 "Oct 15"] /\
    extractBulletPoints glyphs1252 (sixAndFive glyphs1252) (u16 "TEST DATES") =
      [u16 "Oct 15"].
Proof.
  intros G content title.
  assert (E : extractBulletPoints G content title =
              match findBlock G title content with
              | Some block => filter survives (markedLines G block)
              | None => []
              end).
  { unfold extractBulletPoints. rewrite sectionBlock_findBlock.
    destruct (findBlock G title content) as [block|]; [|reflexivity].
    rewrite <- bulletEntries_markedLines. unfold bulletEntries.
    apply filter_ext. exact keepBullet_survives. }
  assert (Chr : forall block e,
             findBlock G title content = Some block ->
             (In e (extractBulletPoints G content title) <->
              In e (markedLines G block) /\
              6 <= length e /\
              includes e placeholder = false /\
              includes e (u16 "TEST DATES") = false /\
              includes e (u16 "ASSIGNMENT DEADLINE") = false)).
  { intros block e F. rewrite E, F, filter_In. unfold survives.
    rewrite !andb_true_iff, !negb_true_iff, Nat.leb_le. tauto. }
  split; [exact E|]. split; [|split; [|exact sixAndFive_entries]].
  - intros block F.
    split; [apply (sectionBlock_includes G content title);
            now rewrite sectionBlock_findBlock|].
    split; [intros e; rewrite <- bulletEntries_markedLines;
            apply bulletEntries_line|].
    split; [intros e; now apply Chr|].
    intros e Hin L. rewrite E, F, filter_In.
    split; [assumption | now apply six_units_survive].
  - intros e Hin.
    destruct (findBlock G title content) as [block|] eqn:F.
    + now apply (Chr block e eq_refl) in Hin.
    + rewrite E in Hin. destruct Hin.
Qed.

Lemma C4_witness :
  findBlock glyphs (u16 "TEST DATES") (strayTitle glyphs) =
    Some (item glyphs "Something long") /\
  extractBulletPoints glyphs (strayTitle glyphs) (u16 "TEST DATES") =
    filter survives (markedLines glyphs (item glyphs "Something long")).
Proof.
  split; [vm_compute; reflexivity|].
  exact (proj1 (C4_bullet_filter glyphs (strayTitle glyphs) (u16 "TEST DATES"))).
Defined.

(** ** Rendering of empty fields and lists *)

Lemma startsWith_same (a t s : jsstring) :
  startsWith (a ++ t) (a ++ s) = startsWith t s.
Proof.
  induction a as [|x a IH]; simpl; [reflexivity|].
  now rewrite N.eqb_refl.
Qed.

Lemma includes_starts (s t : jsstring) :
  startsWith t s = true -> includes s t = true.
Proof. intros E. destruct s; simpl; now rewrite E. Qed.

Ltac strip :=
  repeat first [ rewrite startsWith_same | progress simpl ]; reflexivity.

Ltac locate :=
  first [ apply includes_starts; solve [strip]
        | apply includes_after; locate ].

Lemma render_empty_field (G : Glyphs) (m : merged) (f : field) :
  getField f (info m) = [] ->
  includes (render G m) (emptyFieldLine G f) = true.
Proof.
  intros E. unfold render, emptyFieldLine.
  destruct f; simpl in E; rewrite E; unfold orElse; simpl truthy; cbv iota;
    locate.
Qed.

Lemma bulletList_nil (G : Glyphs) (shown : list jsstring) :
  bulletList G [] shown = bullet G ++ u16 " " ++ placeholder.
Proof. reflexivity. Qed.

Lemma render_empty_list (G : Glyphs) (m : merged) (c : category) (h : jsstring) :
  heading G c = Some h ->
  getList c m = [] ->
  includes (render G m) (emptyListLines G h) = true.
Proof.
  intros Hh E. unfold render, emptyListLines.
  destruct c; simpl in Hh, E; try discriminate; injection Hh as <-;
    rewrite E, bulletList_nil, <- ?app_assoc; locate.
Qed.

Lemma render_empty_field_as (G : Glyphs) (m : merged) (f : field) :
  getField f (info m) = [] ->
  render G m = render G (setField f notSpecified m).
Proof.
  intros E. unfold render. destruct f; simpl in *; now rewrite E.
Qed.

Lemma render_empty_list_as (G : Glyphs) (m : merged) (c : category) (h : jsstring) :
  heading G c = Some h ->
  getList c m = [] ->
  render G m = render G (setList c [placeholder] m).
Proof.
  intros Hh E. unfold render.
  destruct c; simpl in *; try discriminate; now rewrite E.
Qed.

(** C8, as stated, fails for the fields: with nothing extracted, the
    summary is not the one with the course name "Not specified in
    document", and its Course line is not filled with the sentinel; it
    reads "Not specified". *)
Lemma C8_field_counterexample :
  render glyphs (mergePages glyphs []) <>
    render glyphs (setField FName placeholder (mergePages glyphs [])) /\
  includes (render glyphs (mergePages glyphs [])) (sentinelFieldLine glyphs FName)
    = false /\
  includes (render glyphs (mergePages glyphs [])) (emptyFieldLine glyphs FName)
    = true /\
  includes (render glyphs1252 (mergePages glyphs1252 []))
           (sentinelFieldLine glyphs1252 FName) = false.
Proof.
  split; [|repeat split; vm_compute; reflexivity].
  intros E.
  assert (L : length (render glyphs (mergePages glyphs [])) =
              length (render glyphs (setField FName placeholder
                                              (mergePages glyphs []))))
    by now rewrite E.
  vm_compute in L. discriminate.
Qed.

(** C8 (amended): the rendered summary of a result with an empty course
    field is the summary of the same result with "Not specified" in that
    field, and it contains the line "<bullet> <label>: Not specified"; for
    each of the three printed list categories (exam dates, assignment
    deadlines, important dates), the summary of a result whose list is
    empty is the summary of the same result with the placeholder sentinel
    "Not specified in document" as the only entry, and it contains the
    heading followed by that single bullet; weekly readings and major
    deliverables are not printed at all. *)
Theorem C8_rendering_of_empty_values :
  forall (G : Glyphs) (m : merged),
    (forall f, getField f (info m) = [] ->
               render G m = render G (setField f notSpecified m) /\
               includes (render G m) (emptyFieldLine G f) = true) /\
    (forall c h, heading G c = Some h -> getList c m = [] ->
                 render G m = render G (setList c [placeholder] m) /\
                 includes (render G m) (emptyListLines G h) = true) /\
    (forall readings deliverables,
        render G (withUnprinted m readings deliverables) = render G m).
Proof.
  intros G m. split; [|split].
  - intros f E. split; [now apply render_empty_field_as |
                        now apply render_empty_field].
  - intros c h Hh E. split; [now apply (render_empty_list_as G m c h) |
                             now apply (render_empty_list G m c h)].
  - reflexivity.
Qed.

Lemma C8_witness :
  includes (render glyphs (mergePages glyphs [])) (emptyFieldLine glyphs FEmail)
    = true /\
  includes (render glyphs (mergePages glyphs []))
           (emptyListLines glyphs (memo glyphs ++ u16 " EXAM DATES")) = true.
Proof.
  split.
  - apply (proj1 (C8_rendering_of_empty_values glyphs (mergePages glyphs []))
                 FEmail).
    reflexivity.
  - apply (proj1 (proj2 (C8_rendering_of_empty_values glyphs
                                                      (mergePages glyphs [])))
                 CTestDates).
    + reflexivity.
    + reflexivity.
Defined.

(** ** Type classification *)

Lemma parseAssignmentBullet_type (H : Host) (bullet section : jsstring) :
  type (parseAssignmentBullet H bullet section) = classify bullet section.
Proof.
  unfold parseAssignmentBullet.
  now destruct (scanDates H datePatterns bullet).
Qed.

Lemma classify_rules (bullet section : jsstring) :
  classify bullet section = classifyByRules bullet section.
Proof.
  unfold classify, classifyByRules, rules, find, ruleApplies, existsb.
  destruct (has section "test"), (has section "exam"),
           (has bullet "exam"), (has bullet "test"); try reflexivity;
    destruct (has bullet "assignment"), (has bullet "homework");
    try reflexivity;
    destruct (has bullet "reading"), (has bullet "project"),
             (has bullet "quiz"); reflexivity.
Qed.

Lemma classify_exam_line (section : jsstring) :
  classify (u16 "Final Exam due December 12, 2024") section = Exam.
Proof.
  unfold classify.
  replace (has (u16 "Final Exam due December 12, 2024") "exam") with true
    by (vm_compute; reflexivity).
  now rewrite orb_true_r.
Qed.

Lemma classify_homework_line (section : jsstring) :
  has section "test" = false -> has section "exam" = false ->
  classify (u16 "Homework 2 Due: October 8, 2024") section = Assignment.
Proof.
  intros T E. unfold classify. rewrite T, E.
  vm_compute. reflexivity.
Qed.

Lemma classify_week_line (section : jsstring) :
  classify (u16 "Week 3: Chapter 5-6") section =
  if has section "test" || has section "exam" then Exam else Other.
Proof.
  unfold classify.
  destruct (has section "test"), (has section "exam"); vm_compute; reflexivity.
Qed.

(** C3, as stated, fails on its third example: "Week 3: Chapter 5-6" does
    not contain "reading", and the section name is searched for "test" and
    "exam" only, so even under WEEKLY READINGS the type is "other". *)
Lemma C3_week_counterexample :
  type (parseAssignmentBullet (hostAt 0) (u16 "Week 3: Chapter 5-6")
                              (u16 "WEEKLY READINGS")) = Other /\
  type (parseAssignmentBullet (hostAt 0) (u16 "Week 3: Chapter 5-6")
                              (u16 "WEEKLY READINGS")) <> Reading.
Proof. split; vm_compute; [reflexivity | discriminate]. Qed.

(** C3 (amended): for every bullet line and section name the type is the
    verdict of the first rule that applies, in the order exam (keywords
    "test", "exam", looked for in the line and in the section name),
    assignment ("assignment", "homework"), reading, project, quiz, and
    "other" when none applies, each test being a substring test on the
    lower-cased text; "Final Exam due December 12, 2024" is an exam under
    every section, "Homework 2 Due: October 8, 2024" is an assignment
    under every section whose name has neither "test" nor "exam", and
    "Week 3: Chapter 5-6" is "other" under such a section (an exam under
    the others), never a reading. *)
Theorem C3_type_classification :
  forall (H : Host) (bullet section : jsstring),
    type (parseAssignmentBullet H bullet section) =
      classifyByRules bullet section /\
    type (parseAssignmentBullet H (u16 "Final Exam due December 12, 2024")
                                section) = Exam /\
    (has section "test" = false -> has section "exam" = false ->
     type (parseAssignmentBullet H (u16 "Homework 2 Due: October 8, 2024")
                                 section) = Assignment /\
     type (parseAssignmentBullet H (u16 "Week 3: Chapter 5-6") section) = Other) /\
    type (parseAssignmentBullet H (u16 "Week 3: Chapter 5-6") section) <> Reading.
Proof.
  intros H bullet section. rewrite !parseAssignmentBullet_type.
  split; [apply classify_rules|].
  split; [apply classify_exam_line|].
  rewrite classify_week_line. split.
  - intros T E. split; [now apply classify_homework_line|].
    now rewrite T, E.
  - destruct (has section "test" || has section "exam"); discriminate.
Qed.

Lemma C3_witness :
  has (u16 "ASSIGNMENT DEADLINE") "test" = false /\
  has (u16 "ASSIGNMENT DEADLINE") "exam" = false /\
  type (parseAssignmentBullet (hostAt 0) (u16 "Homework 2 Due: October 8, 2024")
                              (u16 "ASSIGNMENT DEADLINE")) = Assignment /\
  type (parseAssignmentBullet (hostAt 0) (u16 "Week 3: Chapter 5-6")
                              (u16 "ASSIGNMENT DEADLINE")) = Other.
Proof.
  split; [reflexivity|]. split; [reflexivity|].
  apply (proj1 (proj2 (proj2 (C3_type_classification
                                (hostAt 0) [] (u16 "ASSIGNMENT DEADLINE")))));
    reflexivity.
Defined.

(** ** The due date of a bullet line *)

Lemma daysFrom_In (n : nat) (start z : Z) :
  (start <= z < start + Z.of_nat n)%Z -> In z (daysFrom n start).
Proof.
  revert start. induction n as [|n IH]; intros start R; [lia|].
  simpl. destruct (Z.eq_dec start z) as [->|D]; [now left|].
  right. apply IH. lia.
Qed.

(** The two calendar conversions agree on every day from 1970 to 2099. *)
Lemma civil_days_roundtrip (z : Z) :
  (0 <= z < 47482)%Z ->
  let '(y, m, d) := civilFromDays z in daysFromCivil y m d = z.
Proof.
  intros R.
  assert (A : forallb (fun k => let '(y, m, d) := civilFromDays k in
                                Z.eqb (daysFromCivil y m d) k)
                      (daysFrom (Z.to_nat 47482) 0) = true)
    by (vm_compute; reflexivity).
  rewrite forallb_forall in A. specialize (A z).
  destruct (civilFromDays z) as [[y m] d].
  apply Z.eqb_eq, A, daysFrom_In. lia.
Qed.

Lemma digitUnit_range (n : Z) : (48 <= digitUnit n <= 57)%N.
Proof.
  unfold digitUnit.
  pose proof (Z.mod_pos_bound n 10 ltac:(lia)) as B.
  split.
  - change 48%N with (Z.to_N 48). apply Z2N.inj_le; lia.
  - change 57%N with (Z.to_N 57). apply Z2N.inj_le; lia.
Qed.

Lemma pad_digits (w : nat) (n : Z) :
  forallb (fun c => negb (c =? 84)%N) (pad w n) = true.
Proof.
  revert n. induction w as [|w IH]; intros n; simpl; [reflexivity|].
  rewrite forallb_app, IH. simpl.
  pose proof (digitUnit_range n) as B.
  destruct (N.eqb_spec (digitUnit n) 84); [lia | reflexivity].
Qed.

Lemma beforeFirst_app (sep : N) (a r : jsstring) :
  forallb (fun c => negb (c =? sep)%N) a = true ->
  beforeFirst sep (a ++ sep :: r) = a.
Proof.
  induction a as [|c a IH]; simpl.
  - now rewrite N.eqb_refl.
  - intros E. apply andb_true_iff in E as [E1 E2].
    apply negb_true_iff in E1. rewrite E1. now rewrite IH.
Qed.

Lemma isoDay_no_T (c : Z * Z * Z) :
  forallb (fun u => negb (u =? 84)%N) (isoDay c) = true.
Proof.
  destruct c as [[y m] d]. unfold isoDay.
  rewrite !forallb_app, !pad_digits. reflexivity.
Qed.

(** For a valid time value whose UTC year has four digits, the text of
    toISOString before the T is the UTC calendar day of the time value. *)
Lemma toISOString_day (t : Z) :
  (Z.abs t <= 8640000000000000)%Z ->
  (0 <= fst (fst (civilFromDays (t / msPerDay))) <= 9999)%Z ->
  exists iso,
    toISOString (Some t) = Ok iso /\
    beforeFirst 84%N iso = isoDay (civilFromDays (t / msPerDay)).
Proof.
  intros A Y. unfold toISOString.
  apply Z.leb_le in A. rewrite A.
  destruct (civilFromDays (t / msPerDay)) as [[y m] d] eqn:C.
  simpl in Y. destruct Y as [Y0 Y1].
  apply Z.leb_le in Y0, Y1. rewrite Y0, Y1. simpl andb. cbv iota.
  eexists. split; [reflexivity|].
  pose proof (isoDay_no_T (y, m, d)) as NT. unfold isoDay in *.
  match goal with
  | |- beforeFirst _ (?a ++ ?b ++ ?c ++ ?d ++ ?e ++ _ ++ ?r) = _ =>
      transitivity (beforeFirst 84%N ((a ++ b ++ c ++ d ++ e) ++ 84%N :: r));
        [now rewrite <- !app_assoc | now apply beforeFirst_app]
  end.
Qed.

Lemma scanDates_hit (H : Host) (ic : bool) (p : regex)
      (rest : list (bool * regex)) (bullet : jsstring) (m : mres)
      (g iso : jsstring) :
  exec ic p bullet = Some m ->
  m_group m = Some g ->
  toISOString (dateParse H g) = Ok iso ->
  scanDates H ((ic, p) :: rest) bullet =
  (Some (beforeFirst 84%N iso), trim (dropColonsHyphens (removeFirst g bullet))).
Proof.
  intros E Eg Ei. simpl. now rewrite E, Eg, Ei.
Qed.

Lemma scanDates_miss (H : Host) (ic : bool) (p : regex)
      (rest : list (bool * regex)) (bullet : jsstring) :
  exec ic p bullet = None ->
  scanDates H ((ic, p) :: rest) bullet = scanDates H rest bullet.
Proof. intros E. simpl. now rewrite E. Qed.

(** The patterns are tried in order, and the first that matches decides
    when the host reads its match as a date: the due date is then the UTC
    calendar day of the time value the host gives. *)
Lemma scanDates_first_match (H : Host) (before after : list (bool * regex))
      (ic : bool) (p : regex) (bullet : jsstring) (m : mres) (g : jsstring)
      (t : Z) :
  (forall q, In q before -> exec (fst q) (snd q) bullet = None) ->
  exec ic p bullet = Some m ->
  m_group m = Some g ->
  dateParse H g = Some t ->
  (Z.abs t <= 8640000000000000)%Z ->
  (0 <= fst (fst (civilFromDays (t / msPerDay))) <= 9999)%Z ->
  fst (scanDates H (before ++ (ic, p) :: after) bullet) =
  Some (isoDay (civilFromDays (t / msPerDay))).
Proof.
  intros Hb E Eg P A Y.
  induction before as [|[ic' p'] before IH].
  - destruct (toISOString_day t A Y) as (iso & I & B).
    simpl app. rewrite (scanDates_hit H ic p after bullet m g iso E Eg).
    + simpl. now rewrite B.
    + now rewrite P.
  - simpl app. rewrite scanDates_miss.
    + apply IH. intros q Hq. apply Hb. now right.
    + apply (Hb (ic', p')). now left.
Qed.

Lemma midterm_first_pattern :
  exec true monthDayYear midtermLine =
  Some (MRes 8 (u16 "March 15, 2024") (Some (u16 "March 15, 2024"))
             (u16 " (reschedule 3/20/2024)")).
Proof. vm_compute. reflexivity. Qed.

Lemma midterm_day (offset : Z) :
  (-720 <= offset <= 840)%Z ->
  (Z.abs (localMidnight offset 2024 3 15) <= 8640000000000000)%Z /\
  (localMidnight offset 2024 3 15 / msPerDay =
   if 0 <? offset then 19796 else 19797)%Z.
Proof.
  intros R. unfold localMidnight, msPerDay.
  replace (daysFromCivil 2024 3 15) with 19797%Z by (vm_compute; reflexivity).
  split; [lia|].
  destruct (Z.ltb_spec 0 offset).
  - symmetry. apply (Z.div_unique _ _ _ (86400000 - offset * 60000)%Z); lia.
  - symmetry. apply (Z.div_unique _ _ _ (- offset * 60000)%Z); lia.
Qed.

(** C2 (the defect): the first pattern, "Month D, YYYY", decides the date
    of "Midterm March 15, 2024 (reschedule 3/20/2024)", but the day that
    is written is the UTC day of local midnight: on a host whose zone is
    east of Greenwich the due date is 2024-03-14, not the 15th; on a host
    at or west of Greenwich it is 2024-03-15. *)
Theorem C2_due_date_is_the_utc_day :
  forall (H : Host) (offset : Z) (section : jsstring),
    (-720 <= offset <= 840)%Z ->
    dateParse H (u16 "March 15, 2024") = Some (localMidnight offset 2024 3 15) ->
    due_date (parseAssignmentBullet H midtermLine section) =
    Some (if (0 <? offset)%Z then u16 "2024-03-14" else u16 "2024-03-15").
Proof.
  intros H offset section R P.
  destruct (midterm_day offset R) as [A D].
  destruct (toISOString_day (localMidnight offset 2024 3 15) A) as [iso [I B]].
  { rewrite D. destruct (0 <? offset)%Z; vm_compute; split; discriminate. }
  unfold parseAssignmentBullet, datePatterns.
  rewrite (scanDates_hit H true monthDayYear _ midtermLine _
                         (u16 "March 15, 2024") iso midterm_first_pattern
                         eq_refl).
  - simpl. rewrite B, D. now destruct (0 <? offset)%Z.
  - now rewrite P.
Qed.

Lemma C2_witness :
  dateParse (hostAt 60) (u16 "March 15, 2024") =
    Some (localMidnight 60 2024 3 15) /\
  due_date (parseAssignmentBullet (hostAt 60) midtermLine (u16 "TEST DATES")) =
    Some (u16 "2024-03-14").
Proof.
  split; [reflexivity|].
  apply (C2_due_date_is_the_utc_day (hostAt 60) 60 (u16 "TEST DATES")).
  - lia.
  - reflexivity.
Defined.

(** ** Totality of the extractors *)

Lemma firstFieldV_string (G : Glyphs) (patterns : list regex) (s : jsstring) :
  firstFieldV G patterns (VStr s) = Ok (firstField G patterns s).
Proof.
  induction patterns as [|p patterns IH]; simpl; [reflexivity|].
  destruct (exec true p s) as [m|]; [|exact IH].
  destruct (m_group m) as [g|]; [|exact IH].
  destruct (truthy g); [reflexivity | exact IH].
Qed.

Lemma extractFieldV_string (G : Glyphs) (s fieldName : jsstring) :
  extractFieldV G (VStr s) fieldName = Ok (extractField G s fieldName).
Proof. apply firstFieldV_string. Qed.

Lemma sectionsV_string (G : Glyphs) (H : Host) (secs : list jsstring)
      (s : jsstring) :
  sectionsV G H secs (VStr s) = Ok (flat_map (sectionAssignments G H s) secs).
Proof.
  induction secs as [|section secs IH]; simpl; [reflexivity|].
  rewrite IH. simpl. unfold sectionAssignments.
  now destruct (exec true (assignmentSectionRegex G section) s).
Qed.

(** On a string the functions return: the dynamic version agrees with the
    functions on strings. *)
Lemma parseSyllabusDataV_string (G : Glyphs) (H : Host) (s : jsstring) :
  parseSyllabusDataV G H (VStr s) =
  Ok ({| course_nameV := course_name (fst (parseSyllabusData G H s));
         professor_nameV := professor_name (fst (parseSyllabusData G H s));
         professor_emailV := professor_email (fst (parseSyllabusData G H s));
         meeting_daysV := meeting_days (fst (parseSyllabusData G H s));
         office_hoursV := office_hours (fst (parseSyllabusData G H s));
         syllabus_textV := VStr s |},
      snd (parseSyllabusData G H s)).
Proof.
  unfold parseSyllabusDataV, extractAssignmentsV.
  rewrite !extractFieldV_string, sectionsV_string. reflexivity.
Qed.

Lemma extractFieldV_object (G : Glyphs) (fields : list (jsstring * value))
      (fieldName : jsstring) :
  extractFieldV G (VObj fields) fieldName = Throw TypeError.
Proof. reflexivity. Qed.

(** C6 (the defect): on a string the extractors and parseSyllabusData
    return a result, but the route of server.js hands parseSyllabusData
    the object the page analysis returns, and on an object (that one, the
    fallback object of a failed JSON parse, or any other) the first call of
    extractField throws a TypeError.  The other server variant passes the
    object's text when it is not empty and returns.  The worker's
    parseSyllabusData, which reads the properties of the parsed JSON,
    returns on every object and throws on null alone. *)
Theorem C6_object_argument_throws :
  forall (G : Glyphs) (H : Host),
    (forall s, exists r, parseSyllabusDataV G H (VStr s) = Ok r) /\
    (forall fields fieldName,
        extractFieldV G (VObj fields) fieldName = Throw TypeError) /\
    (forall fields, extractAssignmentsV G H (VObj fields) = Throw TypeError) /\
    (forall fields, parseSyllabusDataV G H (VObj fields) = Throw TypeError) /\
    (forall content, scanRoute G H (pageObject content) = Throw TypeError) /\
    (forall content, scanRoute G H (fallbackObject content) = Throw TypeError) /\
    (forall c content,
        exists r, scanRouteText G H (pageObject (c :: content)) = Ok r) /\
    scanRouteText G H (pageObject []) = Throw TypeError /\
    (forall stringify fields,
        exists r, Worker.parseSyllabusData stringify (VObj fields) = Ok r) /\
    (forall stringify,
        Worker.parseSyllabusData stringify VNull = Throw TypeError).
Proof.
  intros G H. repeat split; try reflexivity.
  - intros s. eexists. apply parseSyllabusDataV_string.
  - intros c content. eexists. unfold scanRouteText. simpl.
    apply parseSyllabusDataV_string.
  - intros stringify fields. eexists. reflexivity.
Qed.

(** ** The summary template read back *)

(** C7 (the defect): the labels of the template are not the labels the
    extractors look for.  For a page with the course name CS101, a
    professor, an e-mail address and one exam date, the merged summary
    holds them, but read back from the rendered text the course name, the
    professor and the e-mail address are absent (the template prints
    "Course:", "Professor:", "Email:"; the extractor looks for "Course
    Name", "Professor Name", "Professor Email"), and so is the exam date
    (printed under EXAM DATES, looked for under TEST DATES). *)
Theorem C7_template_not_read_back :
  summaryNotReadBack glyphs /\ summaryNotReadBack glyphs1252.
Proof. split; vm_compute; repeat split; reflexivity. Qed.

(** ** Batch persistence *)

Lemma saveLoop_spec (DB Id A : Type) (readable : A -> bool)
      (insert : DB -> Z -> A -> DB * result Id)
      (courseId : Z) (assignments : list A) :
  forallb readable assignments = true ->
  forall (db : DB) (saved : list Id),
    Store.saveLoop readable insert db courseId assignments saved =
    (Store.afterAll insert db courseId assignments,
     Ok (saved ++ Store.okIds (Store.outcomes insert db courseId assignments))).
Proof.
  induction assignments as [|a rest IH]; intros R db saved.
  - simpl. now rewrite app_nil_r.
  - cbn [forallb] in R. apply andb_true_iff in R. destruct R as (Ra & Rr).
    cbn [Store.saveLoop Store.outcomes Store.afterAll fold_left].
    unfold Store.saveAssignment. rewrite Ra.
    destruct (insert db courseId a) as [db' [id|e]]; cbn [fst];
      rewrite (IH Rr); unfold Store.afterAll; simpl.
    + now rewrite <- app_assoc.
    + reflexivity.
Qed.

Lemma saveLoop_unreadable (DB Id A : Type) (readable : A -> bool)
      (insert : DB -> Z -> A -> DB * result Id)
      (courseId : Z) (before : list A) (a : A) (after : list A) :
  forallb readable before = true ->
  readable a = false ->
  forall (db : DB) (saved : list Id),
    Store.saveLoop readable insert db courseId (before ++ a :: after) saved =
    (Store.afterAll insert db courseId before, Throw TypeError).
Proof.
  intros R U. induction before as [|b rest IH]; intros db saved.
  - cbn [app Store.saveLoop]. unfold Store.saveAssignment. now rewrite U.
  - cbn [forallb] in R. apply andb_true_iff in R. destruct R as (Rb & Rr).
    cbn [app Store.saveLoop Store.afterAll fold_left].
    unfold Store.saveAssignment. rewrite Rb.
    destruct (insert db courseId b) as [db' [id|e]]; cbn [fst];
      now rewrite (IH Rr).
Qed.

Lemma outcomes_length (DB Id A : Type) (insert : DB -> Z -> A -> DB * result Id)
      (courseId : Z) (assignments : list A) (db : DB) :
  length (Store.outcomes insert db courseId assignments) = length assignments.
Proof.
  revert db. induction assignments as [|a rest IH]; intros db; simpl.
  - reflexivity.
  - destruct (insert db courseId a) as [db' r].
    simpl. now rewrite IH.
Qed.

Lemma okIds_length (Id : Type) (rs : list (result Id)) :
  length (Store.okIds rs) <= length rs.
Proof.
  induction rs as [|[i|e] rs IH]; simpl; lia.
Qed.

Lemma afterAll_app (DB Id A : Type) (insert : DB -> Z -> A -> DB * result Id)
      (courseId : Z) (l1 l2 : list A) (db : DB) :
  Store.afterAll insert db courseId (l1 ++ l2) =
  Store.afterAll insert (Store.afterAll insert db courseId l1) courseId l2.
Proof. unfold Store.afterAll. apply fold_left_app. Qed.

Lemma outcomes_app (DB Id A : Type) (insert : DB -> Z -> A -> DB * result Id)
      (courseId : Z) (l1 l2 : list A) (db : DB) :
  Store.outcomes insert db courseId (l1 ++ l2) =
  Store.outcomes insert db courseId l1 ++
  Store.outcomes insert (Store.afterAll insert db courseId l1) courseId l2.
Proof.
  revert db. induction l1 as [|a l1 IH]; intros db; simpl; [reflexivity|].
  destruct (insert db courseId a) as [db' [id|e]] eqn:E; simpl;
    now rewrite IH.
Qed.

Lemma okIds_app (Id : Type) (r1 r2 : list (result Id)) :
  Store.okIds (r1 ++ r2) = Store.okIds r1 ++ Store.okIds r2.
Proof. unfold Store.okIds. apply flat_map_app. Qed.




(** * Further properties of the code *)

(** ** More on the matcher *)

Lemma orTry_not_None {R : Type} (a b : option R) :
  orTry a b <> None <-> a <> None \/ b <> None.
Proof.
  destruct a; simpl; split.
  - intros _. left. discriminate.
  - intros _. discriminate.
  - intros H. now right.
  - intros [H|H]; [now elim H | exact H].
Qed.

(** Whether a pattern matches does not depend on what the continuation
    returns, only on where it accepts. *)
Lemma run_accepts (ic : bool) (total : nat) (r : regex) :
  forall (R1 R2 : Type) (s : jsstring) (c1 c2 : option jsstring)
         (k1 : cont R1) (k2 : cont R2),
    (forall s' a b, k1 s' a <> None -> k2 s' b <> None) ->
    run ic total r s c1 k1 <> None -> run ic total r s c2 k2 <> None.
Proof.
  induction r as [l|neg items|r1 IH1 r2 IH2|r1 IH1 r2 IH2|g r1 IH1|r1 IH1
                  |r1 IH1| |]; intros R1 R2 s c1 c2 k1 k2 K; simpl.
  - destruct (strMatch ic l s); [apply K | easy].
  - destruct s as [|x s]; [easy|].
    destruct (clsMatch ic neg items x); [apply K | easy].
  - apply IH1. intros s' a b. now apply IH2.
  - rewrite !orTry_not_None. intros [E|E]; [left | right].
    + now apply (IH1 R1 R2 s c1 c2 k1 k2 K).
    + now apply (IH2 R1 R2 s c1 c2 k1 k2 K).
  - generalize (length s). intros n. revert s c1 c2.
    induction n as [|n IHn]; intros s c1 c2; simpl; [apply K|].
    assert (M : run ic total r1 s c1
                    (fun s' cap' =>
                       if Nat.ltb (length s') (length s)
                       then star g (run ic total r1) n s' cap' k1 else None)
                <> None ->
                run ic total r1 s c2
                    (fun s' cap' =>
                       if Nat.ltb (length s') (length s)
                       then star g (run ic total r1) n s' cap' k2 else None)
                <> None).
    { apply IH1. intros s' a b.
      destruct (Nat.ltb (length s') (length s)); [apply IHn | easy]. }
    destruct g; rewrite !orTry_not_None; intros [E|E]; auto.
    + right. now apply (K s c1 c2).
    + left. now apply (K s c1 c2).
  - apply IH1. intros s' a b. apply K.
  - destruct (run ic total r1 s c1 (fun _ cap' => Some cap')) as [a|] eqn:E1;
      [|easy].
    intros E.
    assert (E2 : run ic total r1 s c2 (fun _ cap' => Some cap') <> None).
    { apply (IH1 _ _ s c1 c2 (fun _ cap' => Some cap')); [easy|].
      now rewrite E1. }
    destruct (run ic total r1 s c2 (fun _ cap' => Some cap')) as [b|];
      [|now elim E2].
    now apply (K s a b).
  - destruct (Nat.eqb (length s) total); [apply K | easy].
  - destruct s; [apply K | easy].
Qed.

(** A match at a later position keeps the search from failing. *)
Lemma searchFrom_reaches (ic : bool) (total : nat) (re : regex)
      (s t : jsstring) :
  suffix t s -> matchAt ic total re t <> None ->
  searchFrom ic total re s <> None.
Proof.
  intros [p ->] M. induction p as [|c p IH]; simpl.
  - destruct (matchAt ic total re t) as [m|] eqn:E; [|now elim M].
    now rewrite (searchFrom_here _ _ _ _ _ E).
  - destruct (matchAt ic total re (c :: p ++ t)); [easy | exact IH].
Qed.

(** The parts of a sequence consume consecutive pieces of the input. *)
Lemma run_seq (ic : bool) (total : nat) (r1 r2 : regex) (R : Type)
      (s : jsstring) (cap : option jsstring) (k : cont R) (x : R) :
  run ic total (Seq r1 r2) s cap k = Some x ->
  exists w s' cap',
    s = w ++ s' /\ lang ic r1 w /\ run ic total r2 s' cap' k = Some x.
Proof. simpl. apply run_lang. Qed.

(** The capture group hands on the text it consumed. *)
Lemma run_group (ic : bool) (total : nat) (r : regex) (R : Type)
      (s : jsstring) (cap : option jsstring) (k : cont R) (x : R) :
  run ic total (Group r) s cap k = Some x ->
  exists w s', s = w ++ s' /\ lang ic r w /\ k s' (Some w) = Some x.
Proof.
  simpl. intros E. apply run_lang in E.
  destruct E as (w & s' & _ & -> & L & E).
  exists w, s'. repeat split; trivial.
  rewrite length_app, Nat.add_sub, firstn_app, Nat.sub_diag, firstn_all in E.
  simpl in E. now rewrite app_nil_r in E.
Qed.

Lemma searchFrom_at (ic : bool) (total : nat) (re : regex) (s : jsstring)
      (m : mres) :
  searchFrom ic total re s = Some m ->
  exists t, suffix t s /\ matchAt ic total re t = Some m.
Proof.
  induction s as [|c s IH]; simpl.
  - destruct (matchAt ic total re []) as [m'|] eqn:E; [|easy].
    intros [= <-]. exists []. split; [apply suffix_refl | exact E].
  - destruct (matchAt ic total re (c :: s)) as [m'|] eqn:E.
    + intros [= <-]. exists (c :: s). split; [apply suffix_refl | exact E].
    + intros S. destruct (IH S) as (t & [p ->] & M).
      exists t. split; [now exists (c :: p) | exact M].
Qed.

(** A class repeated at least once consumes a non-empty run of units of
    the class. *)
Lemma class_plus_lang (ic neg : bool) (items : list citem) (g : jsstring) :
  lang ic (Plus (Cls neg items)) g ->
  g <> [] /\ forallb (clsMatch ic neg items) g = true.
Proof.
  intros (w1 & w2 & -> & (x & -> & X) & (ws & -> & W)). split; [easy|].
  simpl. rewrite X. simpl. now apply class_star_lang.
Qed.

(** A negated class of units matches none of them. *)
Lemma noneOf_excludes (ic : bool) (l : jsstring) (x : N) :
  clsMatch ic true (map CUnit l) x = true -> ~ In x l.
Proof.
  unfold clsMatch. intros E I.
  assert (X : existsb (itemMatch ic x) (map CUnit l) = true).
  { apply existsb_exists. exists (CUnit x). split; [now apply in_map|].
    simpl. unfold unitMatch. destruct ic; apply N.eqb_refl. }
  now rewrite X in E.
Qed.

Lemma noneOf_forallb (ic : bool) (l g : jsstring) :
  forallb (clsMatch ic true (map CUnit l)) g = true ->
  forall c, In c g -> ~ In c l.
Proof.
  intros F c I. rewrite forallb_forall in F. now apply (noneOf_excludes ic), F.
Qed.

(** *** extractField *)

Lemma fieldValue_lang (G : Glyphs) (ic : bool) (g : jsstring) :
  lang ic (Plus (noneOf (NL :: bullet G))) g -> fieldValue G g.
Proof.
  intros L. apply class_plus_lang in L. destruct L as (N0 & F).
  split; [exact N0|]. intros c I.
  pose proof (noneOf_forallb ic _ _ F c I) as X. simpl in X.
  split; intros E; apply X; [now left | now right].
Qed.

Lemma fieldTail_run (G : Glyphs) (ic : bool) (total : nat) (fieldName : jsstring)
      (R : Type) (s : jsstring) (cap : option jsstring) (k : cont R) (x : R) :
  run ic total (seqs (fieldTail G fieldName)) s cap k = Some x ->
  exists w g s',
    s = w ++ g ++ s' /\ fieldValue G g /\ k s' (Some g) = Some x /\
    exists w1 w2, w = w1 ++ w2 /\
                  Forall2 (fun p u => unitMatch ic p u = true) fieldName w1.
Proof.
  unfold fieldTail, seqs. cbn [fold_right]. intros E.
  apply run_seq in E. destruct E as (w1 & s1 & c1 & -> & L1 & E).
  apply run_seq in E. destruct E as (w2 & s2 & c2 & -> & _ & E).
  change (run ic total (Group (Plus (noneOf (NL :: bullet G)))) s2 c2
              (fun s' cap' => run ic total (Str []) s' cap' k) = Some x) in E.
  apply run_group in E. destruct E as (g & s3 & -> & L3 & E). simpl in E.
  exists (w1 ++ w2), g, s3. rewrite <- app_assoc.
  split; [reflexivity|]. split; [apply (fieldValue_lang G ic g L3)|].
  split; [exact E|]. now exists w1, w2.
Qed.

Lemma fieldTail_exec (G : Glyphs) (fieldName text : jsstring) (m : mres) :
  exec true (seqs (fieldTail G fieldName)) text = Some m ->
  exists g, m_group m = Some g /\ fieldValue G g /\ includes text g = true /\
            includes (map canon text) (map canon fieldName) = true.
Proof.
  intros E. unfold exec in E.
  destruct (searchFrom_at _ _ _ _ _ E) as (t & [p ->] & M).
  unfold matchAt in M. apply fieldTail_run in M.
  destruct M as (w & g & s' & -> & V & [= <-] & w1 & w2 & -> & F).
  exists g. simpl. split; [reflexivity|]. split; [exact V|]. split.
  - apply includes_spec. exists (p ++ w1 ++ w2), s'. now rewrite <- !app_assoc.
  - apply includes_spec. exists (map canon p), (map canon (w2 ++ g ++ s')).
    rewrite <- !app_assoc, !map_app.
    replace (map canon fieldName) with (map canon w1); [reflexivity|].
    clear - F. induction F as [|a b l l' U _ IH]; simpl; [reflexivity|].
    apply N.eqb_eq in U. now rewrite U, IH.
Qed.

(** A pattern of extractField with a glyph in front matches only where
    the plain pattern matches further on. *)
Lemma prefixed_exec (G : Glyphs) (glyph fieldName text : jsstring) :
  exec true (seqs (fieldTail G fieldName)) text = None ->
  exec true (seqs (Str glyph :: Star true space :: fieldTail G fieldName)) text
  = None.
Proof.
  intros E.
  destruct (exec true (seqs (Str glyph :: Star true space :: fieldTail G fieldName))
                 text) as [m|] eqn:E2; [|reflexivity].
  exfalso. unfold exec in E, E2.
  destruct (searchFrom_at _ _ _ _ _ E2) as (t & T & M).
  unfold matchAt, seqs in M. cbn [fold_right] in M.
  apply run_seq in M. destruct M as (w1 & s1 & c1 & -> & _ & M).
  apply run_seq in M. destruct M as (w2 & s2 & c2 & -> & _ & M).
  apply (searchFrom_reaches true (length text) (seqs (fieldTail G fieldName))
                            text s2).
  - apply (suffix_trans _ (w1 ++ w2 ++ s2)); [|exact T].
    exists (w1 ++ w2). now rewrite <- app_assoc.
  - unfold matchAt.
    apply (run_accepts true (length text) (seqs (fieldTail G fieldName))
                       _ _ s2 c2 None
                       (fun s' cap =>
                          Some (MRes (length text - length (w1 ++ w2 ++ s2))
                                     (firstn (length (w1 ++ w2 ++ s2) - length s')
                                             (w1 ++ w2 ++ s2)) cap s'))).
    + easy.
    + unfold seqs. now rewrite M.
  - exact E.
Qed.

Lemma extractField_first (G : Glyphs) (text fieldName : jsstring) :
  extractField G text fieldName =
  firstField G [seqs (fieldTail G fieldName)] text.
Proof.
  unfold extractField, fieldPatterns. cbn [firstField].
  destruct (exec true (seqs (fieldTail G fieldName)) text) as [m|] eqn:E.
  - destruct (fieldTail_exec _ _ _ _ E) as (g & -> & (N0 & _) & _).
    destruct g; [now elim N0 | reflexivity].
  - now rewrite !(prefixed_exec G _ _ _ E).
Qed.

(** [^<bullet>\s*] finds nothing in a string that does not begin with the
    marker. *)
Lemma leadingBullet_later (G : Glyphs) (total : nat) (s : jsstring) :
  length s < total -> searchFrom false total (leadingBulletRe G) s = None.
Proof.
  assert (M : forall t, length t < total ->
                        matchAt false total (leadingBulletRe G) t = None).
  { intros t L. unfold matchAt, leadingBulletRe, seqs. cbn [fold_right run].
    destruct (Nat.eqb_spec (length t) total); [lia | reflexivity]. }
  induction s as [|c s IH]; intros L; cbn [searchFrom]; rewrite (M _ L);
    [reflexivity|].
  apply IH. simpl in L. lia.
Qed.

Lemma leadingBullet_absent (G : Glyphs) (s : jsstring) :
  startsWith (bullet G) s = false ->
  removeMatch false (leadingBulletRe G) s = s.
Proof.
  intros S. unfold removeMatch, exec.
  assert (M : matchAt false (length s) (leadingBulletRe G) s = None).
  { destruct (matchAt false (length s) (leadingBulletRe G) s) as [m|] eqn:E;
      [|reflexivity].
    unfold matchAt, leadingBulletRe, seqs in E. cbn [fold_right] in E.
    apply run_seq in E. destruct E as (w0 & s0 & c0 & -> & L0 & E).
    simpl in L0. subst w0. simpl in E.
    destruct (strMatch false (bullet G) s0) as [s1|] eqn:E1; [|easy].
    apply strMatch_exact in E1. subst s0.
    assert (X : startsWith (bullet G) (bullet G ++ s1) = true)
      by (apply startsWith_spec; now exists s1).
    simpl app in S. congruence. }
  destruct s as [|c s]; cbn [searchFrom]; rewrite M; [reflexivity|].
  now rewrite leadingBullet_later by (simpl; lia).
Qed.

Lemma fieldValue_trim (G : Glyphs) (g : jsstring) :
  bullet G <> [] -> fieldValue G g ->
  startsWith (bullet G) (trim g) = false.
Proof.
  intros B (_ & V).
  destruct (startsWith (bullet G) (trim g)) eqn:S; [|reflexivity].
  exfalso. apply startsWith_spec in S. destruct S as (r & S).
  destruct (bullet G) as [|b l] eqn:EB; [now elim B|].
  pose proof (trim_includes g) as I. rewrite S in I.
  apply includes_spec in I. destruct I as (pre & post & ->).
  apply (V b); [|now left].
  rewrite in_app_iff. right. now left.
Qed.

(** X1. extractField is decided by its first pattern: the two patterns
    that begin with the books glyph and the graduation cap never give a
    value the plain pattern has not given, so the result is that of the
    plain pattern alone. *)
Theorem extractField_first_pattern_decides :
  forall (G : Glyphs) (text fieldName : jsstring),
    extractField G text fieldName =
    firstField G [seqs (fieldTail G fieldName)] text.
Proof. exact extractField_first. Qed.

Lemma extractField_trimmed (G : Glyphs) (text fieldName v : jsstring) :
  bullet G <> [] ->
  extractField G text fieldName = Some v ->
  (exists m g,
      exec true (seqs (fieldTail G fieldName)) text = Some m /\
      m_group m = Some g /\ v = trim g) /\
  includes text v = true /\
  trim v = v /\
  forallb (fun c => negb (c =? NL)%N) v = true /\
  (forall c, In c v -> ~ In c (bullet G)).
Proof.
  intros B E.
  rewrite extractField_first in E. cbn [firstField] in E.
  destruct (exec true (seqs (fieldTail G fieldName)) text) as [m|] eqn:X;
    [|discriminate].
  destruct (fieldTail_exec _ _ _ _ X) as (g & Eg & V & I & _).
  rewrite Eg in E. destruct V as (N0 & V).
  destruct g as [|c0 g0] eqn:EG; [now elim N0|]. rewrite <- EG in *.
  assert (T : truthy g = true) by now rewrite EG.
  rewrite T in E.
  rewrite (leadingBullet_absent G (trim g)) in E
    by (apply fieldValue_trim; [exact B | split; [now rewrite EG | exact V]]).
  injection E as <-.
  split; [now exists m, g|].
  split; [apply (includes_trans _ g); [exact I | apply trim_includes]|].
  split; [apply trim_idem|].
  pose proof (trim_includes g) as TI. apply includes_spec in TI.
  destruct TI as (pre & post & TI).
  split.
  - apply forallb_forall. intros c Ic.
    destruct (V c) as (NN & _).
    + rewrite TI, !in_app_iff. right. now left.
    + apply negb_true_iff. now apply N.eqb_neq.
  - intros c Ic. apply (V c). rewrite TI, !in_app_iff. right. now left.
Qed.

(** X2. A value returned by extractField is the trimmed capture of the
    plain pattern: a piece of one line of the text, without white space
    at either end and without any unit of the bullet marker, so that the
    final removal of a leading marker changes nothing. *)
Theorem extractField_value :
  forall (G : Glyphs) (text fieldName v : jsstring),
    bullet G <> [] ->
    extractField G text fieldName = Some v ->
    (exists m g,
        exec true (seqs (fieldTail G fieldName)) text = Some m /\
        m_group m = Some g /\ v = trim g) /\
    includes text v = true /\
    trim v = v /\
    forallb (fun c => negb (c =? NL)%N) v = true /\
    (forall c, In c v -> ~ In c (bullet G)).
Proof. exact extractField_trimmed. Qed.

Lemma extractField_value_witness :
  includes (u16 "Course Name:  CS 101 ") (u16 "CS 101") = true /\
  trim (u16 "CS 101") = u16 "CS 101".
Proof.
  destruct (extractField_value glyphs (u16 "Course Name:  CS 101 ")
                               (u16 "Course Name") (u16 "CS 101"))
    as (_ & I & T & _).
  - discriminate.
  - vm_compute. reflexivity.
  - split; [exact I | exact T].
Defined.

Lemma extractField_absent (G : Glyphs) (text fieldName : jsstring) :
  includes (map canon text) (map canon fieldName) = false ->
  extractField G text fieldName = None.
Proof.
  intros A.
  rewrite extractField_first. cbn [firstField].
  destruct (exec true (seqs (fieldTail G fieldName)) text) as [m|] eqn:X;
    [|reflexivity].
  destruct (fieldTail_exec _ _ _ _ X) as (g & _ & _ & _ & I). congruence.
Qed.

(** X3. A text in which the field name does not occur, in any letter
    case, has no value for the field: extractField returns null. *)
Theorem extractField_without_label :
  forall (G : Glyphs) (text fieldName : jsstring),
    includes (map canon text) (map canon fieldName) = false ->
    extractField G text fieldName = None.
Proof. exact extractField_absent. Qed.

Lemma extractField_without_label_witness :
  extractField glyphs1252 (u16 "Instructor: Dr. A") (u16 "Professor Name") = None.
Proof.
  apply extractField_without_label. vm_compute. reflexivity.
Defined.

(** ** Assignments *)

Lemma removeFirst_length (t s : jsstring) :
  length (removeFirst t s) <= length s.
Proof.
  induction s as [|c s IH]; simpl.
  - destruct (startsWith t []); [rewrite length_skipn; simpl; lia | simpl; lia].
  - destruct (startsWith t (c :: s)); [rewrite length_skipn; cbn [length]; lia|].
    cbn [length]. lia.
Qed.

Lemma trim_length (s : jsstring) : length (trim s) <= length s.
Proof. apply includes_length, trim_includes. Qed.

(** What the loop over the date patterns leaves: either no date and the
    whole bullet, or the day of the first match the host reads and the
    bullet without that match, without colons and hyphens, trimmed. *)
Lemma scanDates_shape (H : Host) (bullet : jsstring)
      (patterns : list (bool * regex)) :
  scanDates H patterns bullet = (None, bullet) \/
  exists ic p m iso,
    In (ic, p) patterns /\ exec ic p bullet = Some m /\
    toISOString (dateParse H (match m_group m with Some g => g | None => [] end))
      = Ok iso /\
    scanDates H patterns bullet =
    (Some (beforeFirst 84%N iso),
     trim (dropColonsHyphens
             (removeFirst (match m_group m with Some g => g | None => [] end)
                          bullet))).
Proof.
  induction patterns as [|[ic p] rest IH]; [now left|].
  cbn [scanDates].
  destruct (exec ic p bullet) as [m|] eqn:E.
  - destruct (toISOString
                (dateParse H (match m_group m with Some g => g | None => [] end)))
      as [iso|e] eqn:I.
    + right. exists ic, p, m, iso. repeat split; trivial. now left.
    + destruct IH as [IH | (ic' & p' & m' & iso' & I' & R)]; [now left|].
      right. exists ic', p', m', iso'. split; [now right | exact R].
  - destruct IH as [IH | (ic' & p' & m' & iso' & I' & R)]; [now left|].
    right. exists ic', p', m', iso'. split; [now right | exact R].
Qed.

(** A pattern that needs a digit. *)
Lemma digit_lang (ic : bool) (w : jsstring) :
  lang ic digit w -> existsb isDigit w = true.
Proof.
  intros (x & -> & X). unfold clsMatch in X. simpl in X.
  simpl. now rewrite orb_false_r in *.
Qed.

Lemma seq_left_lang (ic : bool) (P : N -> bool) (r1 r2 : regex) :
  (forall w, lang ic r1 w -> existsb P w = true) ->
  forall w, lang ic (Seq r1 r2) w -> existsb P w = true.
Proof.
  intros A w (w1 & w2 & -> & L1 & _).
  rewrite existsb_app, (A w1 L1). reflexivity.
Qed.

Lemma seq_right_lang (ic : bool) (P : N -> bool) (r1 r2 : regex) :
  (forall w, lang ic r2 w -> existsb P w = true) ->
  forall w, lang ic (Seq r1 r2) w -> existsb P w = true.
Proof.
  intros A w (w1 & w2 & -> & _ & L2).
  rewrite existsb_app, (A w2 L2). apply orb_true_r.
Qed.

Lemma group_lang (ic : bool) (P : N -> bool) (r : regex) :
  (forall w, lang ic r w -> existsb P w = true) ->
  forall w, lang ic (Group r) w -> existsb P w = true.
Proof. intros A w L. now apply A. Qed.

Lemma datePatterns_digit (q : bool * regex) (w : jsstring) :
  In q datePatterns -> lang (fst q) (snd q) w -> existsb isDigit w = true.
Proof.
  unfold datePatterns, monthDayYear, slashed, dashed, monthDay, seqs.
  cbn [fold_right In].
  intros [<- | [<- | [<- | [<- | []]]]]; cbn [fst snd]; revert w;
    apply group_lang.
  - apply seq_right_lang, seq_right_lang, seq_left_lang, digit_lang.
  - apply seq_left_lang, digit_lang.
  - apply seq_left_lang, digit_lang.
  - apply seq_right_lang, seq_right_lang, seq_left_lang, digit_lang.
Qed.

Lemma exec_lang (ic : bool) (re : regex) (s : jsstring) (m : mres) :
  exec ic re s = Some m -> lang ic re (m_all m) /\ includes s (m_all m) = true.
Proof.
  intros E. split; [now apply (searchFrom_lang ic (length s) re s)|].
  apply exec_sound in E. destruct E as (E & _).
  apply includes_spec. now exists (firstn (m_index m) s), (m_rest m).
Qed.

Lemma existsb_includes (P : N -> bool) (s e : jsstring) :
  includes s e = true -> existsb P e = true -> existsb P s = true.
Proof.
  intros I X. apply includes_spec in I. destruct I as (pre & post & ->).
  rewrite !existsb_app, X. now rewrite orb_true_r.
Qed.

Lemma scanDates_no_match (H : Host) (bullet : jsstring)
      (patterns : list (bool * regex)) :
  (forall q, In q patterns -> exec (fst q) (snd q) bullet = None) ->
  scanDates H patterns bullet = (None, bullet).
Proof.
  induction patterns as [|[ic p] rest IH]; intros A; [reflexivity|].
  pose proof (A (ic, p) (or_introl eq_refl)) as E. cbn [fst snd] in E.
  cbn [scanDates]. rewrite E.
  apply IH. intros q I. apply A. now right.
Qed.

Lemma capture_includes (ic : bool) (re : regex) (s : jsstring) (m : mres) :
  exec ic re s = Some m ->
  includes s (match m_group m with Some g => g | None => [] end) = true.
Proof.
  intros E. apply exec_sound in E. destruct E as (_ & C).
  destruct (m_group m); [exact C | now destruct s].
Qed.

Lemma scanDates_unread (H : Host) (bullet : jsstring)
      (patterns : list (bool * regex)) :
  (forall q m, In q patterns -> exec (fst q) (snd q) bullet = Some m ->
               dateParse H (match m_group m with Some g => g | None => [] end)
               = None) ->
  scanDates H patterns bullet = (None, bullet).
Proof.
  induction patterns as [|[ic p] rest IH]; intros A; [reflexivity|].
  cbn [scanDates].
  destruct (exec ic p bullet) as [m|] eqn:E.
  - rewrite (A (ic, p) m (or_introl eq_refl) E). cbn [toISOString].
    apply IH. intros q m' I. apply A. now right.
  - apply IH. intros q m' I. apply A. now right.
Qed.

(** X4. A bullet without a digit has no due date, whatever the host's
    Date accepts: each of the four date patterns needs a digit.  The
    title is then the whole bullet. *)
Theorem parseAssignmentBullet_without_digit :
  forall (H : Host) (bullet section : jsstring),
    forallb (fun c => negb (isDigit c)) bullet = true ->
    due_date (parseAssignmentBullet H bullet section) = None /\
    title (parseAssignmentBullet H bullet section) = bullet.
Proof.
  intros H bullet section D.
  assert (S : scanDates H datePatterns bullet = (None, bullet)).
  { apply scanDates_no_match. intros q I.
    destruct (exec (fst q) (snd q) bullet) as [m|] eqn:E; [|reflexivity].
    exfalso. apply exec_lang in E. destruct E as (L & Inc).
    pose proof (existsb_includes isDigit _ _ Inc (datePatterns_digit q _ I L)) as X.
    apply existsb_exists in X. destruct X as (c & Ic & Dc).
    rewrite forallb_forall in D. specialize (D c Ic). now rewrite Dc in D. }
  unfold parseAssignmentBullet. rewrite S. cbn [title due_date].
  split; [reflexivity|]. unfold orElse. now destruct (truthy bullet).
Qed.

Lemma parseAssignmentBullet_without_digit_witness :
  due_date (parseAssignmentBullet (hostAt 0) (u16 "Final project: see handout")
                                  (u16 "ASSIGNMENTS")) = None /\
  title (parseAssignmentBullet (hostAt 0) (u16 "Final project: see handout")
                               (u16 "ASSIGNMENTS")) =
    u16 "Final project: see handout".
Proof.
  apply parseAssignmentBullet_without_digit. vm_compute. reflexivity.
Defined.

(** X5. When the host reads none of the matches of the date patterns as
    a date, the conversion's exception is caught for each pattern and the
    record is kept: the due date is null and the title is the whole
    bullet. *)
Theorem parseAssignmentBullet_unreadable_dates :
  forall (H : Host) (bullet section : jsstring),
    (forall q m, In q datePatterns ->
                 exec (fst q) (snd q) bullet = Some m ->
                 dateParse H (match m_group m with Some g => g | None => [] end)
                 = None) ->
    due_date (parseAssignmentBullet H bullet section) = None /\
    title (parseAssignmentBullet H bullet section) = bullet /\
    description (parseAssignmentBullet H bullet section) = bullet /\
    type (parseAssignmentBullet H bullet section) = classify bullet section.
Proof.
  intros H bullet section D.
  pose proof (scanDates_unread H bullet datePatterns D) as S.
  unfold parseAssignmentBullet. rewrite S. cbn [title due_date description type].
  split; [reflexivity|]. split; [|now split].
  unfold orElse. now destruct (truthy bullet).
Qed.

Lemma parseAssignmentBullet_unreadable_dates_witness :
  due_date (parseAssignmentBullet (hostAt 0) (u16 "Quiz 3 on 13/45/2024")
                                  (u16 "QUIZZES")) = None /\
  title (parseAssignmentBullet (hostAt 0) (u16 "Quiz 3 on 13/45/2024")
                               (u16 "QUIZZES")) = u16 "Quiz 3 on 13/45/2024".
Proof.
  destruct (parseAssignmentBullet_unreadable_dates
              (hostAt 0) (u16 "Quiz 3 on 13/45/2024") (u16 "QUIZZES"))
    as (D & T & _).
  - intros q m [<- | [<- | [<- | [<- | []]]]] E; vm_compute in E;
      try discriminate; injection E as <-; vm_compute; reflexivity.
  - split; [exact D | exact T].
Defined.

Lemma scanDates_first_readable (H : Host) (before after : list (bool * regex))
      (ic : bool) (p : regex) (bullet : jsstring) (m : mres)
      (g iso : jsstring) :
  (forall q m', In q before -> exec (fst q) (snd q) bullet = Some m' ->
                dateParse H (match m_group m' with Some g' => g' | None => [] end)
                = None) ->
  exec ic p bullet = Some m ->
  m_group m = Some g ->
  toISOString (dateParse H g) = Ok iso ->
  scanDates H (before ++ (ic, p) :: after) bullet =
  (Some (beforeFirst 84%N iso), trim (dropColonsHyphens (removeFirst g bullet))).
Proof.
  intros A E Eg I.
  induction before as [|[ic' p'] before IH]; cbn [app].
  - now apply (scanDates_hit H ic p after bullet m g iso).
  - cbn [scanDates].
    destruct (exec ic' p' bullet) as [m'|] eqn:E'.
    + rewrite (A (ic', p') m' (or_introl eq_refl) E'). cbn [toISOString].
      apply IH. intros q m2 Iq. apply A. now right.
    + apply IH. intros q m2 Iq. apply A. now right.
Qed.

(** X6. The date patterns are tried in the order of the array, a match
    the host cannot read as a date is skipped, and the first match the
    host reads decides: the due date is the UTC calendar day of its time
    value and the title is the bullet without the first occurrence of
    that match, without colons and hyphens, trimmed (the whole bullet when
    nothing is left). *)
Theorem parseAssignmentBullet_first_readable_date :
  forall (H : Host) (bullet section : jsstring)
         (before after : list (bool * regex)) (ic : bool) (p : regex)
         (m : mres) (g : jsstring) (t : Z),
    datePatterns = before ++ (ic, p) :: after ->
    (forall q m', In q before -> exec (fst q) (snd q) bullet = Some m' ->
                  dateParse H (match m_group m' with Some g' => g' | None => [] end)
                  = None) ->
    exec ic p bullet = Some m ->
    m_group m = Some g ->
    dateParse H g = Some t ->
    (Z.abs t <= 8640000000000000)%Z ->
    (0 <= fst (fst (civilFromDays (t / msPerDay))) <= 9999)%Z ->
    due_date (parseAssignmentBullet H bullet section) =
      Some (isoDay (civilFromDays (t / msPerDay))) /\
    title (parseAssignmentBullet H bullet section) =
      orElse (trim (dropColonsHyphens (removeFirst g bullet))) bullet.
Proof.
  intros H bullet section before after ic p m g t P A E Eg D R Y.
  destruct (toISOString_day t R Y) as (iso & I & B).
  unfold parseAssignmentBullet. rewrite P.
  rewrite (scanDates_first_readable H before after ic p bullet m g iso A E Eg)
    by now rewrite D.
  cbn [due_date title]. rewrite B. split; reflexivity.
Qed.

Lemma parseAssignmentBullet_first_readable_date_witness :
  due_date (parseAssignmentBullet (hostAt 0) (u16 "Room 12 2024: exam 3/15/2024")
                                  (u16 "EXAMS")) = Some (u16 "2024-03-15") /\
  title (parseAssignmentBullet (hostAt 0) (u16 "Room 12 2024: exam 3/15/2024")
                               (u16 "EXAMS")) = u16 "Room 12 2024 exam".
Proof.
  apply (parseAssignmentBullet_first_readable_date
           (hostAt 0) (u16 "Room 12 2024: exam 3/15/2024") (u16 "EXAMS")
           [(true, monthDayYear)] [(false, dashed); (true, monthDay)]
           false slashed
           (MRes 19 (u16 "3/15/2024") (Some (u16 "3/15/2024")) [])
           (u16 "3/15/2024") (localMidnight 0 2024 3 15)).
  - reflexivity.
  - intros q m' [<- | []] E. vm_compute in E. injection E as <-.
    vm_compute. reflexivity.
  - vm_compute. reflexivity.
  - reflexivity.
  - vm_compute. reflexivity.
  - vm_compute. discriminate.
  - vm_compute. split; discriminate.
Defined.

Lemma parsed_title (H : Host) (bullet section : jsstring) :
    (due_date (parseAssignmentBullet H bullet section) = None ->
     title (parseAssignmentBullet H bullet section) = bullet) /\
    (bullet <> [] -> title (parseAssignmentBullet H bullet section) <> []) /\
    (title (parseAssignmentBullet H bullet section) = bullet \/
     trim (title (parseAssignmentBullet H bullet section)) =
       title (parseAssignmentBullet H bullet section) /\
     forallb (fun c => negb ((c =? 58) || (c =? 45))%N)
             (title (parseAssignmentBullet H bullet section)) = true) /\
    length (title (parseAssignmentBullet H bullet section)) <= length bullet.
Proof.
  unfold parseAssignmentBullet.
  assert (O : orElse bullet bullet = bullet)
    by (unfold orElse; now destruct (truthy bullet)).
  destruct (scanDates_shape H bullet datePatterns)
    as [S | (ic & p & m & iso & _ & _ & _ & S)]; rewrite S;
    cbn [title due_date].
  - rewrite O. repeat split; auto.
  - set (t := trim (dropColonsHyphens
                      (removeFirst
                         (match m_group m with Some g => g | None => [] end)
                         bullet))).
    split; [discriminate|].
    unfold orElse. destruct (truthy t) eqn:T.
    + split; [intros _ E; now rewrite E in T|].
      split.
      * right. split; [apply trim_idem|].
        apply (includes_forallb _ _ _ (trim_includes _)).
        apply forallb_filter.
      * unfold t. etransitivity; [apply trim_length|].
        etransitivity; [apply filter_length_le | apply removeFirst_length].
    + repeat split; auto.
Qed.

(** X7. The title parseAssignmentBullet gives is never longer than the
    bullet and is empty only for an empty bullet.  It is the whole bullet
    whenever no due date was found, and otherwise either the whole bullet
    or a trimmed text without colons and hyphens. *)
Theorem parseAssignmentBullet_title :
  forall (H : Host) (bullet section : jsstring),
    (due_date (parseAssignmentBullet H bullet section) = None ->
     title (parseAssignmentBullet H bullet section) = bullet) /\
    (bullet <> [] -> title (parseAssignmentBullet H bullet section) <> []) /\
    (title (parseAssignmentBullet H bullet section) = bullet \/
     trim (title (parseAssignmentBullet H bullet section)) =
       title (parseAssignmentBullet H bullet section) /\
     forallb (fun c => negb ((c =? 58) || (c =? 45))%N)
             (title (parseAssignmentBullet H bullet section)) = true) /\
    length (title (parseAssignmentBullet H bullet section)) <= length bullet.
Proof. exact parsed_title. Qed.

Lemma parseAssignmentBullet_title_witness :
  title (parseAssignmentBullet (hostAt 0) (u16 "Reading response") (u16 "OTHER"))
  = u16 "Reading response" /\
  title (parseAssignmentBullet (hostAt 0) (u16 "3/15/2024") (u16 "OTHER")) <> [].
Proof.
  split.
  - apply (proj1 (parseAssignmentBullet_title
                    (hostAt 0) (u16 "Reading response") (u16 "OTHER"))).
    vm_compute. reflexivity.
  - apply (proj1 (proj2 (parseAssignmentBullet_title
                           (hostAt 0) (u16 "3/15/2024") (u16 "OTHER")))).
    discriminate.
Defined.

(** The bullets of a section of extractAssignments: cleaned bullet lines
    of the text that are not empty and do not hold the placeholder. *)
Lemma sectionAssignments_entry (G : Glyphs) (H : Host)
      (text section : jsstring) (a : assignment) :
  In a (sectionAssignments G H text section) ->
  exists b,
    a = parseAssignmentBullet H b section /\
    b <> [] /\ includes b placeholder = false /\
    includes text b = true /\ trim b = b /\
    forallb (fun c => negb (c =? NL)%N) b = true.
Proof.
  unfold sectionAssignments.
  destruct (exec true (assignmentSectionRegex G section) text) as [m|] eqn:E;
    [|intros []].
  rewrite in_map_iff. intros (b & <- & I).
  apply filter_In in I. destruct I as (I & K).
  apply andb_true_iff in K. destruct K as (K1 & K2).
  apply negb_true_iff in K2.
  destruct (bulletEntries_line G (m_all m) b I) as (Ib & Tb & Nb).
  exists b. split; [reflexivity|].
  split; [intros ->; discriminate|]. split; [exact K2|].
  split; [|now split].
  apply (includes_trans _ (m_all m)); [|exact Ib].
  now apply (exec_lang true (assignmentSectionRegex G section)).
Qed.

Lemma extractAssignments_entry (G : Glyphs) (H : Host) (text : jsstring)
      (a : assignment) :
  In a (extractAssignments G H text) ->
  exists section, In section sections /\ In a (sectionAssignments G H text section).
Proof.
  unfold extractAssignments. rewrite in_flat_map. intros (s & I & J).
  now exists s.
Qed.

(** X8. Every assignment extractAssignments returns comes from a bullet
    line of the text: its description is that line, cleaned, a non-empty
    trimmed piece of the text without a newline and without the
    placeholder; its title is not empty and its due time is null. *)
Theorem extractAssignments_entries :
  forall (G : Glyphs) (H : Host) (text : jsstring) (a : assignment),
    In a (extractAssignments G H text) ->
    description a <> [] /\
    includes (description a) placeholder = false /\
    includes text (description a) = true /\
    trim (description a) = description a /\
    forallb (fun c => negb (c =? NL)%N) (description a) = true /\
    title a <> [] /\
    length (title a) <= length (description a) /\
    due_time a = None /\
    exists section, In section sections /\
                    a = parseAssignmentBullet H (description a) section.
Proof.
  intros G H text a I.
  destruct (extractAssignments_entry G H text a I) as (section & Is & J).
  destruct (sectionAssignments_entry G H text section a J)
    as (b & -> & B0 & B1 & B2 & B3 & B4).
  assert (D : description (parseAssignmentBullet H b section) = b).
  { unfold parseAssignmentBullet. now destruct (scanDates H datePatterns b). }
  rewrite D.
  destruct (parsed_title H b section) as (_ & T1 & _ & T2).
  repeat split; auto.
  - unfold parseAssignmentBullet. now destruct (scanDates H datePatterns b).
  - now exists section.
Qed.

Lemma extractAssignments_entries_witness :
  includes (sampleSummary glyphs) (u16 "Homework 1 due 9/12/2024") = true /\
  u16 "Homework 1 due" <> [].
Proof.
  destruct (extractAssignments_entries
              glyphs (hostAt 0) (sampleSummary glyphs)
              {| title := u16 "Homework 1 due";
                 due_date := Some (u16 "2024-09-12");
                 due_time := None;
                 type := Assignment;
                 description := u16 "Homework 1 due 9/12/2024" |})
    as (_ & _ & I & _ & _ & T & _).
  - vm_compute. right. right. left. reflexivity.
  - split; [exact I | exact T].
Defined.

(** X9. Every assignment found under the TEST DATES or the EXAMS header
    is typed exam, whatever its bullet says: the section name alone
    decides. *)
Theorem exam_sections_give_exams :
  forall (G : Glyphs) (H : Host) (text : jsstring) (a : assignment),
    In a (sectionAssignments G H text (u16 "TEST DATES")) \/
    In a (sectionAssignments G H text (u16 "EXAMS")) ->
    type a = Exam.
Proof.
  intros G H text a [I | I];
    destruct (sectionAssignments_entry G H text _ a I) as (b & -> & _);
    rewrite parseAssignmentBullet_type; reflexivity.
Qed.

Lemma exam_sections_give_exams_witness :
  type (parseAssignmentBullet (hostAt 0) (u16 "Homework 1 due 9/12/2024")
                              (u16 "TEST DATES")) = Exam.
Proof.
  apply (exam_sections_give_exams
           glyphs (hostAt 0)
           (lines [memo glyphs ++ u16 " TEST DATES";
                   item glyphs "Homework 1 due 9/12/2024"])).
  left. vm_compute. left. reflexivity.
Defined.

(** The bullet pattern finds nothing in a block without the marker. *)
Lemma matchAll_without_bullet (G : Glyphs) (block : jsstring) :
  includes block (bullet G) = false ->
  matchAll false (bulletRe G) block = [].
Proof.
  intros A. unfold matchAll. cbn [matchAllFrom].
  destruct (searchFrom false (length block) (bulletRe G) block) as [m|] eqn:E;
    [|reflexivity].
  unfold bulletRe, seqs in E. cbn [fold_right] in E.
  apply searchFrom_literal in E. congruence.
Qed.

Lemma includes_false_inside (s e t : jsstring) :
  includes s e = true -> includes s t = false -> includes e t = false.
Proof.
  intros I A. destruct (includes e t) eqn:X; [|reflexivity].
  now rewrite (includes_trans s e t I X) in A.
Qed.

(** X10. A text in which the bullet marker does not occur yields no
    assignment and no entry of any section.  For the server whose marker
    literal is mis-encoded this is every text whose bullets are the
    genuine U+2022. *)
Theorem no_marker_no_entries :
  forall (G : Glyphs) (H : Host) (text : jsstring),
    includes text (bullet G) = false ->
    extractAssignments G H text = [] /\
    (forall sectionTitle, extractBulletPoints G text sectionTitle = []) /\
    snd (parseSyllabusData G H text) = [].
Proof.
  intros G H text A.
  assert (X : extractAssignments G H text = []).
  { unfold extractAssignments. generalize sections. intros l.
    induction l as [|s l IH]; [reflexivity|]. cbn [flat_map]. rewrite IH.
    unfold sectionAssignments.
    destruct (exec true (assignmentSectionRegex G s) text) as [m|] eqn:E;
      [|reflexivity].
    rewrite matchAll_without_bullet; [reflexivity|].
    apply (includes_false_inside text); [|exact A].
    now apply (exec_lang true (assignmentSectionRegex G s)). }
  split; [exact X|]. split; [|exact X].
  intros sectionTitle. unfold extractBulletPoints.
  destruct (sectionBlock G text sectionTitle) as [block|] eqn:E; [|reflexivity].
  rewrite matchAll_without_bullet; [reflexivity|].
  apply (includes_false_inside text); [|exact A].
  now apply (sectionBlock_includes G text sectionTitle).
Qed.

Lemma no_marker_no_entries_witness :
  extractAssignments glyphs1252 (hostAt 0) (sampleSummary glyphs) = [] /\
  extractBulletPoints glyphs1252 (sampleSummary glyphs) (u16 "TEST DATES") = [].
Proof.
  destruct (no_marker_no_entries glyphs1252 (hostAt 0) (sampleSummary glyphs))
    as (A & B & _).
  - vm_compute. reflexivity.
  - split; [exact A | apply B].
Defined.

(** ** More on the merge *)

Lemma merged_ext (m m' : merged) :
  (forall f, getField f (info m) = getField f (info m')) ->
  (forall c, getList c m = getList c m') ->
  m = m'.
Proof.
  intros F L.
  destruct m as [[n p e d o] l1 l2 l3 l4 l5], m' as [[n' p' e' d' o'] k1 k2 k3 k4 k5].
  pose proof (F FName) as F1. pose proof (F FProfessor) as F2.
  pose proof (F FEmail) as F3. pose proof (F FMeetingDays) as F4.
  pose proof (F FOfficeHours) as F5.
  pose proof (L CTestDates) as L1. pose proof (L CAssignmentDeadlines) as L2.
  pose proof (L CWeeklyReadings) as L3. pose proof (L CMajorDeliverables) as L4.
  pose proof (L CImportantDates) as L5.
  simpl in *. congruence.
Qed.

Lemma pushUnique_known (acc new : list jsstring) :
  (forall x, In x new -> In x acc) -> pushUnique acc new = acc.
Proof.
  intros A. rewrite pushUnique_spec.
  replace (filter (fun x => negb (arrIncludes acc x)) new) with (@nil jsstring);
    [apply app_nil_r|].
  symmetry. induction new as [|x new IH]; [reflexivity|]. simpl.
  assert (X : arrIncludes acc x = true) by (apply arrIncludes_In, A; now left).
  rewrite X. simpl. apply IH. intros y I. apply A. now right.
Qed.

Lemma pushUnique_In (acc new : list jsstring) (x : jsstring) :
  In x (pushUnique acc new) <-> In x acc \/ In x new.
Proof.
  rewrite pushUnique_spec, in_app_iff, firstOccurrences_In, filter_In.
  split.
  - intros [I | (I & _)]; auto.
  - intros [I | I]; [now left|].
    destruct (arrIncludes acc x) eqn:A.
    + left. now apply arrIncludes_In.
    + right. now split.
Qed.

Lemma firstOffer_empty (G : Glyphs) (marker label : jsstring)
      (contents : list jsstring) :
  firstOffer G marker label contents = [] <->
  forall t, In t contents -> offered G marker label t = [].
Proof.
  unfold firstOffer. induction contents as [|t contents IH]; simpl.
  - split; [intros _ t [] | reflexivity].
  - destruct (truthy (offered G marker label t)) eqn:T.
    + split.
      * intros E. rewrite E in T. discriminate.
      * intros A. rewrite (A t (or_introl eq_refl)) in T. discriminate.
    + apply truthy_false in T. rewrite IH. split.
      * intros A u [<- | I]; [exact T | now apply A].
      * intros A u I. apply A. now right.
Qed.

Lemma mergePages_known (G : Glyphs) (pages more : list page) :
  (forall p, In p more -> In (plain_text (data p)) (texts pages)) ->
  mergePages G (pages ++ more) = mergePages G pages.
Proof.
  intros A. unfold mergePages. rewrite fold_left_app.
  assert (T : forall t, In t (texts more) -> In t (texts pages)).
  { intros t I. unfold texts in I. apply in_map_iff in I.
    destruct I as (p & <- & I). now apply A. }
  apply merged_ext.
  - intros f. rewrite fold_field.
    destruct (truthy (getField f (info (fold_left (mergePage G) pages emptyMerged))))
      eqn:E; [reflexivity|].
    apply truthy_false in E. rewrite E.
    rewrite fold_field in E.
    replace (truthy (getField f (info emptyMerged))) with false in E
      by now destruct f.
    apply firstOffer_empty. intros t I.
    apply (proj1 (firstOffer_empty G _ _ _) E). now apply T.
  - intros c. rewrite fold_list. apply pushUnique_known.
    intros x I. rewrite fold_list. apply pushUnique_In. right.
    apply in_flat_map in I. destruct I as (t & It & Ix).
    apply in_flat_map. exists t. split; [now apply T | exact Ix].
Qed.

(** X11. Merging is idempotent: pages whose text is that of a page
    already merged add nothing, neither to a field nor to a list, so the
    summary is the same; in particular a page list merged with itself. *)
Theorem merge_known_pages_add_nothing :
  forall (G : Glyphs) (pages more : list page),
    (forall p, In p more -> In (plain_text (data p)) (texts pages)) ->
    mergePages G (pages ++ more) = mergePages G pages /\
    combineAllResults G (pages ++ more) = combineAllResults G pages.
Proof.
  intros G pages more A. unfold combineAllResults.
  now rewrite (mergePages_known G pages more A).
Qed.

Lemma merge_known_pages_add_nothing_witness :
  combineAllResults glyphs (pagesOctober glyphs ++ pagesOctober glyphs) =
  combineAllResults glyphs (pagesOctober glyphs).
Proof.
  apply (merge_known_pages_add_nothing glyphs).
  intros p I. unfold texts.
  exact (in_map (fun q => plain_text (data q)) _ p I).
Defined.

(** The capture of a course-information pattern. *)
Lemma infoRegex_exec (G : Glyphs) (label content : jsstring) (m : mres) :
  exec false (infoRegex G label) content = Some m ->
  exists g, m_group m = Some g /\ fieldValue G g /\ includes content g = true.
Proof.
  intros E. unfold exec in E.
  destruct (searchFrom_at _ _ _ _ _ E) as (t & [p ->] & M).
  unfold matchAt, infoRegex, seqs in M. cbn [fold_right] in M.
  apply run_seq in M. destruct M as (w1 & s1 & c1 & -> & _ & M).
  change (run false (length (p ++ w1 ++ s1))
              (Group (Plus (noneOf (NL :: bullet G)))) s1 c1
              (fun s' cap' =>
                 run false (length (p ++ w1 ++ s1)) (Str []) s' cap'
                     (fun s'0 cap =>
                        Some (MRes (length (p ++ w1 ++ s1) - length (w1 ++ s1))
                                   (firstn (length (w1 ++ s1) - length s'0)
                                           (w1 ++ s1)) cap s'0))) = Some m) in M.
  apply run_group in M. destruct M as (g & s3 & -> & L3 & M). simpl in M.
  injection M as <-. exists g. split; [reflexivity|].
  split; [apply (fieldValue_lang G false g L3)|].
  apply includes_spec. exists (p ++ w1), s3. now rewrite <- !app_assoc.
Qed.

Lemma offered_value (G : Glyphs) (marker label content v : jsstring) :
  offered G marker label content = v -> v <> [] ->
  includes content v = true /\ includes v marker = false /\ trim v = v /\
  forall c, In c v -> c <> NL /\ ~ In c (bullet G).
Proof.
  unfold offered. intros E N0.
  destruct (exec false (infoRegex G label) content) as [m|] eqn:X;
    [|now elim N0].
  destruct (infoRegex_exec _ _ _ _ X) as (g & Eg & (_ & V) & I).
  rewrite Eg in E.
  destruct (includes g marker) eqn:M; [now elim N0|]. subst v.
  split; [apply (includes_trans _ g); [exact I | apply trim_includes]|].
  split; [apply (includes_false_inside g); [apply trim_includes | exact M]|].
  split; [apply trim_idem|].
  intros c Ic. apply V.
  pose proof (trim_includes g) as TI. apply includes_spec in TI.
  destruct TI as (pre & post & TI). rewrite TI, !in_app_iff. right. now left.
Qed.

(** X12. A field of the merged course information is either empty or
    the trimmed value of a line of one of the pages: a piece of that
    page's text without a newline, without any unit of the bullet marker
    and without the phrase "Not specified". *)
Theorem merged_field_values :
  forall (G : Glyphs) (pages : list page) (f : field) (v : jsstring),
    getField f (info (mergePages G pages)) = v ->
    v <> [] ->
    (exists p, In p pages /\ includes (plain_text (data p)) v = true) /\
    includes v notSpecified = false /\
    includes v placeholder = false /\
    trim v = v /\
    forall c, In c v -> c <> NL /\ ~ In c (bullet G).
Proof.
  intros G pages f v E N0. unfold mergePages in E. rewrite fold_field in E.
  replace (truthy (getField f (info emptyMerged))) with false in E
    by now destruct f.
  unfold firstOffer in E.
  destruct (find truthy (map (offered G notSpecified (mergeLabel f)) (texts pages)))
    as [o|] eqn:F; [|now elim N0].
  subst o. apply find_some in F. destruct F as (F & _).
  apply in_map_iff in F. destruct F as (t & O & It).
  unfold texts in It. apply in_map_iff in It. destruct It as (p & <- & Ip).
  destruct (offered_value G _ _ _ _ O N0) as (I & M & T & V).
  split; [now exists p|]. split; [exact M|]. split; [|now split].
  destruct (includes v placeholder) eqn:P; [|reflexivity].
  change placeholder with (notSpecified ++ u16 " in document") in P.
  apply includes_longer in P. congruence.
Qed.

Lemma merged_field_values_witness :
  includes (u16 "Dr. A") notSpecified = false /\ trim (u16 "Dr. A") = u16 "Dr. A".
Proof.
  destruct (merged_field_values glyphs (pagesAB glyphs) FProfessor (u16 "Dr. A"))
    as (_ & N & _ & T & _).
  - vm_compute. reflexivity.
  - discriminate.
  - split; [exact N | exact T].
Defined.

(** ** More on the summary *)

Lemma includes_prefix (s t b : jsstring) :
  includes s t = true -> includes (s ++ b) t = true.
Proof.
  intros I. apply includes_spec in I. destruct I as (pre & post & ->).
  apply includes_spec. exists pre, (post ++ b). now rewrite <- !app_assoc.
Qed.

Lemma firstOccurrences_NoDup_id (l : list jsstring) :
  NoDup l -> firstOccurrences l = l.
Proof.
  induction 1 as [|x l N0 _ IH]; simpl; [reflexivity|].
  rewrite IH. f_equal. apply forallb_filter_id, forallb_forall.
  intros y I. apply negb_true_iff.
  destruct (str_eqb x y) eqn:E; [|reflexivity].
  apply str_eqb_eq in E. now subst y.
Qed.

Lemma merged_list_NoDup (G : Glyphs) (pages : list page) (c : category) :
  NoDup (getList c (mergePages G pages)).
Proof.
  unfold mergePages. rewrite fold_list, pushUnique_spec.
  replace (getList c emptyMerged) with (@nil jsstring) by now destruct c.
  apply firstOccurrences_NoDup.
Qed.

Lemma bulletList_some (G : Glyphs) (items shown : list jsstring) :
  items <> [] -> bulletList G items shown = bulletLines G shown.
Proof. intros N0. destruct items; [now elim N0 | reflexivity]. Qed.

(** X13. The summary shows what was merged.  A field that has a value
    appears on its line of the course information.  Each of the three
    lists the summary prints appears under its heading as it was merged:
    one bullet line per entry, in the order of the merge, followed by an
    empty line.  For the important dates the removal of duplicates at this
    point changes nothing, the merge having removed them already. *)
Theorem summary_shows_merged_values :
  forall (G : Glyphs) (pages : list page),
    (forall f,
        getField f (info (mergePages G pages)) <> [] ->
        includes (plain_text (combineAllResults G pages))
                 (bullet G ++ u16 " " ++ templateLabel f ++ u16 ": " ++
                  getField f (info (mergePages G pages)) ++ [NL]) = true) /\
    (forall c h,
        heading G c = Some h ->
        getList c (mergePages G pages) <> [] ->
        includes (plain_text (combineAllResults G pages))
                 (h ++ [NL] ++ bulletLines G (getList c (mergePages G pages)) ++
                  [NL; NL]) = true).
Proof.
  intros G pages. unfold combineAllResults. cbn [plain_text].
  pose proof (merged_list_NoDup G pages CImportantDates) as ND.
  set (m := mergePages G pages) in *. unfold render. split.
  - intros f N0.
    assert (O : orElse (getField f (info m)) notSpecified = getField f (info m)).
    { unfold orElse. destruct (getField f (info m)); [now elim N0 | reflexivity]. }
    destruct f; cbn [getField templateLabel] in *; rewrite O, <- ?app_assoc;
      locate.
  - intros c h Hh N0.
    destruct c; cbn [getList] in N0; simpl in Hh; try discriminate;
      injection Hh as <-; cbn [getList]; cbn [getList] in ND.
    + rewrite (bulletList_some G _ (testDates m) N0), <- ?app_assoc. locate.
    + rewrite (bulletList_some G _ (assignmentDeadlines m) N0), <- ?app_assoc.
      locate.
    + rewrite (bulletList_some G _ (uniq (importantDates m)) N0), uniq_spec,
        (firstOccurrences_NoDup_id _ ND), <- ?app_assoc.
      locate.
Qed.

Lemma summary_shows_merged_values_witness :
  includes (plain_text (combineAllResults glyphs (pagesOctober glyphs)))
           ((memo glyphs ++ u16 " EXAM DATES") ++ [NL] ++
            bulletLines glyphs
              (getList CTestDates (mergePages glyphs (pagesOctober glyphs))) ++
            [NL; NL])
  = true.
Proof.
  apply (proj2 (summary_shows_merged_values glyphs (pagesOctober glyphs))
               CTestDates).
  - reflexivity.
  - vm_compute. discriminate.
Defined.

(** ** The pages that are analysed *)

Lemma keyPages_small (n : nat) : 1 <= n <= 4 -> keyPages n = seq 0 n.
Proof.
  intros [L U].
  destruct n as [|[|[|[|[|n]]]]]; try lia; reflexivity.
Qed.

Lemma keyPages_large (n : nat) : 4 <= n -> keyPages n = [0; 1; n - 2; n - 1].
Proof.
  intros L. unfold keyPages.
  destruct (Nat.ltb_spec 1 n); [|lia]. destruct (Nat.ltb_spec 2 n); [|lia].
  unfold pushFrom.
  replace (Nat.max 2 (n - 2)) with (n - 2) by lia.
  replace (n - (n - 2)) with 2 by lia.
  replace (n - 1) with (S (n - 2)) by lia.
  cbn [seq fold_left app existsb].
  destruct (Nat.eqb_spec (n - 2) 0); [lia|].
  destruct (Nat.eqb_spec (n - 2) 1); [lia|]. cbn [orb app existsb].
  destruct (Nat.eqb_spec (S (n - 2)) 0); [lia|].
  destruct (Nat.eqb_spec (S (n - 2)) 1); [lia|].
  destruct (Nat.eqb_spec (S (n - 2)) (n - 2)); [lia|]. reflexivity.
Qed.

Lemma keyPages_In (n i : nat) :
  1 <= n -> (In i (keyPages n) <-> i < n /\ (i < 2 \/ n <= i + 2)).
Proof.
  intros L. destruct (Nat.le_gt_cases n 4) as [U | U].
  - rewrite keyPages_small by lia. rewrite in_seq. lia.
  - rewrite keyPages_large by lia. simpl. lia.
Qed.

(** X14. For a document of up to four pages every page is analysed, in
    page order; for a longer one exactly the first two and the last two
    pages are.  No page is analysed twice, so the test that guards the
    loop never skips anything. *)
Theorem keyPages_first_two_and_last_two :
  forall n : nat,
    1 <= n ->
    (n <= 4 -> keyPages n = seq 0 n) /\
    (4 <= n -> keyPages n = [0; 1; n - 2; n - 1]) /\
    NoDup (keyPages n) /\
    length (keyPages n) = Nat.min n 4 /\
    (forall i, In i (keyPages n) <-> i < n /\ (i < 2 \/ n <= i + 2)).
Proof.
  intros n L.
  split; [intros U; apply keyPages_small; lia|].
  split; [apply keyPages_large|].
  split; [|split; [|intros i; now apply keyPages_In]].
  - destruct (Nat.le_gt_cases n 4) as [U | U].
    + rewrite keyPages_small by lia. apply seq_NoDup.
    + rewrite keyPages_large by lia.
      repeat constructor; simpl; lia.
  - destruct (Nat.le_gt_cases n 4) as [U | U].
    + rewrite keyPages_small by lia. rewrite length_seq. lia.
    + rewrite keyPages_large by lia. simpl. lia.
Qed.

Lemma keyPages_first_two_and_last_two_witness :
  keyPages 9 = [0; 1; 7; 8] /\ keyPages 3 = seq 0 3.
Proof.
  split.
  - apply (proj1 (proj2 (keyPages_first_two_and_last_two 9 ltac:(lia)))). lia.
  - apply (proj1 (keyPages_first_two_and_last_two 3 ltac:(lia))). lia.
Defined.

Section AnalysisProperties.

Variable G : Glyphs.
Variable File : Type.
Variable analyzePageWithOpenAI : File -> option pageData.

Lemma analyzeKeyPage_same (files files' : list File) (l : list nat) :
  (forall i, In i l -> nth_error files i = nth_error files' i) ->
  map (analyzeKeyPage analyzePageWithOpenAI files) l =
  map (analyzeKeyPage analyzePageWithOpenAI files') l.
Proof.
  intros A. apply map_ext_in. intros i I. unfold analyzeKeyPage.
  now rewrite (A i I).
Qed.

Lemma analyzePages_same (files files' : list File) :
  length files = length files' ->
  (forall i, i < 2 \/ length files <= i + 2 ->
             nth_error files i = nth_error files' i) ->
  analyzePages G analyzePageWithOpenAI files =
  analyzePages G analyzePageWithOpenAI files'.
Proof.
  intros L A. unfold analyzePages. rewrite <- L.
  destruct (Nat.ltb_spec 1 (length files)) as [M | M].
  - rewrite (analyzeKeyPage_same files files'); [reflexivity|].
    intros i I. apply A. apply keyPages_In in I; [tauto | lia].
  - pose proof (A 0 (or_introl (Nat.lt_0_succ 1))) as Z0.
    destruct files, files'; simpl in *; congruence.
Qed.

Lemma promiseAll_None (A : Type) (l : list (option A)) :
  In None l -> promiseAll l = None.
Proof.
  induction l as [|[a|] l IH]; simpl; intros I.
  - destruct I.
  - destruct I as [I | I]; [discriminate|]. now rewrite IH.
  - reflexivity.
Qed.

Lemma promiseAll_map (A B : Type) (f : A -> option B) (g : A -> B) (l : list A) :
  (forall a, In a l -> f a = Some (g a)) ->
  promiseAll (map f l) = Some (map g l).
Proof.
  induction l as [|a l IH]; intros E; simpl; [reflexivity|].
  rewrite (E a (or_introl eq_refl)), IH; [reflexivity|].
  intros b I. apply E. now right.
Qed.

End AnalysisProperties.

(** X15. The third to the third-last page of a converted PDF have no
    part in the result: two documents of the same length that agree on
    their first two and their last two pages are analysed alike, the
    failure of the analysis included. *)
Theorem analyzePages_ignores_middle_pages :
  forall (G : Glyphs) (File : Type) (analyzePageWithOpenAI : File -> option pageData)
         (files files' : list File),
    length files = length files' ->
    (forall i, i < 2 \/ length files <= i + 2 ->
               nth_error files i = nth_error files' i) ->
    analyzePages G analyzePageWithOpenAI files =
    analyzePages G analyzePageWithOpenAI files'.
Proof. exact analyzePages_same. Qed.

Lemma analyzePages_ignores_middle_pages_witness :
  analyzePages glyphs (fun t => if truthy t then Some {| plain_text := t |} else None)
               [u16 "p1"; u16 "p2"; u16 "p3"; u16 "p4"; u16 "p5"] =
  analyzePages glyphs (fun t => if truthy t then Some {| plain_text := t |} else None)
               [u16 "p1"; u16 "p2"; []; u16 "p4"; u16 "p5"].
Proof.
  apply analyzePages_ignores_middle_pages.
  - reflexivity.
  - intros i L. destruct i as [|[|[|[|[|i]]]]]; try reflexivity.
    simpl in L. lia.
Defined.

(** X16. Of a converted PDF of several pages either every analysed page
    contributes or there is no result at all: when the analysis of one of
    the key pages fails the whole analysis fails, and when all succeed the
    result is the summary of exactly these pages, in page order, numbered
    from one. *)
Theorem analyzePages_all_or_nothing :
  forall (G : Glyphs) (File : Type) (analyzePageWithOpenAI : File -> option pageData)
         (files : list File),
    2 <= length files ->
    (forall i file,
        In i (keyPages (length files)) ->
        nth_error files i = Some file ->
        analyzePageWithOpenAI file = None ->
        analyzePages G analyzePageWithOpenAI files = None) /\
    (forall d : nat -> pageData,
        (forall i file,
            In i (keyPages (length files)) ->
            nth_error files i = Some file ->
            analyzePageWithOpenAI file = Some (d i)) ->
        analyzePages G analyzePageWithOpenAI files =
        Some (combineAllResults G
                (map (fun i => {| pageNumber := Z.of_nat i + 1; data := d i |})
                     (keyPages (length files))))).
Proof.
  intros G File analyze files L. unfold analyzePages.
  destruct (Nat.ltb_spec 1 (length files)) as [M | M]; [|lia].
  split.
  - intros i file I N0 A. rewrite promiseAll_None; [reflexivity|].
    apply in_map_iff. exists i. split; [|exact I].
    unfold analyzeKeyPage. now rewrite N0, A.
  - intros d A.
    rewrite (promiseAll_map _ _ _
               (fun i => {| pageNumber := Z.of_nat i + 1; data := d i |}));
      [reflexivity|].
    intros i I. unfold analyzeKeyPage.
    destruct (nth_error files i) as [file|] eqn:N0.
    + now rewrite (A i file I N0).
    + apply nth_error_None in N0. apply keyPages_In in I; lia.
Qed.

Lemma analyzePages_all_or_nothing_witness :
  analyzePages glyphs (fun t => if truthy t then Some {| plain_text := t |} else None)
               [u16 "p1"; u16 "p2"; u16 "p3"; u16 "p4"; u16 "p5"; []] = None.
Proof.
  apply (proj1 (analyzePages_all_or_nothing
                  glyphs jsstring
                  (fun t => if truthy t then Some {| plain_text := t |} else None)
                  [u16 "p1"; u16 "p2"; u16 "p3"; u16 "p4"; u16 "p5"; []]
                  ltac:(simpl; lia)) 5 []).
  - simpl. auto.
  - reflexivity.
  - reflexivity.
Defined.

(** ** The scan route *)

Section RouteProperties.

Variable G : Glyphs.
Variable H : Host.
Variables (File DB : Type).
Variable analyzeSyllabusWithOpenAI : File -> option value.
Variable insertCourse : DB -> jsstring -> courseDataV -> DB * result Z.
Variable insert : DB -> Z -> assignment -> DB * result Z.

Lemma parseSyllabusDataV_object (fields : list (jsstring * value)) :
  parseSyllabusDataV G H (VObj fields) = Throw TypeError.
Proof. unfold parseSyllabusDataV. now rewrite extractFieldV_object. Qed.

Lemma records_readable (assignments : list assignment) :
  forallb Store.isRecord assignments = true.
Proof. now apply forallb_forall. Qed.

Lemma saveAssignments_spec (db : DB) (courseId : Z) (assignments : list assignment) :
  Route.saveAssignments insert db courseId assignments =
  (Store.afterAll insert db courseId assignments,
   Ok (Store.okIds (Store.outcomes insert db courseId assignments))).
Proof.
  unfold Route.saveAssignments, Store.saveMultipleAssignments.
  destruct assignments as [|a l]; [reflexivity|].
  cbn [length Nat.ltb Nat.leb].
  now rewrite (saveLoop_spec _ _ _ _ _ _ _ (records_readable (a :: l))).
Qed.

Lemma scanRouteText_page (c : N) (content : jsstring) :
  scanRouteText G H (pageObject (c :: content)) =
  parseSyllabusDataV G H (VStr (c :: content)).
Proof. reflexivity. Qed.

End RouteProperties.

(** X17. server.js answers an upload with status 500 and leaves the
    database as it was when no database is connected, whatever the file,
    when the analysis throws, and when the analysis returns an object,
    as it does for an image, the parsing of which throws a TypeError:
    nothing of such an upload is saved. *)
Theorem scanSyllabus_refuses_without_saving :
  forall (G : Glyphs) (H : Host) (File DB : Type)
         (analyzeSyllabusWithOpenAI : File -> option value)
         (insertCourse : DB -> jsstring -> courseDataV -> DB * result Z)
         (insert : DB -> Z -> assignment -> DB * result Z)
         (f : File) (userIdHeader : option jsstring) (db : DB),
    Route.scanSyllabus G H analyzeSyllabusWithOpenAI insertCourse insert
                       (Some f) userIdHeader false db =
      (Route.Failed Route.NoDatabase, db) /\
    (forall fields,
        analyzeSyllabusWithOpenAI f = Some (VObj fields) ->
        Route.scanSyllabus G H analyzeSyllabusWithOpenAI insertCourse insert
                           (Some f) userIdHeader true db =
          (Route.Failed (Route.Thrown TypeError), db)) /\
    (analyzeSyllabusWithOpenAI f = None ->
     Route.scanSyllabus G H analyzeSyllabusWithOpenAI insertCourse insert
                        (Some f) userIdHeader true db =
       (Route.Failed Route.AnalysisFailed, db)).
Proof.
  intros G H File DB analyze insertCourse insert f header db.
  split; [reflexivity|]. split.
  - intros fields A. unfold Route.scanSyllabus. cbn [negb]. rewrite A.
    unfold scanRoute. now rewrite parseSyllabusDataV_object.
  - intros A. unfold Route.scanSyllabus. cbn [negb]. now rewrite A.
Qed.

Lemma scanSyllabus_refuses_without_saving_witness :
  Route.scanSyllabus glyphs1252 (hostAt 0)
                     (fun f : jsstring => Some (pageObject f))
                     (fun db _ _ => (db, Ok 1%Z)) Store.strictInsert
                     (Some (sampleSummary glyphs1252)) None true [] =
  (Route.Failed (Route.Thrown TypeError), []).
Proof.
  apply (proj1 (proj2 (scanSyllabus_refuses_without_saving
                         glyphs1252 (hostAt 0) jsstring Store.table
                         (fun f : jsstring => Some (pageObject f))
                         (fun db _ _ => (db, Ok 1%Z)) Store.strictInsert
                         (sampleSummary glyphs1252) None [])))
    with (fields := [(u16 "plain_text", VStr (sampleSummary glyphs1252))]).
  reflexivity.
Defined.

(** X18. When the analysis returns a text, server.js saves the course
    under the user id of the request, or under 'anonymous' when the
    header is missing or empty, and fails only if that INSERT fails.  The
    assignments are then saved one by one on the state the course left,
    under the id it returned; a failing assignment costs the response
    nothing but its count. *)
Theorem scanSyllabus_saves_text :
  forall (G : Glyphs) (H : Host) (File DB : Type)
         (analyzeSyllabusWithOpenAI : File -> option value)
         (insertCourse : DB -> jsstring -> courseDataV -> DB * result Z)
         (insert : DB -> Z -> assignment -> DB * result Z)
         (f : File) (userIdHeader : option jsstring) (db : DB)
         (text : jsstring) (courseData : courseDataV)
         (assignments : list assignment),
    analyzeSyllabusWithOpenAI f = Some (VStr text) ->
    parseSyllabusDataV G H (VStr text) = Ok (courseData, assignments) ->
    let user := match userIdHeader with
                | Some (c :: u) => c :: u
                | _ => anonymous
                end in
    assignments = extractAssignments G H text /\
    (forall db1 e,
        insertCourse db user courseData = (db1, Throw e) ->
        Route.scanSyllabus G H analyzeSyllabusWithOpenAI insertCourse insert
                           (Some f) userIdHeader true db =
          (Route.Failed (Route.Thrown e), db1)) /\
    (forall db1 courseId,
        insertCourse db user courseData = (db1, Ok courseId) ->
        Route.scanSyllabus G H analyzeSyllabusWithOpenAI insertCourse insert
                           (Some f) userIdHeader true db =
          (Route.Processed
             courseId (course_nameV courseData) (professor_nameV courseData)
             (professor_emailV courseData) (length assignments)
             (length (Store.okIds (Store.outcomes insert db1 courseId assignments))),
           Store.afterAll insert db1 courseId assignments) /\
        length (Store.okIds (Store.outcomes insert db1 courseId assignments))
        <= length assignments).
Proof.
  intros G H File DB analyze insertCourse insert f header db text courseData
         assignments A P user.
  assert (U : match header with
              | Some u => orElse u anonymous
              | None => anonymous
              end = user).
  { unfold user. destruct header as [[|c u]|]; reflexivity. }
  assert (O : orElse user anonymous = user).
  { unfold user. destruct header as [[|c u]|]; reflexivity. }
  split.
  - rewrite parseSyllabusDataV_string in P. now injection P as _ <-.
  - split.
    + intros db1 e I. unfold Route.scanSyllabus. cbn [negb].
      rewrite A. unfold scanRoute. rewrite P. unfold saveCourse.
      now rewrite U, O, I.
    + intros db1 courseId I. split.
      * unfold Route.scanSyllabus. cbn [negb].
        rewrite A. unfold scanRoute. rewrite P. unfold saveCourse.
        now rewrite U, O, I, saveAssignments_spec.
      * etransitivity; [apply okIds_length|]. now rewrite outcomes_length.
Qed.

Lemma scanSyllabus_saves_text_witness :
  fst (Route.scanSyllabus glyphs1252 (hostAt 0)
                          (fun f : jsstring => Some (VStr f))
                          (fun db _ _ => (db, Ok 7%Z)) Store.strictInsert
                          (Some (sampleSummary glyphs1252)) (Some []) true []) =
  Route.Processed 7 (u16 "Unknown Course") (u16 "Unknown Professor") [] 3 3.
Proof.
  destruct (scanSyllabus_saves_text
              glyphs1252 (hostAt 0) jsstring Store.table
              (fun f : jsstring => Some (VStr f))
              (fun db _ _ => (db, Ok 7%Z)) Store.strictInsert
              (sampleSummary glyphs1252) (Some []) []
              (sampleSummary glyphs1252) _ _ eq_refl
              (parseSyllabusDataV_string glyphs1252 (hostAt 0)
                                         (sampleSummary glyphs1252)))
    as (_ & _ & S).
  destruct (S [] 7%Z eq_refl) as (E & _).
  rewrite E. vm_compute. reflexivity.
Defined.

(** X19. The page-image server answers 200 with the analysis unchanged
    whenever the analysis returned a text that is not empty, whatever the
    database does.  Without a database, or when the course cannot be
    saved, the response carries no course id and counts no assignment,
    and no assignment is written; otherwise it counts the assignments
    that were saved. *)
Theorem scanSyllabusPages_tolerates_the_database :
  forall (G : Glyphs) (H : Host) (File DB : Type)
         (analyzeSyllabusWithOpenAI : File -> option value)
         (insertCourse : DB -> jsstring -> courseDataV -> DB * result Z)
         (insert : DB -> Z -> assignment -> DB * result Z)
         (f : File) (db : DB) (c : N) (content : jsstring)
         (courseData : courseDataV) (assignments : list assignment),
    analyzeSyllabusWithOpenAI f = Some (pageObject (c :: content)) ->
    parseSyllabusDataV G H (VStr (c :: content)) = Ok (courseData, assignments) ->
    Route.scanSyllabusPages G H analyzeSyllabusWithOpenAI insertCourse insert
                            (Some f) false db =
      (Route.Analysed (pageObject (c :: content)) None 0, db) /\
    (forall db1 e,
        insertCourse db anonymous courseData = (db1, Throw e) ->
        Route.scanSyllabusPages G H analyzeSyllabusWithOpenAI insertCourse insert
                                (Some f) true db =
          (Route.Analysed (pageObject (c :: content)) None 0, db1)) /\
    (forall db1 courseId,
        insertCourse db anonymous courseData = (db1, Ok courseId) ->
        Route.scanSyllabusPages G H analyzeSyllabusWithOpenAI insertCourse insert
                                (Some f) true db =
          (Route.Analysed
             (pageObject (c :: content)) (Some courseId)
             (length (Store.okIds (Store.outcomes insert db1 courseId assignments))),
           Store.afterAll insert db1 courseId assignments)).
Proof.
  intros G H File DB analyze insertCourse insert f db c content courseData
         assignments A P.
  unfold Route.scanSyllabusPages. rewrite A, scanRouteText_page, P.
  split; [reflexivity|]. split.
  - intros db1 e I. unfold Route.trySave, saveCourse. now rewrite I.
  - intros db1 courseId I. unfold Route.trySave, saveCourse.
    now rewrite I, saveAssignments_spec.
Qed.

Lemma scanSyllabusPages_tolerates_the_database_witness :
  Route.scanSyllabusPages glyphs (hostAt 0)
                          (fun f : jsstring => Some (pageObject f))
                          (fun db _ _ => (db, Throw DriverError))
                          Store.strictInsert
                          (Some (sampleSummary glyphs)) true [] =
  (Route.Analysed (pageObject (sampleSummary glyphs)) None 0, []).
Proof.
  destruct (scanSyllabusPages_tolerates_the_database
              glyphs (hostAt 0) jsstring Store.table
              (fun f : jsstring => Some (pageObject f))
              (fun db _ _ => (db, Throw DriverError)) Store.strictInsert
              (sampleSummary glyphs) [] 55357%N
              (tl (sampleSummary glyphs)) _ _ eq_refl
              (parseSyllabusDataV_string glyphs (hostAt 0)
                                         (sampleSummary glyphs)))
    as (_ & S & _).
  exact (S [] DriverError eq_refl).
Defined.

(** ** The background worker *)

Lemma update_In (set : Job.row -> Job.row) (jobId : jsstring)
      (jobs : list Job.row) (j : Job.row) :
  In j (Job.update set jobId jobs) <->
  exists j0, In j0 jobs /\
             j = if str_eqb (Job.id j0) jobId then set j0 else j0.
Proof.
  unfold Job.update. rewrite in_map_iff. split.
  - intros (j0 & E & I). now exists j0.
  - intros (j0 & I & E). now exists j0.
Qed.

Lemma update_ids (set : Job.row -> Job.row) (jobId : jsstring)
      (jobs : list Job.row) :
  (forall j, Job.id (set j) = Job.id j) ->
  map Job.id (Job.update set jobId jobs) = map Job.id jobs.
Proof.
  intros P. unfold Job.update. rewrite map_map. apply map_ext. intros j.
  destruct (str_eqb (Job.id j) jobId); [apply P | reflexivity].
Qed.

Lemma written_id (st : Job.statement) (j : Job.row) :
  Job.id (Job.written st j) = Job.id j.
Proof. now destruct st. Qed.

Lemma update_other (set : Job.row -> Job.row) (jobId : jsstring)
      (jobs : list Job.row) (j : Job.row) :
  (forall j0, Job.id (set j0) = Job.id j0) ->
  Job.id j <> jobId ->
  (In j (Job.update set jobId jobs) <-> In j jobs).
Proof.
  intros P Nj. rewrite update_In. split.
  - intros (j0 & I & ->).
    destruct (str_eqb (Job.id j0) jobId) eqn:X; [|exact I].
    apply str_eqb_eq in X. rewrite P in Nj. now elim Nj.
  - intros I. exists j. split; [exact I|].
    destruct (str_eqb (Job.id j) jobId) eqn:X; [|reflexivity].
    apply str_eqb_eq in X. now elim Nj.
Qed.

Lemma update_own (set : Job.row -> Job.row) (jobId : jsstring)
      (jobs : list Job.row) (j : Job.row) :
  In j (Job.update set jobId jobs) ->
  Job.id j = jobId ->
  exists j0, In j0 jobs /\ j = set j0.
Proof.
  intros I Ej. apply update_In in I. destruct I as (j0 & I & ->).
  destruct (str_eqb (Job.id j0) jobId) eqn:X; [now exists j0|].
  apply str_eqb_eq in Ej. congruence.
Qed.

Section WorkerProperties.

Variable DB : Type.
Variable raised : Job.statement -> jsstring -> list Job.row -> option error.
Variable stringify : value -> value.
Variable analyzeSyllabusWithOpenAI : jsstring -> value + jsstring.
Variable messageOf : error -> jsstring.
Variable insertCourse : DB -> jsstring -> Worker.courseData -> DB * result Z.
Variable insert : DB -> Z -> value -> DB * result Z.

(** The catch block of processJob either records the failure or rejects
    with the error of the statement, which wrote nothing. *)
Lemma recordFailure_cases (db : DB) (base : list Job.row) (job : Job.row)
      (message : jsstring) :
  (exists e,
      Job.recordFailure raised db base job message = (db, base, Throw e) /\
      raised (Job.SetError message) (Job.id job) base = Some e) \/
  Job.recordFailure raised db base job message =
    (db, Job.update (Job.written (Job.SetError message)) (Job.id job) base, Ok tt).
Proof.
  unfold Job.recordFailure, Job.updateJobError, Job.execute.
  destruct (raised (Job.SetError message) (Job.id job) base) as [e|].
  - left. now exists e.
  - now right.
Qed.

(** What processJob leaves in the jobs table, whatever the pool does. *)
Lemma processJob_table (job : Job.row) (db : DB) (jobs : list Job.row) :
  exists base,
    (base = jobs \/
     base = Job.update (Job.written (Job.SetStatus Job.Processing))
                       (Job.id job) jobs) /\
    ((exists e message,
         snd (Job.processJob raised stringify analyzeSyllabusWithOpenAI messageOf
                             insertCourse insert job db jobs) = Throw e /\
         snd (fst (Job.processJob raised stringify analyzeSyllabusWithOpenAI
                                  messageOf insertCourse insert job db jobs)) =
           base /\
         raised (Job.SetError message) (Job.id job) base = Some e) \/
     (exists st,
         snd (Job.processJob raised stringify analyzeSyllabusWithOpenAI messageOf
                             insertCourse insert job db jobs) = Ok tt /\
         snd (fst (Job.processJob raised stringify analyzeSyllabusWithOpenAI
                                  messageOf insertCourse insert job db jobs)) =
           Job.update (Job.written st) (Job.id job) base /\
         ((exists message, st = Job.SetError message) \/
          (exists resultText courseId aiResponse,
              st = Job.SetResult resultText courseId /\
              analyzeSyllabusWithOpenAI (Job.file_path job) = inl aiResponse /\
              Job.readable aiResponse = true)))).
Proof.
  assert (F : forall (db0 : DB) base message,
             (base = jobs \/
              base = Job.update (Job.written (Job.SetStatus Job.Processing))
                                (Job.id job) jobs) ->
             exists base0,
               (base0 = jobs \/
                base0 = Job.update (Job.written (Job.SetStatus Job.Processing))
                                   (Job.id job) jobs) /\
               ((exists e message0,
                    snd (Job.recordFailure raised db0 base job message) = Throw e /\
                    snd (fst (Job.recordFailure raised db0 base job message)) =
                      base0 /\
                    raised (Job.SetError message0) (Job.id job) base0 = Some e) \/
                (exists st,
                    snd (Job.recordFailure raised db0 base job message) = Ok tt /\
                    snd (fst (Job.recordFailure raised db0 base job message)) =
                      Job.update (Job.written st) (Job.id job) base0 /\
                    ((exists message0, st = Job.SetError message0) \/
                     (exists resultText courseId aiResponse,
                         st = Job.SetResult resultText courseId /\
                         analyzeSyllabusWithOpenAI (Job.file_path job) =
                           inl aiResponse /\
                         Job.readable aiResponse = true))))).
  { intros db0 base message B. exists base. split; [exact B|].
    destruct (recordFailure_cases db0 base job message) as [(e & E & R) | E];
      rewrite E; cbn [fst snd].
    - left. exists e, message. now split.
    - right. exists (Job.SetError message). split; [reflexivity|].
      split; [reflexivity|]. left. now exists message. }
  unfold Job.processJob, Job.updateJobStatus, Job.updateJobResult, Job.execute.
  destruct (raised (Job.SetStatus Job.Processing) (Job.id job) jobs) as [e|].
  - apply F. now left.
  - destruct (analyzeSyllabusWithOpenAI (Job.file_path job)) as [ai | message].
    + destruct (Worker.parseSyllabusData stringify ai) as [[cd l] | e] eqn:P.
      * destruct (Job.trySave insertCourse insert db cd l) as [[db' cid] saved].
        match goal with
        | |- context [raised (Job.SetResult ?t ?c) ?i ?b] =>
            destruct (raised (Job.SetResult t c) i b) as [e|] eqn:R
        end.
        -- apply F. now right.
        -- eexists. split; [right; reflexivity|]. right.
           eexists. cbn [fst snd]. split; [reflexivity|]. split; [reflexivity|].
           right. eexists. eexists. exists ai. split; [reflexivity|].
           split; [reflexivity|]. destruct ai; try reflexivity; discriminate P.
      * apply F. now right.
    + apply F. now right.
Qed.

(** What processJob leaves when every statement on the jobs table goes
    through. *)
Lemma processJob_quiet (job : Job.row) (db : DB) (jobs : list Job.row) :
  (forall st t, raised st (Job.id job) t = None) ->
  exists st,
    snd (Job.processJob raised stringify analyzeSyllabusWithOpenAI messageOf
                        insertCourse insert job db jobs) = Ok tt /\
    snd (fst (Job.processJob raised stringify analyzeSyllabusWithOpenAI messageOf
                             insertCourse insert job db jobs)) =
      Job.update (Job.written st) (Job.id job)
                 (Job.update (Job.written (Job.SetStatus Job.Processing))
                             (Job.id job) jobs) /\
    (forall j, Job.status (Job.written st j) =
               match analyzeSyllabusWithOpenAI (Job.file_path job) with
               | inl VNull | inl VUndefined | inr _ => Job.Failed
               | inl _ => Job.Completed
               end).
Proof.
  intros Q.
  unfold Job.processJob, Job.recordFailure, Job.updateJobStatus,
    Job.updateJobResult, Job.updateJobError, Job.execute.
  rewrite Q.
  destruct (analyzeSyllabusWithOpenAI (Job.file_path job)) as [ai | message].
  - destruct (Worker.parseSyllabusData stringify ai) as [[cd l] | e] eqn:P.
    + destruct (Job.trySave insertCourse insert db cd l) as [[db' cid] saved].
      rewrite Q. eexists. split; [reflexivity|]. split; [reflexivity|].
      intros j. destruct ai; try reflexivity; discriminate P.
    + rewrite Q. eexists. split; [reflexivity|]. split; [reflexivity|].
      intros j. destruct ai; try reflexivity; discriminate P.
  - rewrite Q. eexists. split; [reflexivity|]. split; reflexivity.
Qed.

End WorkerProperties.





(** ** The result the worker stores *)

Lemma setProp_same (key : jsstring) (v : value) (fields : list (jsstring * value)) :
  lookup key (Job.setProp key v fields) = v.
Proof.
  induction fields as [|[k x] rest IH]; simpl.
  - now rewrite str_eqb_refl.
  - destruct (str_eqb k key) eqn:E; simpl; now rewrite E.
Qed.

Lemma setProp_other (key key' : jsstring) (v : value)
      (fields : list (jsstring * value)) :
  key' <> key ->
  lookup key' (Job.setProp key v fields) = lookup key' fields.
Proof.
  intros N0. induction fields as [|[k x] rest IH]; simpl.
  - destruct (str_eqb key key') eqn:E; [|reflexivity].
    apply str_eqb_eq in E. now elim N0.
  - destruct (str_eqb k key) eqn:E; simpl.
    + apply str_eqb_eq in E. subst k.
      destruct (str_eqb key key') eqn:E'; [|reflexivity].
      apply str_eqb_eq in E'. now elim N0.
    + now rewrite IH.
Qed.

(** X22. The result the worker stores with a completed job is the
    model's answer with two properties set: course_id is the id of the
    saved course, or null, and assignments_saved the number of saved
    assignments, whatever the answer held under these names; every other
    property of the answer is kept as it was. *)
Theorem resultData_properties :
  forall (aiResponse : value) (courseId : option Z) (assignments_saved : nat),
  exists fields,
    Job.resultData aiResponse courseId assignments_saved = VObj fields /\
    lookup (u16 "course_id") fields =
      match courseId with Some i => VNum i | None => VNull end /\
    lookup (u16 "assignments_saved") fields = VNum (Z.of_nat assignments_saved) /\
    forall key,
      key <> u16 "course_id" -> key <> u16 "assignments_saved" ->
      lookup key fields = lookup key (Job.ownProps aiResponse).
Proof.
  intros ai cid n. eexists. split; [reflexivity|]. split; [|split].
  - rewrite setProp_other by discriminate. apply setProp_same.
  - apply setProp_same.
  - intros key N1 N2. now rewrite !setProp_other.
Qed.

Lemma resultData_properties_witness :
  exists fields,
    Job.resultData (VObj [(u16 "course_id", VNum 99); (u16 "plain_text", VStr (u16 "x"))])
                   (Some 7%Z) 2 = VObj fields /\
    lookup (u16 "course_id") fields = VNum 7 /\
    lookup (u16 "plain_text") fields = VStr (u16 "x").
Proof.
  destruct (resultData_properties
              (VObj [(u16 "course_id", VNum 99); (u16 "plain_text", VStr (u16 "x"))])
              (Some 7%Z) 2) as (fields & E & C & _ & K).
  exists fields. split; [exact E|]. split; [exact C|].
  rewrite (K (u16 "plain_text")) by discriminate. reflexivity.
Defined.

(** ** What the worker reads from the model's answer *)

Lemma orV_default (a : value) (c : N) (s : jsstring) :
  truthyV (orV a (VStr (c :: s))) = true.
Proof. unfold orV. now destruct (truthyV a) eqn:T. Qed.

(** X23. parseSyllabusData of the worker never leaves the course name or
    the professor's name empty, and takes the assignments only from an
    array.  A value that is no object (the model answered with a JSON
    string, number, boolean or array) gives the two default names, null
    for the other fields, the JSON text of the value as syllabus text and
    no assignment. *)
Theorem worker_parseSyllabusData_defaults :
  forall (stringify : value -> value) (aiResponse : value),
    Job.readable aiResponse = true ->
    exists courseData assignments,
      Worker.parseSyllabusData stringify aiResponse = Ok (courseData, assignments) /\
      truthyV (Worker.course_name courseData) = true /\
      truthyV (Worker.professor_name courseData) = true /\
      (forall fields items,
          aiResponse = VObj fields ->
          lookup (u16 "assignments") fields = VArr items ->
          assignments = items) /\
      (forall fields,
          aiResponse = VObj fields ->
          (forall items, lookup (u16 "assignments") fields <> VArr items) ->
          assignments = []) /\
      ((forall fields, aiResponse <> VObj fields) ->
       courseData =
         {| Worker.course_name := VStr (u16 "Unknown Course");
            Worker.professor_name := VStr (u16 "Unknown Professor");
            Worker.professor_email := VNull;
            Worker.meeting_days := VNull;
            Worker.office_hours := VNull;
            Worker.syllabus_text := stringify aiResponse |} /\
       assignments = []).
Proof.
  intros stringify v R.
  destruct v as [| |b|z|s|items|fields]; try discriminate R.
  1-4: eexists; eexists; split; [reflexivity|];
    split; [reflexivity|]; split; [reflexivity|];
    split; [intros f i E; discriminate E|];
    split; [intros f E; discriminate E|];
    intros _; split; reflexivity.
  eexists. eexists. split; [reflexivity|].
  split; [apply orV_default|]. split; [apply orV_default|].
  split; [|split].
  - intros f i E L. injection E as <-. now rewrite L.
  - intros f E L. injection E as <-.
    destruct (lookup (u16 "assignments") fields) eqn:X; try reflexivity.
    now elim (L items).
  - intros N0. now elim (N0 fields).
Qed.

Lemma worker_parseSyllabusData_defaults_witness :
  exists courseData,
    Worker.parseSyllabusData (fun _ => VStr (u16 "[1,2]")) (VArr [VNum 1; VNum 2]) =
      Ok (courseData, []) /\
    Worker.syllabus_text courseData = VStr (u16 "[1,2]").
Proof.
  destruct (worker_parseSyllabusData_defaults
              (fun _ => VStr (u16 "[1,2]")) (VArr [VNum 1; VNum 2]) eq_refl)
    as (cd & l & E & _ & _ & _ & _ & D).
  destruct D as (-> & ->); [discriminate|].
  eexists. split; [exact E | reflexivity].
Defined.

(** ** What the servers read from the text *)

Lemma parsedField_fieldOr (G : Glyphs) (H : Host) (text : jsstring) (f : field) :
  parsedField f (fst (parseSyllabusData G H text)) =
  fieldOr (extractField G text (parseLabel f)) (unknown f).
Proof. destruct f; reflexivity. Qed.

(** X24. parseSyllabusData of the servers keeps the text as the syllabus
    text and gives each of the five fields either its fallback (the
    default name for the course and the professor, the empty string for
    the e-mail address, the meeting days and the office hours) or the
    value of its line: a non-empty trimmed piece of the text without a
    newline.  A text in which the label of a field does not occur, in any
    letter case, gives the fallback; the course name and the professor's
    name are never empty. *)
Theorem parseSyllabusData_fields :
  forall (G : Glyphs) (H : Host) (text : jsstring) (f : field),
    bullet G <> [] ->
    syllabus_text (fst (parseSyllabusData G H text)) = text /\
    snd (parseSyllabusData G H text) = extractAssignments G H text /\
    (parsedField f (fst (parseSyllabusData G H text)) = unknown f \/
     parsedField f (fst (parseSyllabusData G H text)) <> [] /\
     includes text (parsedField f (fst (parseSyllabusData G H text))) = true /\
     trim (parsedField f (fst (parseSyllabusData G H text))) =
       parsedField f (fst (parseSyllabusData G H text)) /\
     forallb (fun c => negb (c =? NL)%N)
             (parsedField f (fst (parseSyllabusData G H text))) = true) /\
    (includes (map canon text) (map canon (parseLabel f)) = false ->
     parsedField f (fst (parseSyllabusData G H text)) = unknown f) /\
    (f = FName \/ f = FProfessor ->
     parsedField f (fst (parseSyllabusData G H text)) <> []).
Proof.
  intros G H text f B.
  split; [reflexivity|]. split; [reflexivity|].
  rewrite parsedField_fieldOr. unfold fieldOr.
  split; [|split].
  - destruct (extractField G text (parseLabel f)) as [v|] eqn:E; [|now left].
    unfold orElse. destruct (truthy v) eqn:T; [|now left].
    right. destruct (extractField_trimmed G text _ v B E) as (_ & I & Tr & Nl & _).
    split; [intros ->; discriminate|]. now split.
  - intros A. now rewrite (extractField_absent G text _ A).
  - intros F.
    assert (U : unknown f <> []) by (destruct F as [-> | ->]; discriminate).
    destruct (extractField G text (parseLabel f)) as [v|]; [|exact U].
    unfold orElse. destruct (truthy v) eqn:T; [|exact U].
    intros ->. discriminate.
Qed.

Lemma parseSyllabusData_fields_witness :
  parsedField FProfessor
              (fst (parseSyllabusData glyphs (hostAt 0) (sampleSummary glyphs))) =
  u16 "Unknown Professor".
Proof.
  apply (proj1 (proj2 (proj2 (proj2 (parseSyllabusData_fields
                                       glyphs (hostAt 0) (sampleSummary glyphs)
                                       FProfessor ltac:(discriminate)))))).
  vm_compute. reflexivity.
Defined.

(** ** Cleaning a bullet line *)

(** X25. cleanBullet removes one marker from the front, if there is one,
    and trims what is left; a marker further on stays. *)
Theorem cleanBullet_cases :
  forall (G : Glyphs) (b : jsstring),
    cleanBullet G b =
    if startsWith (bullet G) b then trim (skipn (length (bullet G)) b)
    else trim b.
Proof.
  intros G b. destruct (startsWith (bullet G) b) eqn:S.
  - apply startsWith_spec in S. destruct S as (t & ->).
    rewrite cleanBullet_spec. f_equal.
    rewrite skipn_app, Nat.sub_diag, skipn_all. reflexivity.
  - unfold cleanBullet. now rewrite leadingBullet_absent.
Qed.

(** ** The form of a due date *)

Lemma pad_length (w : nat) (n : Z) : length (pad w n) = w.
Proof.
  revert n. induction w as [|w IH]; intros n; simpl; [reflexivity|].
  rewrite length_app, IH. simpl. lia.
Qed.

Lemma pad_dateUnit (w : nat) (n : Z) : forallb dateUnit (pad w n) = true.
Proof.
  revert n. induction w as [|w IH]; intros n; simpl; [reflexivity|].
  rewrite forallb_app, IH. simpl.
  pose proof (digitUnit_range n) as B. unfold dateUnit, isDigit.
  destruct (N.leb_spec 48 (digitUnit n)); [|lia].
  destruct (N.leb_spec (digitUnit n) 57); [reflexivity | lia].
Qed.

Lemma dateUnit_not_T (s : jsstring) :
  forallb dateUnit s = true -> forallb (fun c => negb (c =? 84)%N) s = true.
Proof.
  intros F. apply forallb_forall. intros c I.
  rewrite forallb_forall in F. specialize (F c I).
  destruct (N.eqb_spec c 84) as [-> | N0]; [discriminate F | reflexivity].
Qed.

Lemma toISOString_date (tv : option Z) (iso : jsstring) :
  toISOString tv = Ok iso ->
  (length (beforeFirst 84%N iso) = 10 \/ length (beforeFirst 84%N iso) = 13) /\
  forallb dateUnit (beforeFirst 84%N iso) = true.
Proof.
  unfold toISOString. destruct tv as [t|]; [|discriminate].
  destruct (Z.abs t <=? 8640000000000000)%Z; [|discriminate].
  destruct (civilFromDays (t / msPerDay)) as [[y m] d].
  set (year := if ((0 <=? y) && (y <=? 9999))%Z then pad 4 y
               else (if (y <? 0)%Z then u16 "-" else u16 "+") ++ pad 6 (Z.abs y)).
  intros E. injection E as <-.
  assert (Y : forallb dateUnit year = true /\ (length year = 4 \/ length year = 7)).
  { unfold year. destruct ((0 <=? y) && (y <=? 9999))%Z.
    - split; [apply pad_dateUnit | left; apply pad_length].
    - split.
      + rewrite forallb_app, pad_dateUnit. now destruct (y <? 0)%Z.
      + right. rewrite length_app, pad_length. now destruct (y <? 0)%Z. }
  destruct Y as (Y1 & Y2).
  assert (U : forall n, dateUnit (digitUnit n) = true).
  { intros n. pose proof (digitUnit_range n) as B. unfold dateUnit, isDigit.
    destruct (N.leb_spec 48 (digitUnit n)); [|lia].
    destruct (N.leb_spec (digitUnit n) 57); [reflexivity | lia]. }
  assert (P : forall a b c e r,
             beforeFirst 84%N
               (year ++ 45%N :: digitUnit a :: digitUnit b :: 45%N ::
                digitUnit c :: digitUnit e :: 84%N :: r) =
             year ++ [45%N; digitUnit a; digitUnit b; 45%N; digitUnit c;
                      digitUnit e] /\
             forallb dateUnit
                     (year ++ [45%N; digitUnit a; digitUnit b; 45%N; digitUnit c;
                               digitUnit e]) = true).
  { intros a b c e r.
    assert (F : forallb dateUnit
                        (year ++ [45%N; digitUnit a; digitUnit b; 45%N;
                                  digitUnit c; digitUnit e]) = true).
    { rewrite forallb_app, Y1. simpl. now rewrite !U. }
    split; [|exact F].
    rewrite <- (beforeFirst_app 84%N _ r (dateUnit_not_T _ F)).
    now rewrite <- app_assoc. }
  simpl.
  match goal with
  | |- context [beforeFirst _ (year ++ _ :: digitUnit ?a :: digitUnit ?b :: _ ::
                               digitUnit ?c :: digitUnit ?e :: _ :: ?r)] =>
      destruct (P a b c e r) as (P1 & P2)
  end.
  rewrite P1. split; [|exact P2].
  rewrite length_app. simpl. lia.
Qed.

(** X26. A due date is a bare calendar date and never a time stamp: ten
    units, digits and hyphens, or thirteen with the sign and the six
    digits of a year outside 0 to 9999. *)
Theorem due_date_is_a_bare_date :
  forall (H : Host) (bullet section d : jsstring),
    due_date (parseAssignmentBullet H bullet section) = Some d ->
    (length d = 10 \/ length d = 13) /\ forallb dateUnit d = true.
Proof.
  intros H bullet section d. unfold parseAssignmentBullet.
  destruct (scanDates_shape H bullet datePatterns)
    as [S | (ic & p & m & iso & _ & _ & I & S)]; rewrite S; cbn [due_date].
  - discriminate.
  - intros [= <-]. now apply (toISOString_date _ iso I).
Qed.

Lemma due_date_is_a_bare_date_witness :
  length (u16 "2024-03-15") = 10 \/ length (u16 "2024-03-15") = 13.
Proof.
  apply (due_date_is_a_bare_date (hostAt 0) (u16 "Midterm March 15, 2024")
                                 (u16 "TEST DATES") (u16 "2024-03-15")).
  vm_compute. reflexivity.
Defined.

(** ** The order of the pages *)

Lemma merged_list_In (G : Glyphs) (pages : list page) (c : category)
      (x : jsstring) :
  In x (getList c (mergePages G pages)) <->
  exists t, In t (texts pages) /\
            In x (extractBulletPoints G t (sectionTitle c)).
Proof.
  unfold mergePages. rewrite fold_list, pushUnique_In, in_flat_map.
  replace (getList c emptyMerged) with (@nil jsstring) by now destruct c.
  simpl. tauto.
Qed.

(** X27. Which entries a merged list holds depends only on which page
    texts there are: page lists with the same texts, in whatever order
    and however often, give lists with the same entries and of the same
    length.  Only the order of the entries follows the order of the
    pages. *)
Theorem merged_lists_do_not_depend_on_page_order :
  forall (G : Glyphs) (pages pages' : list page) (c : category),
    (forall t, In t (texts pages) <-> In t (texts pages')) ->
    (forall x, In x (getList c (mergePages G pages)) <->
               In x (getList c (mergePages G pages'))) /\
    length (getList c (mergePages G pages)) =
    length (getList c (mergePages G pages')).
Proof.
  intros G pages pages' c T.
  assert (E : forall x, In x (getList c (mergePages G pages)) <->
                        In x (getList c (mergePages G pages'))).
  { intros x. rewrite !merged_list_In. split; intros (t & I & X); exists t;
      (split; [now apply T | exact X]). }
  split; [exact E|].
  apply Nat.le_antisymm; apply NoDup_incl_length;
    try apply merged_list_NoDup; intros x I; now apply E.
Qed.

Lemma merged_lists_do_not_depend_on_page_order_witness :
  length (getList CTestDates (mergePages glyphs (pagesOctober glyphs))) =
  length (getList CTestDates (mergePages glyphs (rev (pagesOctober glyphs)))).
Proof.
  apply (merged_lists_do_not_depend_on_page_order
           glyphs (pagesOctober glyphs) (rev (pagesOctober glyphs)) CTestDates).
  intros t. unfold texts. rewrite map_rev. apply in_rev.
Defined.
